(** * ESPnet: token-classification head and multi-decoder ST model

    A shallow embedding of

    - [espnet2/nlu/token_classification.py] ([LinearDecoder]), and
    - [espnet2/st/espnet_model_md_samp.py] ([ESPnetSTMDSampModel]),

    together with the properties of their forward passes.

    Python floats are IEEE binary64 numbers and are embedded as Rocq's
    primitive floats, Python ints as [Z].  Exceptions are values of [exn];
    a computation that may raise has type [result A].  The sub-modules that
    [ESPnetSTMDSampModel] receives from its caller (encoders, decoders, CTC,
    the criteria) are fields of the model record holding their [forward]
    function; every invocation of one of them is recorded in a call log that
    the monad [M] threads through the forward pass. *)

From Stdlib Require Import ZArith String List Bool Lia.
From Stdlib Require Import Floats.
Import ListNotations.

Set Implicit Arguments.

(** ** Python runtime: exceptions, fallible computations, numbers *)

Module Py.

Inductive exn : Type :=
| AssertionError (msg : string)
| AttributeError (attr : string)
| NameError (name : string)
| UnboundLocalError (name : string)
| IndexError (msg : string)
| RuntimeError (msg : string)
| TypeError (msg : string)
| ValueError (msg : string)
| ZeroDivisionError
| OverflowError.

(** [UnboundLocalError] is a subclass of [NameError]. *)
Definition isinstance_NameError (e : exn) : bool :=
  match e with
  | NameError _ | UnboundLocalError _ => true
  | _ => false
  end.

(** A computation that returns or raises. *)
Definition result (A : Type) : Type := (exn + A)%type.

Definition ok {A} (a : A) : result A := inr a.
Definition raise {A} (e : exn) : result A := inl e.

Definition rbind {A B} (c : result A) (k : A -> result B) : result B :=
  match c with
  | inl e => inl e
  | inr a => k a
  end.

Definition returns {A} (c : result A) : bool :=
  match c with
  | inr _ => true
  | inl _ => false
  end.

(** [assert cond, msg] *)
Definition assert (cond : bool) (msg : string) : result unit :=
  if cond then ok tt else raise (AssertionError msg).

(** int -> float conversion, as in [1 - x] or [w * 0] with [x], [w] floats:
    round to nearest even, [OverflowError] beyond the binary64 range. *)
Definition float_of_Z (z : Z) : float :=
  SF2Prim (binary_normalize prec emax z 0 false).

Definition float_of_int (z : Z) : result float :=
  let f := float_of_Z z in
  if is_infinity f then raise OverflowError else ok f.

(** [a < b < c] on floats (a chained comparison). *)
Definition lt_lt (a b c : float) : bool := ((a <? b) && (b <? c))%float.
(** [a <= b < c] on floats. *)
Definition le_lt (a b c : float) : bool := ((a <=? b) && (b <? c))%float.

(** [l[:n]] for a Python sequence: a negative bound counts from the end. *)
Definition slice_to {A} (l : list A) (n : Z) : list A :=
  if (n <? 0)%Z
  then firstn (Z.to_nat (Z.of_nat (length l) + n)) l
  else firstn (Z.to_nat n) l.

(** [len(l)] *)
Definition len {A} (l : list A) : Z := Z.of_nat (length l).

End Py.

Export Py.

Declare Scope result_scope.
Delimit Scope result_scope with result.
Notation "x <- c ;; k" := (rbind c (fun x => k))
  (at level 61, c at next level, right associativity) : result_scope.
Notation "' pat <- c ;; k" := (rbind c (fun x => match x with pat => k end))
  (at level 61, pat pattern, c at next level, right associativity) : result_scope.
Notation "c ;; k" := (rbind c (fun _ => k))
  (at level 61, right associativity) : result_scope.

(** ** [espnet2/nlu/token_classification.py] *)

Module TokenClassification.

Section Defs.

(** The element type of the float tensors and its arithmetic. *)
Variable V : Type.
Variable vzero : V.
Variable vadd vmul : V -> V -> V.

(** A rank-3 tensor: its sizes and its rows. *)
Record Tensor3 : Type := mkTensor3 {
  size0 : nat;
  size1 : nat;
  size2 : nat;
  data : list (list (list V))
}.

(** [rows] really is an array [n0 x n1 x n2]. *)
Definition has_shape (rows : list (list (list V))) (n0 n1 n2 : nat) : Prop :=
  length rows = n0 /\
  Forall (fun r => length r = n1 /\ Forall (fun x => length x = n2) r) rows.

Definition well_formed (t : Tensor3) : Prop :=
  has_shape (data t) (size0 t) (size1 t) (size2 t).

(** [torch.nn.Linear]: [weight] is [out_features x in_features]. *)
Record Linear : Type := mkLinear {
  in_features : Z;
  out_features : Z;
  weight : list (list V);
  bias : list V
}.

(** [torch.nn.Linear(in_features, out_features)].  The parameters are drawn
    at random by torch; the draw is the argument [w0], [b0].  The sizes for
    which torch cannot allocate the parameters are not modelled: what is
    proved of a layer takes its construction as a hypothesis. *)
Definition Linear_init (in_f out_f : Z)
    (w0 : nat -> nat -> V) (b0 : nat -> V) : result Linear :=
  if ((in_f <? 0) || (out_f <? 0))%Z
  then raise (RuntimeError "Trying to create tensor with negative dimension")
  else ok {| in_features := in_f;
             out_features := out_f;
             weight := map (fun j => map (w0 j) (seq 0 (Z.to_nat in_f)))
                           (seq 0 (Z.to_nat out_f));
             bias := map b0 (seq 0 (Z.to_nat out_f)) |}.

Definition dot (x w : list V) : V :=
  fold_left (fun acc xw => vadd acc (vmul (fst xw) (snd xw))) (combine x w) vzero.

(** One output vector: [y_j = x . weight_j + bias_j]. *)
Definition affine (l : Linear) (x : list V) : list V :=
  map (fun wb => vadd (dot x (fst wb)) (snd wb)) (combine (weight l) (bias l)).

(** [Linear.forward]: applied along the last dimension. *)
Definition Linear_forward (l : Linear) (input : Tensor3) : result Tensor3 :=
  if (Z.of_nat (size2 input) =? in_features l)%Z
  then ok {| size0 := size0 input;
             size1 := size1 input;
             size2 := Z.to_nat (out_features l);
             data := map (map (affine l)) (data input) |}
  else raise (RuntimeError "mat1 and mat2 shapes cannot be multiplied").

Record LinearDecoder : Type := mkLinearDecoder {
  _num_labels : Z;
  linear_decoder : Linear
}.

(** [LinearDecoder.__init__(encoder_output_size, num_labels=2)];
    [None] for [num_labels] is the call that leaves the default. *)
Definition default_num_labels : Z := 2.

Definition __init__ (encoder_output_size : Z) (num_labels : option Z)
    (w0 : nat -> nat -> V) (b0 : nat -> V) : result LinearDecoder :=
  (let num_labels := match num_labels with
                     | Some n => n
                     | None => default_num_labels
                     end in
   lin <- Linear_init encoder_output_size num_labels w0 b0 ;;
   ok {| _num_labels := num_labels; linear_decoder := lin |})%result.

(** [LinearDecoder.forward(input, ilens)] *)
Definition forward (self : LinearDecoder) (input : Tensor3) (ilens : list Z)
    : result Tensor3 :=
  (output <- Linear_forward (linear_decoder self) input ;;
   ok output)%result.

(** The [num_labels] property. *)
Definition num_labels (self : LinearDecoder) : Z := _num_labels self.

End Defs.

End TokenClassification.

(** ** The tensor library

    Float tensors are opaque: the model only moves them between modules,
    asks for their sizes and combines scalar losses.  What torch provides is
    the interface [Torch]; its three laws say how [requires_grad] (being
    attached to the autograd graph) behaves under the operations used on the
    reported statistics.  Integer ([long]) tensors carry the token ids and
    the lengths and are concrete: rank 1 is [list Z], rank 2 a list of rows.
    The device a tensor lives on is not modelled. *)

Class Torch : Type := {
  Tensor : Type;
  (** [x.shape] *)
  shape : Tensor -> list Z;
  (** [x[:, :n]] *)
  slice_time : Tensor -> Z -> result Tensor;
  (** [x.view(-1, n)] *)
  view2 : Tensor -> Z -> result Tensor;
  (** [x.argmax(dim=-1)] of a rank-3 tensor *)
  argmax_last : Tensor -> result (list (list Z));
  (** [a * x], [a + x] with [a] a Python float, and [x + y] *)
  rmul : float -> Tensor -> Tensor;
  radd : float -> Tensor -> Tensor;
  tadd : Tensor -> Tensor -> Tensor;
  (** [x.detach()], [x.requires_grad], [x[None]] *)
  detach : Tensor -> Tensor;
  requires_grad : Tensor -> bool;
  unsqueeze0 : Tensor -> Tensor;
  (** [torch.tensor([a], dtype=torch.float)] *)
  tensor_of_float : float -> Tensor;
  requires_grad_detach : forall t, requires_grad (detach t) = false;
  requires_grad_unsqueeze0 :
    forall t, requires_grad (unsqueeze0 t) = requires_grad t;
  requires_grad_tensor_of_float :
    forall a, requires_grad (tensor_of_float a) = false
}.

Module LongTensor.

(** 64-bit signed wrap-around of [long] arithmetic. *)
Definition wrap64 (z : Z) : Z :=
  ((z + 2 ^ 63) mod 2 ^ 64 - 2 ^ 63)%Z.

(** [lens + k] on a rank-1 long tensor *)
Definition add_scalar (lens : list Z) (k : Z) : list Z :=
  map (fun z => wrap64 (z + k)) lens.

(** [lens.dim()] of a rank-1 tensor *)
Definition dim1 (lens : list Z) : Z := 1.

(** [lens.max()]: torch refuses an empty tensor. *)
Definition max (lens : list Z) : result Z :=
  match lens with
  | [] => raise (RuntimeError "max(): Expected reduction dim to be specified for input.numel() == 0")
  | x :: rest => ok (fold_left Z.max rest x)
  end.

(** [t[:, :n]] on a rank-2 long tensor *)
Definition slice_cols (t : list (list Z)) (n : Z) : list (list Z) :=
  map (fun row => slice_to row n) t.

(** [t[i]] for [i >= 0] *)
Definition index (t : list (list Z)) (i : nat) : result (list Z) :=
  match nth_error t i with
  | Some row => ok row
  | None => raise (IndexError "index out of range")
  end.

(** [torch.nn.utils.rnn.pad_sequence(seqs, batch_first=True,
    padding_value=v)]: every sequence is extended on the right with [v]
    up to the longest one. *)
Definition max_len (seqs : list (list Z)) : nat :=
  fold_right (fun s m => Nat.max (length s) m) 0%nat seqs.

Definition pad_to (n : nat) (v : Z) (s : list Z) : list Z :=
  s ++ repeat v (n - length s).

Definition pad_sequence (seqs : list (list Z)) (padding_value : Z)
    : result (list (list Z)) :=
  match seqs with
  | [] => raise (RuntimeError "received an empty list of sequences")
  | _ => ok (map (pad_to (max_len seqs) padding_value) seqs)
  end.

End LongTensor.

(** ** The self-generated transcript of the CTC sampling branch
    ([forward], lines 202-210) *)

Module CtcSample.

(** [[x[0] for x in groupby(ys)]]: [itertools.groupby] opens a new group
    whenever the element differs from the key of the current group. *)
Fixpoint groupby_from (cur : option Z) (ys : list Z) : list Z :=
  match ys with
  | [] => []
  | y :: rest =>
      match cur with
      | Some k => if (y =? k)%Z then groupby_from cur rest
                  else y :: groupby_from (Some y) rest
      | None => y :: groupby_from (Some y) rest
      end
  end.

Definition groupby_keys (ys : list Z) : list Z := groupby_from None ys.

(** [[x for x in filter(lambda x: x != 0, ys)]] *)
Definition filter_blank (ys : list Z) : list Z :=
  filter (fun x => negb (x =? 0)%Z) ys.

(** [[x for x in src_text[i] if x != -1]] *)
Definition strip_ignore (row : list Z) : list Z :=
  filter (fun x => negb (x =? -1)%Z) row.

(** The loop [for i, ys in enumerate(ys_hat)] from position [i] on. *)
Fixpoint fill_empty (i : nat) (ys_hat : list (list Z))
    (src_text : list (list Z)) : result (list (list Z)) :=
  match ys_hat with
  | [] => ok []
  | ys :: rest =>
      (ys' <- (if (len ys =? 0)%Z
               then (row <- LongTensor.index src_text i ;; ok (strip_ignore row))
               else ok ys) ;;
       rest' <- fill_empty (S i) rest src_text ;;
       ok (ys' :: rest'))%result
  end.

(** Lines 203-210, from the greedy CTC output [ys_hat] to the padded
    batch and its lengths. *)
Definition sample (ys_hat : list (list Z)) (src_text : list (list Z))
    : result (list (list Z) * list Z) :=
  (let ys_hat := map groupby_keys ys_hat in
   let ys_hat := map filter_blank ys_hat in
   ys_hat <- fill_empty 0 ys_hat src_text ;;
   let ys_hat_lens := map (fun x => len x) ys_hat in
   ys_hat <- LongTensor.pad_sequence ys_hat (-1) ;;
   ok (ys_hat, ys_hat_lens))%result.

(** The same transcript, written after its description: collapse runs of
    equal tokens, drop the blank, fall back on the reference transcript
    without its padding, then pad. *)
Fixpoint collapse (ys : list Z) : list Z :=
  match ys with
  | [] => []
  | y :: rest =>
      match rest with
      | [] => [y]
      | y' :: _ => if (y =? y')%Z then collapse rest else y :: collapse rest
      end
  end.

Definition transcript_spec (src_row : option (list Z)) (ys : list Z)
    : result (list Z) :=
  match filter_blank (collapse ys) with
  | [] => match src_row with
          | Some row => ok (strip_ignore row)
          | None => raise (IndexError "index out of range")
          end
  | toks => ok toks
  end.

Fixpoint transcripts_spec (i : nat) (ys_hat src_text : list (list Z))
    : result (list (list Z)) :=
  match ys_hat with
  | [] => ok []
  | ys :: rest =>
      (t <- transcript_spec (nth_error src_text i) ys ;;
       ts <- transcripts_spec (S i) rest src_text ;;
       ok (t :: ts))%result
  end.

(** No token stands next to an equal one. *)
Fixpoint no_repeat (ys : list Z) : Prop :=
  match ys with
  | [] => True
  | y :: rest =>
      match rest with
      | [] => True
      | y' :: _ => y <> y' /\ no_repeat rest
      end
  end.

(** A CTC alignment of a label sequence: [lead] blanks, then every label
    [x] of [(x, n, b)] written [n + 1] times and followed by [b + 1]
    blanks. *)
Fixpoint segments (labels : list (Z * nat * nat)) : list Z :=
  match labels with
  | [] => []
  | (x, n, b) :: rest => repeat x (S n) ++ repeat 0%Z (S b) ++ segments rest
  end.

Definition alignment (lead : nat) (labels : list (Z * nat * nat)) : list Z :=
  repeat 0%Z lead ++ segments labels.

(** Every transcript extended on the right with [v] to the length of the
    longest one. *)
Definition right_pad (v : Z) (ts : list (list Z)) : list (list Z) :=
  let longest := list_max (map (@length Z) ts) in
  map (fun t => t ++ repeat v (longest - length t)) ts.

Definition sample_spec (ys_hat src_text : list (list Z))
    : result (list (list Z) * list Z) :=
  (ts <- transcripts_spec 0 ys_hat src_text ;;
   match ts with
   | [] => raise (RuntimeError "received an empty list of sequences")
   | _ => ok (right_pad (-1) ts, map (fun t => Z.of_nat (length t)) ts)
   end)%result.

End CtcSample.

(** ** [espnet2/st/espnet_model_md_samp.py] *)

Module STMDSamp.

Section Defs.

Context {torch : Torch}.

(** *** Values, sub-modules and the call log *)

(** The Python values that reach the loss arithmetic and the statistics. *)
Inductive pyval : Type :=
| PyNone
| PyInt (z : Z)
| PyFloat (a : float)
| PyTensor (t : Tensor)
| PyLong (l : list Z).

(** [a * b], [a + b], [a - b] for the operand types the model meets. *)
Definition py_mul (a b : pyval) : result pyval :=
  match a, b with
  | PyFloat x, PyFloat y => ok (PyFloat (x * y)%float)
  | PyFloat x, PyInt z =>
      (y <- float_of_int z ;; ok (PyFloat (x * y)%float))%result
  | PyFloat x, PyTensor t => ok (PyTensor (rmul x t))
  | _, _ => raise (TypeError "unsupported operand type(s) for *")
  end.

Definition py_add (a b : pyval) : result pyval :=
  match a, b with
  | PyFloat x, PyFloat y => ok (PyFloat (x + y)%float)
  | PyFloat x, PyTensor t => ok (PyTensor (radd x t))
  | PyTensor s, PyTensor t => ok (PyTensor (tadd s t))
  | _, _ => raise (TypeError "unsupported operand type(s) for +")
  end.

Definition py_sub (a b : pyval) : result pyval :=
  match a, b with
  | PyInt z, PyFloat y =>
      (x <- float_of_int z ;; ok (PyFloat (x - y)%float))%result
  | PyFloat x, PyFloat y => ok (PyFloat (x - y)%float)
  | _, _ => raise (TypeError "unsupported operand type(s) for -")
  end.

(** [v.detach()] and [v.device]: only tensors have them. *)
Definition py_detach (v : pyval) : result pyval :=
  match v with
  | PyTensor t => ok (PyTensor (detach t))
  | _ => raise (AttributeError "detach")
  end.

Definition py_device (v : pyval) : result unit :=
  match v with
  | PyTensor _ | PyLong _ => ok tt
  | _ => raise (AttributeError "device")
  end.

(** [type(v) is float] *)
Definition type_is_float (v : pyval) : bool :=
  match v with
  | PyFloat _ => true
  | _ => false
  end.

Definition of_option_float (o : option float) : pyval :=
  match o with
  | Some a => PyFloat a
  | None => PyNone
  end.

(** [AbsFrontend], [AbsSpecAug], [AbsNormalize], [AbsPreEncoder],
    [AbsPostEncoder]: features and lengths in, features and lengths out.
    [AbsEncoder] returns a third component that the model discards. *)
Definition FeatsModule : Type :=
  Tensor -> list Z -> result (Tensor * list Z).

(** The ST decoder: [decoder(hs_pad, hlens, ys_in_pad, ys_in_lens)], with
    the speech encoder output as two more arguments under [speech_attn];
    of its pair of results only [decoder_out] is used. *)
Definition STDecoder : Type :=
  Tensor -> list Z -> list (list Z) -> list Z -> option (Tensor * list Z) ->
  result Tensor.

(** The ASR decoder called with [return_hidden=True]: [decoder_out] and the
    hidden states [hs_dec_asr]. *)
Definition ASRDecoder : Type :=
  Tensor -> list Z -> list (list Z) -> list Z -> result (Tensor * Tensor).

(** [espnet2.asr.ctc.CTC]: the loss ([__call__]) and [argmax]. *)
Record CTC : Type := mkCTC {
  ctc_loss : Tensor -> list Z -> list (list Z) -> list Z -> result Tensor;
  ctc_argmax : Tensor -> result (list (list Z))
}.

(** [LabelSmoothingLoss]: [criterion(decoder_out, ys_out_pad)], a scalar. *)
Definition Criterion : Type := Tensor -> list (list Z) -> result Tensor.

(** [espnet.nets.e2e_mt_common.ErrorCalculator]: BLEU, or [None]. *)
Definition MTErrorCalculator : Type :=
  list (list Z) -> list (list Z) -> result (option float).

(** [espnet.nets.e2e_asr_common.ErrorCalculator]: [(cer, wer)], and the CER
    of a CTC output when called with [is_ctc=True]. *)
Record ASRErrorCalculator : Type := mkASRErrorCalculator {
  asr_cer_wer :
    list (list Z) -> list (list Z) -> result (option float * option float);
  asr_cer_ctc : list (list Z) -> list (list Z) -> result (option float)
}.

(** The names the file imports from the rest of ESPnet. *)
Record Imports : Type := mkImports {
  (** [add_sos_eos(ys_pad, sos, eos, ignore_id)] = [(ys_in_pad, ys_out_pad)] *)
  add_sos_eos :
    list (list Z) -> Z -> Z -> Z -> result (list (list Z) * list (list Z));
  (** [th_accuracy(pad_outputs, pad_targets, ignore_label)] *)
  th_accuracy : Tensor -> list (list Z) -> Z -> result float;
  (** [LabelSmoothingLoss(size, padding_idx, smoothing, normalize_length)] *)
  LabelSmoothingLoss : Z -> Z -> float -> bool -> Criterion;
  (** [MTErrorCalculator(token_list, sym_space, sym_blank, report_bleu)] *)
  new_MTErrorCalculator :
    list string -> string -> string -> bool -> MTErrorCalculator;
  (** [ASRErrorCalculator(src_token_list, sym_space, sym_blank, report_cer,
      report_wer)]: the constructor looks [sym_blank] up in the token list
      and may raise. *)
  new_ASRErrorCalculator :
    list string -> string -> string -> bool -> bool
    -> result ASRErrorCalculator
}.

(** One entry of the call log per invocation of a sub-module. *)
Inductive event : Type :=
| CallFrontend (speech : Tensor) (lens : list Z)
| CallSpecaug (feats : Tensor) (lens : list Z)
| CallNormalize (feats : Tensor) (lens : list Z)
| CallPreencoder (feats : Tensor) (lens : list Z)
| CallEncoder (feats : Tensor) (lens : list Z)
| CallPostencoder (feats : Tensor) (lens : list Z)
| CallEncoderMt (hs : Tensor) (lens : list Z)
| CallCtcArgmax (hs : Tensor)
| CallCtc (hs : Tensor) (hlens : list Z) (ys_pad : list (list Z))
    (ys_lens : list Z)
| CallAsrDecoder (hs : Tensor) (hlens : list Z) (ys_in_pad : list (list Z))
    (ys_in_lens : list Z)
| CallDecoder (hs : Tensor) (hlens : list Z) (ys_in_pad : list (list Z))
    (ys_in_lens : list Z) (speech : option (Tensor * list Z))
| CallCriterionAsr (decoder_out : Tensor) (ys_out_pad : list (list Z))
| CallCriterionSt (decoder_out : Tensor) (ys_out_pad : list (list Z))
| CallMtErrorCalculator (ys_hat ys_pad : list (list Z))
| CallAsrErrorCalculator (ys_hat ys_pad : list (list Z)) (is_ctc : bool).

(** A computation of the model: it extends the call log or raises. *)
Definition M (A : Type) : Type := list event -> result (A * list event).

Definition ret {A} (a : A) : M A := fun log => ok (a, log).

Definition bind {A B} (c : M A) (k : A -> M B) : M B :=
  fun log =>
    match c log with
    | inl e => inl e
    | inr (a, log') => k a log'
    end.

(** A step that touches no sub-module. *)
Definition lift {A} (c : result A) : M A :=
  fun log =>
    match c with
    | inl e => inl e
    | inr a => ok (a, log)
    end.

(** The invocation [ev] of a sub-module, with outcome [c]. *)
Definition call {A} (ev : event) (c : result A) : M A :=
  fun log =>
    match c with
    | inl e => inl e
    | inr a => ok (a, log ++ [ev])
    end.

(** Run from the empty log. *)
Definition run {A} (c : M A) : result (A * list event) := c [].

(** The sub-module that an entry of the log invokes. *)
Inductive callee : Type :=
| ModFrontend | ModSpecaug | ModNormalize | ModPreencoder | ModEncoder
| ModPostencoder | ModEncoderMt | ModCtcArgmax | ModCtc | ModAsrDecoder
| ModDecoder | ModCriterionAsr | ModCriterionSt | ModMtErrorCalculator
| ModAsrErrorCalculator.

Definition callee_of (ev : event) : callee :=
  match ev with
  | CallFrontend _ _ => ModFrontend
  | CallSpecaug _ _ => ModSpecaug
  | CallNormalize _ _ => ModNormalize
  | CallPreencoder _ _ => ModPreencoder
  | CallEncoder _ _ => ModEncoder
  | CallPostencoder _ _ => ModPostencoder
  | CallEncoderMt _ _ => ModEncoderMt
  | CallCtcArgmax _ => ModCtcArgmax
  | CallCtc _ _ _ _ => ModCtc
  | CallAsrDecoder _ _ _ _ => ModAsrDecoder
  | CallDecoder _ _ _ _ _ => ModDecoder
  | CallCriterionAsr _ _ => ModCriterionAsr
  | CallCriterionSt _ _ => ModCriterionSt
  | CallMtErrorCalculator _ _ => ModMtErrorCalculator
  | CallAsrErrorCalculator _ _ _ => ModAsrErrorCalculator
  end.

Definition callee_code (c : callee) : nat :=
  match c with
  | ModFrontend => 0 | ModSpecaug => 1 | ModNormalize => 2
  | ModPreencoder => 3 | ModEncoder => 4 | ModPostencoder => 5
  | ModEncoderMt => 6 | ModCtcArgmax => 7 | ModCtc => 8
  | ModAsrDecoder => 9 | ModDecoder => 10 | ModCriterionAsr => 11
  | ModCriterionSt => 12 | ModMtErrorCalculator => 13
  | ModAsrErrorCalculator => 14
  end.

Definition callee_eqb (a b : callee) : bool :=
  Nat.eqb (callee_code a) (callee_code b).

(** The invocations of [c] in a log, in order. *)
Definition calls_to (c : callee) (log : list event) : list event :=
  filter (fun ev => callee_eqb (callee_of ev) c) log.

(** The modules of the speech encoder [encode]. *)
Definition feats_stage (c : callee) : bool :=
  match c with
  | ModFrontend | ModSpecaug | ModNormalize | ModPreencoder | ModEncoder
  | ModPostencoder => true
  | _ => false
  end.

(** The invocations that depend on the mode: the error calculators, which
    run in evaluation mode only, and [ctc.argmax]. *)
Definition auxiliary (c : callee) : bool :=
  match c with
  | ModCtcArgmax | ModMtErrorCalculator | ModAsrErrorCalculator => true
  | _ => false
  end.

(** [d[key]] in a dictionary kept in insertion order. *)
Fixpoint dict_get (d : list (string * pyval)) (key : string) : option pyval :=
  match d with
  | [] => None
  | (k, v) :: rest => if String.eqb k key then Some v else dict_get rest key
  end.

End Defs.

Declare Scope M_scope.
Delimit Scope M_scope with M.
Notation "x <- c ;; k" := (bind c (fun x => k))
  (at level 61, c at next level, right associativity) : M_scope.
Notation "' pat <- c ;; k" := (bind c (fun x => match x with pat => k end))
  (at level 61, pat pattern, c at next level, right associativity) : M_scope.
Notation "c ;; k" := (bind c (fun _ => k))
  (at level 61, right associativity) : M_scope.

Section Model.

Context {torch : Torch}.
Variable imports : Imports.

(** *** The model object *)

(** [Union[Tuple[str, ...], List[str]]] *)
Inductive str_seq : Type :=
| StrTuple (items : list string)
| StrList (items : list string).

Definition items_of (s : str_seq) : list string :=
  match s with
  | StrTuple l | StrList l => l
  end.

(** [type(s) is list] *)
Definition is_list (s : str_seq) : bool :=
  match s with
  | StrList _ => true
  | StrTuple _ => false
  end.

(** [s.copy()]: lists have it, tuples do not. *)
Definition str_seq_copy (s : str_seq) : result (list string) :=
  match s with
  | StrList l => ok l
  | StrTuple _ => raise (AttributeError "copy")
  end.

(** The attributes of an instance.  [ctc] is an attribute that [__init__]
    may leave unset; [training] is the flag of [torch.nn.Module]. *)
Record ESPnetSTMDSampModel : Type := mkModel {
  sos : Z;
  eos : Z;
  src_sos : Z;
  src_eos : Z;
  vocab_size : Z;
  src_vocab_size : Z;
  ignore_id : Z;
  asr_weight : float;
  mt_weight : float;
  mtlalpha : float;
  ctc_sample_rate : float;
  token_list : list string;
  src_token_list : list string;
  speech_attn : bool;
  frontend : option FeatsModule;
  specaug : option FeatsModule;
  normalize : option FeatsModule;
  preencoder : option FeatsModule;
  postencoder : option FeatsModule;
  encoder : FeatsModule;
  encoder_mt : FeatsModule;
  decoder : STDecoder;
  criterion_st : Criterion;
  criterion_asr : Criterion;
  ctc : option CTC;
  asr_decoder : ASRDecoder;
  mt_error_calculator : option MTErrorCalculator;
  asr_error_calculator : option ASRErrorCalculator;
  extract_feats_in_collect_stats : bool;
  training : bool
}.

(** The keyword arguments of [__init__] and their default values. *)
Record init_kwargs : Type := mkKwargs {
  kw_src_vocab_size : Z;
  kw_src_token_list : str_seq;
  kw_asr_weight : float;
  kw_mt_weight : float;
  kw_mtlalpha : float;
  kw_ctc_sample_rate : float;
  kw_ignore_id : Z;
  kw_lsm_weight : float;
  kw_length_normalized_loss : bool;
  kw_report_cer : bool;
  kw_report_wer : bool;
  kw_report_bleu : bool;
  kw_sym_space : string;
  kw_sym_blank : string;
  kw_extract_feats_in_collect_stats : bool;
  kw_speech_attn : bool
}.

Definition default_kwargs : init_kwargs := {|
  kw_src_vocab_size := 0;
  kw_src_token_list := StrList [];
  kw_asr_weight := 0.0%float;
  kw_mt_weight := 0.0%float;
  kw_mtlalpha := 0.0%float;
  kw_ctc_sample_rate := 0.0%float;
  kw_ignore_id := -1;
  kw_lsm_weight := 0.0%float;
  kw_length_normalized_loss := false;
  kw_report_cer := true;
  kw_report_wer := true;
  kw_report_bleu := true;
  kw_sym_space := "<space>";
  kw_sym_blank := "<blank>";
  kw_extract_feats_in_collect_stats := true;
  kw_speech_attn := false
|}.

(** [ESPnetSTMDSampModel.__init__].  [check_argument_types()] and the
    assertions that [asr_decoder] and [src_token_list] are not [None] hold
    by the types of the arguments.  Of the constructors that it calls, that
    of the ASR error calculator (lines 145-147) can raise; the expressions
    evaluated before it have no effect, so that it is run here right after
    the two copies. *)
Definition __init__
    (a_vocab_size : Z) (a_token_list : str_seq)
    (a_frontend a_specaug a_normalize a_preencoder : option FeatsModule)
    (a_encoder a_encoder_mt : FeatsModule)
    (a_postencoder : option FeatsModule)
    (a_decoder : STDecoder) (a_asr_decoder : ASRDecoder) (a_ctc : CTC)
    (kw : init_kwargs) : result ESPnetSTMDSampModel :=
  (assert (lt_lt 0.0 (kw_asr_weight kw) 1.0) "asr_weight should be (0.0, 1.0)" ;;
   assert (le_lt 0.0 (kw_mt_weight kw) 1.0) "mt_weight should be [0.0, 1.0)" ;;
   assert (le_lt 0.0 (kw_mtlalpha kw) 1.0) "mtlalpha should be [0.0, 1.0)" ;;
   token_list_copy <- str_seq_copy a_token_list ;;
   src_token_list_copy <- str_seq_copy (kw_src_token_list kw) ;;
   calc_asr <-
      (if kw_report_cer kw || kw_report_wer kw
       then (calc <- new_ASRErrorCalculator imports
                       (items_of (kw_src_token_list kw))
                       (kw_sym_space kw) (kw_sym_blank kw)
                       (kw_report_cer kw) (kw_report_wer kw) ;;
             ok (Some calc))
       else ok None) ;;
   ok {|
     sos := a_vocab_size - 1;
     eos := a_vocab_size - 1;
     src_sos := kw_src_vocab_size kw - 1;
     src_eos := kw_src_vocab_size kw - 1;
     vocab_size := a_vocab_size;
     src_vocab_size := kw_src_vocab_size kw;
     ignore_id := kw_ignore_id kw;
     asr_weight := kw_asr_weight kw;
     mt_weight := kw_mt_weight kw;
     mtlalpha := kw_mtlalpha kw;
     ctc_sample_rate := kw_ctc_sample_rate kw;
     token_list := token_list_copy;
     src_token_list := src_token_list_copy;
     speech_attn := kw_speech_attn kw;
     frontend := a_frontend;
     specaug := a_specaug;
     normalize := a_normalize;
     preencoder := a_preencoder;
     postencoder := a_postencoder;
     encoder := a_encoder;
     encoder_mt := a_encoder_mt;
     decoder := a_decoder;
     criterion_st :=
       LabelSmoothingLoss imports a_vocab_size (kw_ignore_id kw)
         (kw_lsm_weight kw) (kw_length_normalized_loss kw);
     criterion_asr :=
       LabelSmoothingLoss imports (kw_src_vocab_size kw) (kw_ignore_id kw)
         (kw_lsm_weight kw) (kw_length_normalized_loss kw);
     ctc := if (0.0 <? kw_mtlalpha kw)%float then Some a_ctc else None;
     asr_decoder := a_asr_decoder;
     mt_error_calculator :=
       if kw_report_bleu kw
       then Some (new_MTErrorCalculator imports (items_of a_token_list)
                    (kw_sym_space kw) (kw_sym_blank kw) (kw_report_bleu kw))
       else None;
     asr_error_calculator := calc_asr;
     extract_feats_in_collect_stats := kw_extract_feats_in_collect_stats kw;
     training := true
   |})%result.

(** *** Tensor accessors used by the model *)

(** [x.shape[k]] and [x.size(k)] for [k >= 0] *)
Definition size (x : Tensor) (k : nat) : result Z :=
  match nth_error (shape x) k with
  | Some n => ok n
  | None => raise (IndexError "Dimension out of range")
  end.

(** [x.dim()] *)
Definition dim (x : Tensor) : Z := len (shape x).

(** [self.ctc]: the attribute may be missing. *)
Definition get_ctc (self : ESPnetSTMDSampModel) : result CTC :=
  match ctc self with
  | Some c => ok c
  | None => raise (AttributeError "ctc")
  end.

(** Reading a local variable that some path leaves unassigned. *)
Definition local {A} (name : string) (v : option A) : result A :=
  match v with
  | Some a => ok a
  | None => raise (UnboundLocalError name)
  end.

(** An optional sub-module applied when present (and [enabled]). *)
Definition apply_optional (m : option FeatsModule) (enabled : bool)
    (ev : Tensor -> list Z -> event) (feats : Tensor) (lens : list Z)
    : M (Tensor * list Z) :=
  match m with
  | Some f => if enabled then call (ev feats lens) (f feats lens)
              else ret (feats, lens)
  | None => ret (feats, lens)
  end.

(** *** [_extract_feats], [encode], [collect_feats] *)

Definition _extract_feats (self : ESPnetSTMDSampModel)
    (speech : Tensor) (speech_lengths : list Z) : M (Tensor * list Z) :=
  (lift (assert (LongTensor.dim1 speech_lengths =? 1)%Z "speech_lengths.shape") ;;
   n <- lift (LongTensor.max speech_lengths) ;;
   speech <- lift (slice_time speech n) ;;
   apply_optional (frontend self) true CallFrontend speech speech_lengths)%M.

Definition encode (self : ESPnetSTMDSampModel)
    (speech : Tensor) (speech_lengths : list Z) : M (Tensor * list Z) :=
  ('(feats, feats_lengths) <- _extract_feats self speech speech_lengths ;;
   '(feats, feats_lengths) <-
      apply_optional (specaug self) (training self) CallSpecaug
        feats feats_lengths ;;
   '(feats, feats_lengths) <-
      apply_optional (normalize self) true CallNormalize feats feats_lengths ;;
   '(feats, feats_lengths) <-
      apply_optional (preencoder self) true CallPreencoder feats feats_lengths ;;
   '(encoder_out, encoder_out_lens) <-
      call (CallEncoder feats feats_lengths)
        (encoder self feats feats_lengths) ;;
   '(encoder_out, encoder_out_lens) <-
      apply_optional (postencoder self) true CallPostencoder
        encoder_out encoder_out_lens ;;
   n0 <- lift (size encoder_out 0) ;;
   s0 <- lift (size speech 0) ;;
   lift (assert (n0 =? s0)%Z "encoder_out.size(), speech.size(0)") ;;
   n1 <- lift (size encoder_out 1) ;;
   m <- lift (LongTensor.max encoder_out_lens) ;;
   lift (assert (n1 <=? m)%Z "encoder_out.size(), encoder_out_lens.max()") ;;
   ret (encoder_out, encoder_out_lens))%M.

(** The modules that [encode] goes through, in its order: the optional
    ones when present, [specaug] in training mode only. *)
Definition stage (m : option FeatsModule) (enabled : bool) (c : callee)
    : list callee :=
  match m with
  | Some _ => if enabled then [c] else []
  | None => []
  end.

Definition encode_stages (self : ESPnetSTMDSampModel) : list callee :=
  stage (frontend self) true ModFrontend
  ++ stage (specaug self) (training self) ModSpecaug
  ++ stage (normalize self) true ModNormalize
  ++ stage (preencoder self) true ModPreencoder
  ++ [ModEncoder]
  ++ stage (postencoder self) true ModPostencoder.

(** [collect_feats] returns the dictionary [{"feats": feats,
    "feats_lengths": feats_lengths}]; a value is a float tensor or a tensor
    of lengths.  The warning that it logs is not modelled. *)
Definition collect_feats (self : ESPnetSTMDSampModel)
    (speech : Tensor) (speech_lengths : list Z)
    (text : list (list Z)) (text_lengths : list Z)
    (src_text : option (list (list Z))) (src_text_lengths : option (list Z))
    : M (list (string * (Tensor + list Z))) :=
  ('(feats, feats_lengths) <-
      (if extract_feats_in_collect_stats self
       then _extract_feats self speech speech_lengths
       else ret (speech, speech_lengths)) ;;
   ret [("feats", inl feats); ("feats_lengths", inr feats_lengths)]%string)%M.

(** *** The three partial losses *)

Definition _calc_mt_att_loss (self : ESPnetSTMDSampModel)
    (encoder_out : Tensor) (encoder_out_lens : list Z)
    (ys_pad : list (list Z)) (ys_pad_lens : list Z)
    (speech : Tensor) (speech_lens : list Z)
    : M (Tensor * float * option float) :=
  ('(ys_in_pad, ys_out_pad) <-
      lift (add_sos_eos imports ys_pad (sos self) (eos self) (ignore_id self)) ;;
   let ys_in_lens := LongTensor.add_scalar ys_pad_lens 1 in
   decoder_out <-
      (let extra := if speech_attn self then Some (speech, speech_lens)
                    else None in
       call (CallDecoder encoder_out encoder_out_lens ys_in_pad ys_in_lens extra)
         (decoder self encoder_out encoder_out_lens ys_in_pad ys_in_lens extra)) ;;
   loss_att <-
      call (CallCriterionSt decoder_out ys_out_pad)
        (criterion_st self decoder_out ys_out_pad) ;;
   flat <- lift (view2 decoder_out (vocab_size self)) ;;
   acc_att <- lift (th_accuracy imports flat ys_out_pad (ignore_id self)) ;;
   bleu_att <-
      match mt_error_calculator self with
      | Some calc =>
          if training self then ret None
          else (ys_hat <- lift (argmax_last decoder_out) ;;
                call (CallMtErrorCalculator ys_hat ys_pad) (calc ys_hat ys_pad))
      | None => ret None
      end ;;
   ret (loss_att, acc_att, bleu_att))%M.

Definition _calc_asr_att_loss (self : ESPnetSTMDSampModel)
    (encoder_out : Tensor) (encoder_out_lens : list Z)
    (ys_pad : list (list Z)) (ys_pad_lens : list Z)
    : M (Tensor * float * option float * option float * Tensor) :=
  ('(ys_in_pad, ys_out_pad) <-
      lift (add_sos_eos imports ys_pad (src_sos self) (src_eos self)
              (ignore_id self)) ;;
   let ys_in_lens := LongTensor.add_scalar ys_pad_lens 1 in
   '(decoder_out, hs_dec_asr) <-
      call (CallAsrDecoder encoder_out encoder_out_lens ys_in_pad ys_in_lens)
        (asr_decoder self encoder_out encoder_out_lens ys_in_pad ys_in_lens) ;;
   loss_att <-
      call (CallCriterionAsr decoder_out ys_out_pad)
        (criterion_asr self decoder_out ys_out_pad) ;;
   flat <- lift (view2 decoder_out (src_vocab_size self)) ;;
   acc_att <- lift (th_accuracy imports flat ys_out_pad (ignore_id self)) ;;
   '(cer_att, wer_att) <-
      match asr_error_calculator self with
      | Some calc =>
          if training self then ret (None, None)
          else (ys_hat <- lift (argmax_last decoder_out) ;;
                call (CallAsrErrorCalculator ys_hat ys_pad false)
                  (asr_cer_wer calc ys_hat ys_pad))
      | None => ret (None, None)
      end ;;
   ret (loss_att, acc_att, cer_att, wer_att, hs_dec_asr))%M.

Definition _calc_ctc_loss (self : ESPnetSTMDSampModel)
    (encoder_out : Tensor) (encoder_out_lens : list Z)
    (ys_pad : list (list Z)) (ys_pad_lens : list Z)
    : M (Tensor * option float) :=
  (c <- lift (get_ctc self) ;;
   loss_ctc <-
      call (CallCtc encoder_out encoder_out_lens ys_pad ys_pad_lens)
        (ctc_loss c encoder_out encoder_out_lens ys_pad ys_pad_lens) ;;
   cer_ctc <-
      match asr_error_calculator self with
      | Some calc =>
          if negb (training self)
          then (c <- lift (get_ctc self) ;;
                ys_hat <- call (CallCtcArgmax encoder_out)
                            (ctc_argmax c encoder_out) ;;
                call (CallAsrErrorCalculator ys_hat ys_pad true)
                  (asr_cer_ctc calc ys_hat ys_pad))
          else ret None
      | None => ret None
      end ;;
   ret (loss_ctc, cer_ctc))%M.

(** The tests of lines 439 and 459, and of line 407, negated: the error
    rates, and the BLEU score, are computed in evaluation mode by a model
    that has the calculator. *)
Definition reports_asr (self : ESPnetSTMDSampModel) : bool :=
  negb (training self)
  && match asr_error_calculator self with Some _ => true | None => false end.

Definition reports_mt (self : ESPnetSTMDSampModel) : bool :=
  negb (training self)
  && match mt_error_calculator self with Some _ => true | None => false end.

(** *** [force_gatherable] *)

(** Modelled from the spec: [force_gatherable] of
    [espnet2.torch_utils.device_funcs] is not among the sources; the call
    site documents it as "to-device and to-tensor if scalar for
    DataParallel".  A tensor of rank 0 becomes a tensor of one element, a
    Python float or int becomes a one-element tensor, [None] stays [None];
    tuples and dictionaries are mapped component by component. *)
Definition gather_tensor (t : Tensor) : Tensor :=
  if (dim t =? 0)%Z then unsqueeze0 t else t.

Definition gather_value (v : pyval) : result pyval :=
  match v with
  | PyTensor t => ok (PyTensor (gather_tensor t))
  | PyFloat a => ok (PyTensor (tensor_of_float a))
  | PyInt z =>
      if ((- 2 ^ 63 <=? z) && (z <? 2 ^ 63))%Z then ok (PyLong [z])
      else raise (RuntimeError "Overflow when unpacking long")
  | PyLong l => ok (PyLong l)
  | PyNone => ok PyNone
  end.

(** What becomes of a metric, a float or [None]. *)
Definition gathered_metric (o : option float) : pyval :=
  match o with
  | Some a => PyTensor (tensor_of_float a)
  | None => PyNone
  end.

Fixpoint gather_dict (d : list (string * pyval))
    : result (list (string * pyval)) :=
  match d with
  | [] => ok []
  | (k, v) :: rest =>
      (v' <- gather_value v ;;
       rest' <- gather_dict rest ;;
       ok ((k, v') :: rest'))%result
  end.

Definition force_gatherable
    (data : pyval * list (string * pyval) * pyval)
    : result (pyval * list (string * pyval) * pyval) :=
  (let '(loss, stats, weight) := data in
   loss' <- gather_value loss ;;
   stats' <- gather_dict stats ;;
   weight' <- gather_value weight ;;
   ok (loss', stats', weight'))%result.

(** *** [forward]

    The body of [forward] is cut at its numbered comments into blocks; the
    line numbers are those of the source file.  [u] is the value that
    [random.uniform(0, 1)] returns in this pass, and [sampling] the test
    [self.training and do_ctc_sample]. *)

(** Lines 172-195: the assertions on the batch and the cut to the longest
    sequence.  Returns [batch_size], [text], [src_text], [src_text_lengths]. *)
Definition check_inputs
    (speech : Tensor) (speech_lengths : list Z)
    (text : list (list Z)) (text_lengths : list Z)
    (src_text : option (list (list Z))) (src_text_lengths : option (list Z))
    : result (Z * list (list Z) * list (list Z) * list Z) :=
  (assert (LongTensor.dim1 text_lengths =? 1)%Z "text_lengths.shape" ;;
   b <- size speech 0 ;;
   assert ((b =? len speech_lengths)%Z
           && (len speech_lengths =? len text)%Z
           && (len text =? len text_lengths)%Z)
     "speech.shape, speech_lengths.shape, text.shape, text_lengths.shape" ;;
   src_text <-
      match src_text with
      | Some t => ok t
      | None => raise (AssertionError
                         "missing source text for asr sub-task of ST")
      end ;;
   src_text_lengths <-
      match src_text_lengths with
      | Some l => ok l
      | None => raise (AttributeError "dim")
      end ;;
   assert (LongTensor.dim1 src_text_lengths =? 1)%Z "src_text_lengths.shape" ;;
   assert ((len text =? len src_text)%Z
           && (len src_text =? len src_text_lengths)%Z)
     "text.shape, src_text.shape, src_text_lengths.shape" ;;
   batch_size <- size speech 0 ;;
   n <- LongTensor.max text_lengths ;;
   let text := LongTensor.slice_cols text n in
   n <- LongTensor.max src_text_lengths ;;
   let src_text := LongTensor.slice_cols src_text n in
   ok (batch_size, text, src_text, src_text_lengths))%result.

(** Lines 201-231: the ASR attention decoder, on the sampled transcript or
    on the reference.  Returns [loss_asr_att], [acc_asr_att], [cer_asr_att],
    [wer_asr_att], [hs_dec_asr] and the local [ys_hat_lens], which only the
    sampling branch binds. *)
Definition asr_branch (self : ESPnetSTMDSampModel) (sampling : bool)
    (encoder_out : Tensor) (encoder_out_lens : list Z)
    (src_text : list (list Z)) (src_text_lengths : list Z)
    : M (Tensor * pyval * pyval * pyval * Tensor * option (list Z)) :=
  (if sampling
   then
     (c <- lift (get_ctc self) ;;
      ys_hat <- call (CallCtcArgmax encoder_out) (ctc_argmax c encoder_out) ;;
      '(ys_hat, ys_hat_lens) <- lift (CtcSample.sample ys_hat src_text) ;;
      '(loss_asr_att, _, _, _, hs_dec_asr) <-
         _calc_asr_att_loss self encoder_out encoder_out_lens
           ys_hat ys_hat_lens ;;
      ret (loss_asr_att, PyNone, PyNone, PyNone, hs_dec_asr,
           Some ys_hat_lens))
   else
     ('(loss_asr_att, acc_asr_att, cer_asr_att, wer_asr_att, hs_dec_asr) <-
         _calc_asr_att_loss self encoder_out encoder_out_lens
           src_text src_text_lengths ;;
      ret (loss_asr_att, PyFloat acc_asr_att, of_option_float cer_asr_att,
           of_option_float wer_asr_att, hs_dec_asr, None)))%M.

(** Lines 233-239: the CTC branch.  Returns [loss_asr_ctc], [cer_asr_ctc]. *)
Definition ctc_branch (self : ESPnetSTMDSampModel)
    (encoder_out : Tensor) (encoder_out_lens : list Z)
    (src_text : list (list Z)) (src_text_lengths : list Z)
    : M (pyval * pyval) :=
  (if (0.0 <? mtlalpha self)%float
   then
     ('(loss_asr_ctc, cer_asr_ctc) <-
         _calc_ctc_loss self encoder_out encoder_out_lens
           src_text src_text_lengths ;;
      ret (PyTensor loss_asr_ctc, of_option_float cer_asr_ctc))
   else ret (PyInt 0, PyNone))%M.

(** Lines 241-246: the MT encoder on the hidden states of the ASR decoder. *)
Definition mt_encoder_branch (self : ESPnetSTMDSampModel) (sampling : bool)
    (hs_dec_asr : Tensor) (ys_hat_lens : option (list Z))
    (src_text_lengths : list Z) : M (Tensor * list Z) :=
  (dec_asr_lengths <-
      (if sampling
       then (l <- lift (local "ys_hat_lens" ys_hat_lens) ;;
             ret (LongTensor.add_scalar l 1))
       else ret (LongTensor.add_scalar src_text_lengths 1)) ;;
   call (CallEncoderMt hs_dec_asr dec_asr_lengths)
     (encoder_mt self hs_dec_asr dec_asr_lengths))%M.

(** Lines 248-250: the locals [speech_out] and [speech_lens] are assigned
    under [speech_attn] only. *)
Definition bind_speech_out (self : ESPnetSTMDSampModel)
    (encoder_out : Tensor) (encoder_out_lens : list Z)
    : option Tensor * option (list Z) :=
  if speech_attn self then (Some encoder_out, Some encoder_out_lens)
  else (None, None).

(** Lines 252-254: the call that computes the ST attention loss; its
    arguments are evaluated from left to right. *)
Definition st_call (self : ESPnetSTMDSampModel)
    (encoder_mt_out : Tensor) (encoder_mt_out_lens : list Z)
    (text : list (list Z)) (text_lengths : list Z)
    (speech_out : option Tensor) (speech_lens : option (list Z))
    : M (Tensor * float * option float) :=
  (speech_out <- lift (local "speech_out" speech_out) ;;
   speech_lens <- lift (local "speech_lens" speech_lens) ;;
   _calc_mt_att_loss self encoder_mt_out encoder_mt_out_lens
     text text_lengths speech_out speech_lens)%M.

(** Lines 257-260 *)
Definition asr_ctc_weight (self : ESPnetSTMDSampModel) (sampling : bool)
    : float :=
  if sampling then 1.0%float else mtlalpha self.

(** Lines 261-271: [loss_asr] and [loss]. *)
Definition loss_computation (self : ESPnetSTMDSampModel) (sampling : bool)
    (loss_st_att loss_asr_att : Tensor) (loss_asr_ctc : pyval)
    : result (pyval * pyval) :=
  (let asr_ctc_weight := asr_ctc_weight self sampling in
   let loss_st := loss_st_att in
   loss_asr <-
      (if (asr_ctc_weight =? 0.0)%float
       then ok (PyTensor loss_asr_att)
       else (a <- py_mul (PyFloat asr_ctc_weight) loss_asr_ctc ;;
             w' <- py_sub (PyInt 1) (PyFloat asr_ctc_weight) ;;
             b <- py_mul w' (PyTensor loss_asr_att) ;;
             py_add a b)) ;;
   w' <- py_sub (PyInt 1) (PyFloat (asr_weight self)) ;;
   a <- py_mul w' (PyTensor loss_st) ;;
   b <- py_mul (PyFloat (asr_weight self)) loss_asr ;;
   loss <- py_add a b ;;
   ok (loss_asr, loss))%result.

(** Lines 273-283: the dictionary of statistics, in insertion order. *)
Definition make_stats (loss loss_asr : pyval) (loss_st : Tensor)
    (acc_asr_att : pyval) (acc_st_att : float)
    (cer_asr_ctc cer_asr_att wer_asr_att : pyval)
    (bleu_st_att : option float) : result (list (string * pyval)) :=
  (s_loss <- py_detach loss ;;
   s_loss_asr <- (if negb (type_is_float loss_asr)
                  then py_detach loss_asr else ok loss_asr) ;;
   s_loss_st <- (if negb (type_is_float loss_asr)
                 then py_detach (PyTensor loss_st) else ok loss_asr) ;;
   ok [("loss", s_loss);
       ("loss_asr", s_loss_asr);
       ("loss_st", s_loss_st);
       ("acc_asr", acc_asr_att);
       ("acc", PyFloat acc_st_att);
       ("cer_ctc", cer_asr_ctc);
       ("cer", cer_asr_att);
       ("wer", wer_asr_att);
       ("bleu", of_option_float bleu_st_att)]%string)%result.

(** What [forward] has in its locals when it reaches line 248. *)
Record asr_pass_locals : Type := mkLocals {
  l_batch_size : Z;
  l_text : list (list Z);
  l_src_text : list (list Z);
  l_src_text_lengths : list Z;
  l_encoder_out : Tensor;
  l_encoder_out_lens : list Z;
  l_loss_asr_att : Tensor;
  l_acc_asr_att : pyval;
  l_cer_asr_att : pyval;
  l_wer_asr_att : pyval;
  l_hs_dec_asr : Tensor;
  l_ys_hat_lens : option (list Z);
  l_loss_asr_ctc : pyval;
  l_cer_asr_ctc : pyval;
  l_encoder_mt_out : Tensor;
  l_encoder_mt_out_lens : list Z
}.

(** Lines 172-246 of [forward]. *)
Definition asr_pass (self : ESPnetSTMDSampModel) (u : float)
    (speech : Tensor) (speech_lengths : list Z)
    (text : list (list Z)) (text_lengths : list Z)
    (src_text : option (list (list Z))) (src_text_lengths : option (list Z))
    : M asr_pass_locals :=
  ('(batch_size, text, src_text, src_text_lengths) <-
      lift (check_inputs speech speech_lengths text text_lengths
              src_text src_text_lengths) ;;
   (* 1. Encoder *)
   '(encoder_out, encoder_out_lens) <- encode self speech speech_lengths ;;
   let do_ctc_sample := (u <? ctc_sample_rate self)%float in
   (* 2a. ASR Decoder *)
   '(loss_asr_att, acc_asr_att, cer_asr_att, wer_asr_att, hs_dec_asr,
     ys_hat_lens) <-
      asr_branch self (training self && do_ctc_sample)
        encoder_out encoder_out_lens src_text src_text_lengths ;;
   (* 2b. CTC branch *)
   '(loss_asr_ctc, cer_asr_ctc) <-
      ctc_branch self encoder_out encoder_out_lens src_text src_text_lengths ;;
   (* 3a. MT Encoder *)
   '(encoder_mt_out, encoder_mt_out_lens) <-
      mt_encoder_branch self (training self && do_ctc_sample)
        hs_dec_asr ys_hat_lens src_text_lengths ;;
   ret (mkLocals batch_size text src_text src_text_lengths
          encoder_out encoder_out_lens
          loss_asr_att acc_asr_att cer_asr_att wer_asr_att hs_dec_asr
          ys_hat_lens loss_asr_ctc cer_asr_ctc
          encoder_mt_out encoder_mt_out_lens))%M.

(** Lines 248-287 of [forward], from the locals of the first part. *)
Definition st_pass (self : ESPnetSTMDSampModel) (u : float)
    (text_lengths : list Z) (l : asr_pass_locals)
    : M (pyval * list (string * pyval) * pyval) :=
  (let do_ctc_sample := (u <? ctc_sample_rate self)%float in
   let '(speech_out, speech_lens) :=
     bind_speech_out self (l_encoder_out l) (l_encoder_out_lens l) in
   (* 2a. Attention-decoder branch (ST) *)
   '(loss_st_att, acc_st_att, bleu_st_att) <-
      st_call self (l_encoder_mt_out l) (l_encoder_mt_out_lens l)
        (l_text l) text_lengths speech_out speech_lens ;;
   (* 3. Loss computation *)
   '(loss_asr, loss) <-
      lift (loss_computation self (training self && do_ctc_sample)
              loss_st_att (l_loss_asr_att l) (l_loss_asr_ctc l)) ;;
   stats <-
      lift (make_stats loss loss_asr loss_st_att (l_acc_asr_att l) acc_st_att
              (l_cer_asr_ctc l) (l_cer_asr_att l) (l_wer_asr_att l)
              bleu_st_att) ;;
   (* force_gatherable: to-device and to-tensor if scalar for DataParallel *)
   lift (py_device loss) ;;
   lift (force_gatherable (loss, stats, PyInt (l_batch_size l))))%M.

Definition forward (self : ESPnetSTMDSampModel) (u : float)
    (speech : Tensor) (speech_lengths : list Z)
    (text : list (list Z)) (text_lengths : list Z)
    (src_text : option (list (list Z))) (src_text_lengths : option (list Z))
    : M (pyval * list (string * pyval) * pyval) :=
  (l <- asr_pass self u speech speech_lengths text text_lengths
          src_text src_text_lengths ;;
   st_pass self u text_lengths l)%M.

(** [model.eval()] and [model.train()] *)
Definition set_training (b : bool) (self : ESPnetSTMDSampModel)
    : ESPnetSTMDSampModel :=
  mkModel (sos self) (eos self) (src_sos self) (src_eos self)
    (vocab_size self) (src_vocab_size self) (ignore_id self)
    (asr_weight self) (mt_weight self) (mtlalpha self)
    (ctc_sample_rate self) (token_list self) (src_token_list self)
    (speech_attn self) (frontend self) (specaug self) (normalize self)
    (preencoder self) (postencoder self) (encoder self) (encoder_mt self)
    (decoder self) (criterion_st self) (criterion_asr self) (ctc self)
    (asr_decoder self) (mt_error_calculator self)
    (asr_error_calculator self) (extract_feats_in_collect_stats self) b.

(** [model.mt_weight = w] *)
Definition set_mt_weight (w : float) (self : ESPnetSTMDSampModel)
    : ESPnetSTMDSampModel :=
  mkModel (sos self) (eos self) (src_sos self) (src_eos self)
    (vocab_size self) (src_vocab_size self) (ignore_id self)
    (asr_weight self) w (mtlalpha self)
    (ctc_sample_rate self) (token_list self) (src_token_list self)
    (speech_attn self) (frontend self) (specaug self) (normalize self)
    (preencoder self) (postencoder self) (encoder self) (encoder_mt self)
    (decoder self) (criterion_st self) (criterion_asr self) (ctc self)
    (asr_decoder self) (mt_error_calculator self)
    (asr_error_calculator self) (extract_feats_in_collect_stats self)
    (training self).

(** The keyword arguments [kw] with [mt_weight=w]. *)
Definition set_kw_mt_weight (w : float) (kw : init_kwargs) : init_kwargs :=
  mkKwargs (kw_src_vocab_size kw) (kw_src_token_list kw) (kw_asr_weight kw)
    w (kw_mtlalpha kw) (kw_ctc_sample_rate kw) (kw_ignore_id kw)
    (kw_lsm_weight kw) (kw_length_normalized_loss kw) (kw_report_cer kw)
    (kw_report_wer kw) (kw_report_bleu kw) (kw_sym_space kw)
    (kw_sym_blank kw) (kw_extract_feats_in_collect_stats kw)
    (kw_speech_attn kw).

(** The objects that a program can hold: built by [__init__], then put in
    training or evaluation mode. *)
Definition instance_of (self : ESPnetSTMDSampModel) : Prop :=
  exists (a_vocab_size : Z) (a_token_list : str_seq)
         (a_frontend a_specaug a_normalize a_preencoder : option FeatsModule)
         (a_encoder a_encoder_mt : FeatsModule)
         (a_postencoder : option FeatsModule)
         (a_decoder : STDecoder) (a_asr_decoder : ASRDecoder) (a_ctc : CTC)
         (kw : init_kwargs) (built : ESPnetSTMDSampModel) (mode : bool),
    __init__ a_vocab_size a_token_list a_frontend a_specaug a_normalize
      a_preencoder a_encoder a_encoder_mt a_postencoder a_decoder
      a_asr_decoder a_ctc kw = ok built /\
    self = set_training mode built.

End Model.

End STMDSamp.

(** ** A small implementation of the interfaces

    Dense tensors in row-major order and hand-sized sub-modules, so that the
    model can be run on concrete batches. *)

Module Reference.

Import STMDSamp.

Record tensor : Type := mkT {
  t_shape : list Z;
  t_data : list float;
  t_grad : bool
}.

Definition numel (sh : list Z) : Z := fold_right Z.mul 1%Z sh.

Fixpoint chunks_fuel {A} (fuel k : nat) (l : list A) : list (list A) :=
  match fuel with
  | O => []
  | S fuel' =>
      match l with
      | [] => []
      | _ => firstn k l :: chunks_fuel fuel' k (skipn k l)
      end
  end.

(** [l] cut into consecutive pieces of [k] elements. *)
Definition chunks {A} (k : nat) (l : list A) : list (list A) :=
  chunks_fuel (length l) k l.

(** [x[:, :n]] for a tensor of rank 2 or more. *)
Definition t_slice_time (x : tensor) (n : Z) : result tensor :=
  match t_shape x with
  | b :: t :: rest =>
      let t' := Z.min t (if (n <? 0)%Z then Z.max 0 (t + n) else n) in
      let inner := Z.to_nat (numel rest) in
      ok {| t_shape := b :: t' :: rest;
            t_data := concat (map (firstn (Z.to_nat t' * inner))
                                (chunks (Z.to_nat t * inner) (t_data x)));
            t_grad := t_grad x |}
  | _ => raise (IndexError "too many indices for tensor")
  end.

(** [x.view(-1, n)] *)
Definition t_view2 (x : tensor) (n : Z) : result tensor :=
  let total := numel (t_shape x) in
  if ((0 <? n) && (total mod n =? 0))%Z
  then ok {| t_shape := [total / n; n]%Z;
             t_data := t_data x;
             t_grad := t_grad x |}
  else raise (RuntimeError "shape is invalid for input size").

(** Position of the first largest element. *)
Fixpoint argmax_from (best : float) (best_i i : Z) (l : list float) : Z :=
  match l with
  | [] => best_i
  | a :: rest =>
      if (best <? a)%float then argmax_from a i (i + 1)%Z rest
      else argmax_from best best_i (i + 1)%Z rest
  end.

Definition argmax (l : list float) : Z :=
  match l with
  | [] => 0%Z
  | a :: rest => argmax_from a 0%Z 1%Z rest
  end.

(** [x.argmax(dim=-1)] for a tensor of rank 3. *)
Definition t_argmax_last (x : tensor) : result (list (list Z)) :=
  match t_shape x with
  | [_; t; v] =>
      ok (chunks (Z.to_nat t) (map argmax (chunks (Z.to_nat v) (t_data x))))
  | _ => raise (RuntimeError "expected a tensor of rank 3")
  end.

Definition t_rmul (a : float) (x : tensor) : tensor :=
  {| t_shape := t_shape x;
     t_data := map (fun v => (a * v)%float) (t_data x);
     t_grad := t_grad x |}.

Definition t_radd (a : float) (x : tensor) : tensor :=
  {| t_shape := t_shape x;
     t_data := map (fun v => (a + v)%float) (t_data x);
     t_grad := t_grad x |}.

(** [x + y] for tensors of one shape. *)
Definition t_add (x y : tensor) : tensor :=
  {| t_shape := t_shape x;
     t_data := map (fun vw => (fst vw + snd vw)%float)
                 (combine (t_data x) (t_data y));
     t_grad := t_grad x || t_grad y |}.

Definition t_detach (x : tensor) : tensor :=
  {| t_shape := t_shape x; t_data := t_data x; t_grad := false |}.

Definition t_unsqueeze0 (x : tensor) : tensor :=
  {| t_shape := 1%Z :: t_shape x; t_data := t_data x; t_grad := t_grad x |}.

Definition t_of_float (a : float) : tensor :=
  {| t_shape := [1%Z]; t_data := [a]; t_grad := false |}.

#[export] Instance dense : Torch := {|
  Tensor := tensor;
  shape := t_shape;
  slice_time := t_slice_time;
  view2 := t_view2;
  argmax_last := t_argmax_last;
  rmul := t_rmul;
  radd := t_radd;
  tadd := t_add;
  detach := t_detach;
  requires_grad := t_grad;
  unsqueeze0 := t_unsqueeze0;
  tensor_of_float := t_of_float;
  requires_grad_detach := fun _ => eq_refl;
  requires_grad_unsqueeze0 := fun _ => eq_refl;
  requires_grad_tensor_of_float := fun _ => eq_refl
|}.

(** A scalar that is attached to the autograd graph. *)
Definition scalar (a : float) : tensor :=
  {| t_shape := []; t_data := [a]; t_grad := true |}.

(** [add_sos_eos]: the padding is removed, [sos] goes in front of the
    decoder input and [eos] behind the target; the input is padded with
    [eos], the target with [ignore_id]. *)
Definition ref_add_sos_eos (ys_pad : list (list Z)) (sos eos ignore_id : Z)
    : result (list (list Z) * list (list Z)) :=
  let ys := map (filter (fun y => negb (y =? ignore_id)%Z)) ys_pad in
  let ys_in := map (fun y => sos :: y) ys in
  let ys_out := map (fun y => y ++ [eos]) ys in
  ok (map (LongTensor.pad_to (LongTensor.max_len ys_in) eos) ys_in,
      map (LongTensor.pad_to (LongTensor.max_len ys_out) ignore_id) ys_out).

(** Scores that put all the weight on the input token, [vocab] wide. *)
Definition one_hot (vocab : Z) (y : Z) : list float :=
  map (fun v => if (Z.of_nat v =? y)%Z then 1.0%float else 0.0%float)
    (seq 0 (Z.to_nat vocab)).

Definition one_hot_scores (vocab : Z) (ys_in_pad : list (list Z)) : tensor :=
  {| t_shape := [len ys_in_pad; len (hd [] ys_in_pad); vocab];
     t_data := concat (map (one_hot vocab) (concat ys_in_pad));
     t_grad := true |}.

Definition ref_asr_decoder (vocab : Z) : ASRDecoder :=
  fun hs hlens ys_in_pad ys_in_lens =>
    ok (one_hot_scores vocab ys_in_pad, one_hot_scores vocab ys_in_pad).

Definition ref_decoder (vocab : Z) : STDecoder :=
  fun hs hlens ys_in_pad ys_in_lens speech =>
    ok (one_hot_scores vocab ys_in_pad).

Definition ref_feats : FeatsModule := fun feats lens => ok (feats, lens).

(** A criterion: the number of target positions that are not padding. *)
Definition ref_criterion (size padding_idx : Z) (smoothing : float)
    (normalize_length : bool) : Criterion :=
  fun decoder_out ys_out_pad =>
    ok (scalar (float_of_Z
                  (len (filter (fun y => negb (y =? padding_idx)%Z)
                          (concat ys_out_pad))))).

Definition ref_ctc : CTC := {|
  ctc_loss := fun hs hlens ys_pad ys_lens =>
                ok (scalar (float_of_Z (fold_left Z.add ys_lens 0%Z)));
  ctc_argmax := fun hs => t_argmax_last hs
|}.

Definition ref_imports : Imports := {|
  add_sos_eos := ref_add_sos_eos;
  th_accuracy := fun _ _ _ => ok 1.0%float;
  LabelSmoothingLoss := ref_criterion;
  new_MTErrorCalculator := fun _ _ _ _ => fun _ _ => ok (Some 0.0%float);
  new_ASRErrorCalculator := fun toks _ blank _ _ =>
    if existsb (String.eqb blank) toks
    then ok {| asr_cer_wer := fun _ _ => ok (Some 0.0%float, Some 0.0%float);
               asr_cer_ctc := fun _ _ => ok (Some 0.0%float) |}
    else raise (ValueError "sym_blank is not in list")
|}.

(** The keyword arguments of the runs below: the defaults, except for the
    weights and [speech_attn]. *)
Definition kwargs (asr_w mt_w alpha rate : float) (attn : bool)
    : init_kwargs :=
  mkKwargs 4 (StrList ["<blank>"; "a"; "b"; "<sos/eos>"]%string)
    asr_w mt_w alpha rate (-1) 0.0%float false true true true
    "<space>" "<blank>" true attn.

Definition new_model (kw : init_kwargs) : result ESPnetSTMDSampModel :=
  __init__ ref_imports 4 (StrList ["<blank>"; "x"; "y"; "<sos/eos>"]%string)
    None None None None ref_feats ref_feats None
    (ref_decoder 4) (ref_asr_decoder 4) ref_ctc kw.

(** A batch of two utterances of three frames over three classes.  The
    greedy CTC path is [1 1 0] for the first and [0 0 0] for the second. *)
Definition speech : tensor :=
  {| t_shape := [2; 3; 3]%Z;
     t_data := [0.0; 1.0; 0.0;  0.0; 1.0; 0.0;  1.0; 0.0; 0.0;
                1.0; 0.0; 0.0;  1.0; 0.0; 0.0;  1.0; 0.0; 0.0]%float;
     t_grad := false |}.
Definition speech_lengths : list Z := [3; 3]%Z.
Definition text : list (list Z) := [[1; 2]; [1; -1]]%Z.
Definition text_lengths : list Z := [2; 1]%Z.
Definition src_text : list (list Z) := [[2; 1]; [2; -1]]%Z.
Definition src_text_lengths : list Z := [2; 1]%Z.

(** The result of a computation that returned. *)
Definition value_of {A} (default : A) (r : result A) : A :=
  match r with
  | inr a => a
  | inl _ => default
  end.

(** The instance that [new_model] builds from [kwargs asr_w mt_w alpha rate
    attn], in training or evaluation mode. *)
Definition instance (asr_w mt_w alpha rate : float) (attn mode : bool)
    : ESPnetSTMDSampModel :=
  mkModel 3 3 3 3 4 4 (-1) asr_w mt_w alpha rate
    ["<blank>"; "x"; "y"; "<sos/eos>"]%string
    ["<blank>"; "a"; "b"; "<sos/eos>"]%string
    attn None None None None None ref_feats ref_feats (ref_decoder 4)
    (ref_criterion 4 (-1) 0.0%float false)
    (ref_criterion 4 (-1) 0.0%float false)
    (if (0.0 <? alpha)%float then Some ref_ctc else None)
    (ref_asr_decoder 4)
    (Some (fun _ _ => ok (Some 0.0%float)))
    (Some {| asr_cer_wer := fun _ _ => ok (Some 0.0%float, Some 0.0%float);
             asr_cer_ctc := fun _ _ => ok (Some 0.0%float) |})
    true mode.

(** [forward] on the batch above. *)
Definition pass (self : ESPnetSTMDSampModel) (u : float)
    : result (pyval * list (string * pyval) * pyval * list event) :=
  run (forward ref_imports self u speech speech_lengths text text_lengths
         (Some src_text) (Some src_text_lengths)).

(** Training mode, [asr_weight = 0.25], [mtlalpha = 0.5],
    [ctc_sample_rate = 0.5], [speech_attn] set. *)
Definition trained : ESPnetSTMDSampModel :=
  instance 0.25 0.0 0.5 0.5 true true.

(** A pass whose draw is below the sampling rate, and one above it. *)
Definition sampled : pyval * list (string * pyval) * pyval * list event :=
  Eval vm_compute in value_of (PyNone, [], PyNone, []) (pass trained 0.25).

Definition forced : pyval * list (string * pyval) * pyval * list event :=
  Eval vm_compute in value_of (PyNone, [], PyNone, []) (pass trained 0.75).

(** The same without CTC: [mtlalpha = 0.0]. *)
Definition plain : pyval * list (string * pyval) * pyval * list event :=
  Eval vm_compute in
    value_of (PyNone, [], PyNone, [])
      (pass (instance 0.25 0.0 0.0 0.5 true true) 0.75).

(** [_calc_mt_att_loss] alone, on a model without [speech_attn]. *)
Definition st_loss_plain : tensor * float * option float * list event :=
  Eval vm_compute in
    value_of (scalar 0.0%float, 0.0%float, None, [])
      (_calc_mt_att_loss ref_imports (instance 0.25 0.0 0.5 0.5 false true)
         speech speech_lengths text text_lengths speech speech_lengths []).

(** [trained] put in evaluation mode, and a pass of it. *)
Definition evaluating : ESPnetSTMDSampModel :=
  instance 0.25 0.0 0.5 0.5 true false.

Definition evaluated : pyval * list (string * pyval) * pyval * list event :=
  Eval vm_compute in
    value_of (PyNone, [], PyNone, []) (pass evaluating 0.25).

(** A translation that is padded beyond its longest length. *)
Definition text_padded : list (list Z) := [[1; 2; -1]; [1; -1; -1]]%Z.

(** The sampling branch alone, on the speech features as encoder output. *)
Definition sampled_branch
    : tensor * pyval * pyval * pyval * tensor * option (list Z) * list event :=
  Eval vm_compute in
    value_of (scalar 0.0, PyNone, PyNone, PyNone, scalar 0.0, None, [])
      (asr_branch ref_imports trained true speech speech_lengths
         src_text src_text_lengths []).

End Reference.

(** * Properties *)

(** ** Fallible computations *)

Lemma rbind_ok {A B} (c : result A) (k : A -> result B) (b : B) :
  rbind c k = inr b -> exists a, c = inr a /\ k a = inr b.
Proof.
  destruct c as [e | a]; simpl; intros H; [discriminate | eauto].
Qed.

Lemma assert_ok (cond : bool) (msg : string) (u : unit) :
  assert cond msg = inr u -> cond = true.
Proof.
  destruct cond; simpl; [reflexivity | discriminate].
Qed.

(** ** Python floats *)

Lemma float_of_int_0 : float_of_int 0 = ok 0.0%float.
Proof. vm_compute. reflexivity. Qed.

Lemma float_of_int_1 : float_of_int 1 = ok 1.0%float.
Proof. vm_compute. reflexivity. Qed.

(** [0.0 <= x] and [x != 0.0] give [x > 0]. *)
Lemma float_pos_of_le_ne (x : float) :
  (0.0 <=? x)%float = true -> (x =? 0.0)%float = false ->
  (0.0 <? x)%float = true.
Proof.
  rewrite leb_spec, eqb_spec, ltb_spec.
  change (Prim2SF 0.0) with (S754_zero false).
  destruct (Prim2SF x) as [sx | sx | | sx m e]; simpl; try discriminate;
    destruct sx; simpl; try discriminate; auto.
Qed.

(** [x == 0.0] excludes [x > 0]. *)
Lemma float_not_pos_of_zero (x : float) :
  (x =? 0.0)%float = true -> (0.0 <? x)%float = false.
Proof.
  rewrite eqb_spec, ltb_spec.
  change (Prim2SF 0.0) with (S754_zero false).
  destruct (Prim2SF x) as [sx | sx | | sx m e]; simpl; try discriminate;
    destruct sx; simpl; try discriminate; auto.
Qed.

(** ** The token-classification head *)

(** ** Lengths *)

Lemma wrap64_small (z : Z) :
  (- 2 ^ 63 <= z < 2 ^ 63)%Z -> LongTensor.wrap64 z = z.
Proof.
  intros H. unfold LongTensor.wrap64.
  rewrite Z.mod_small by lia. lia.
Qed.

(** [lens + 1] within the range of [long]. *)
Lemma succ_lengths_small (lens : list Z) :
  Forall (fun z => (- 2 ^ 63 <= z < 2 ^ 63 - 1)%Z) lens ->
  map (fun z => LongTensor.wrap64 (z + 1)) lens
  = map (fun z => (z + 1)%Z) lens.
Proof.
  induction 1 as [| z lens Hz _ IH]; [reflexivity |].
  simpl. rewrite IH, wrap64_small by lia. reflexivity.
Qed.

Section TokenClassificationFacts.

Import TokenClassification.

Variable V : Type.
Variable vzero : V.
Variable vadd vmul : V -> V -> V.

Lemma combine_map_seq {A B} (f : nat -> A) (g : nat -> B) (l : list nat) :
  combine (map f l) (map g l) = map (fun j => (f j, g j)) l.
Proof.
  induction l as [| j l IH]; simpl; [reflexivity | now rewrite IH].
Qed.

(** The output vector of a freshly built layer, coordinate by coordinate. *)
Lemma affine_init (in_f out_f : Z) w0 b0 (lin : Linear V) (x : list V) :
  Linear_init in_f out_f w0 b0 = ok lin ->
  affine vzero vadd vmul lin x =
  map (fun j => vadd (dot vzero vadd vmul x (map (w0 j) (seq 0 (Z.to_nat in_f))))
                     (b0 j))
      (seq 0 (Z.to_nat out_f)).
Proof.
  unfold Linear_init.
  destruct ((in_f <? 0) || (out_f <? 0))%Z; [discriminate |].
  intros H. injection H as <-. unfold affine. simpl.
  rewrite combine_map_seq, map_map. reflexivity.
Qed.

Lemma Linear_init_dims (in_f out_f : Z) w0 b0 (lin : Linear V) :
  Linear_init in_f out_f w0 b0 = ok lin ->
  in_features lin = in_f /\ out_features lin = out_f /\
  (0 <= in_f)%Z /\ (0 <= out_f)%Z.
Proof.
  unfold Linear_init.
  destruct ((in_f <? 0) || (out_f <? 0))%Z eqn:E; [discriminate |].
  intros H. injection H as <-. simpl.
  apply orb_false_iff in E. destruct E as [E1 E2].
  apply Z.ltb_ge in E1, E2. auto.
Qed.

Lemma has_shape_map (f : list V -> list V) (n0 n1 n2 n2' : nat) rows :
  (forall x, length (f x) = n2') ->
  has_shape rows n0 n1 n2 ->
  has_shape (map (map f) rows) n0 n1 n2'.
Proof.
  intros Hf [Hlen Hrows]. split.
  - now rewrite length_map.
  - apply Forall_map. eapply Forall_impl; [| exact Hrows].
    intros r [Hr _]. split.
    + now rewrite length_map.
    + apply Forall_map. apply Forall_forall. intros x _. apply Hf.
Qed.

(** C8: [LinearDecoder.forward] is the affine map of the single linear layer
    applied to the input and nothing else: it does not depend on [ilens], on
    an input of shape [Batch, T, F] with [F = encoder_output_size] it returns
    logits of shape [Batch, T, num_labels] whose vectors are
    [x . weight_j + bias_j], and the [num_labels] property is the value given
    at construction, 2 by default. *)
Theorem linear_decoder_forward
    (encoder_output_size : Z) (labels : option Z)
    (w0 : nat -> nat -> V) (b0 : nat -> V) (self : LinearDecoder V)
    (Hinit : __init__ encoder_output_size labels w0 b0 = ok self) :
  num_labels self = match labels with Some n => n | None => 2%Z end /\
  (forall input ilens,
      forward vzero vadd vmul self input ilens =
      Linear_forward vzero vadd vmul (linear_decoder self) input) /\
  (forall input ilens ilens',
      forward vzero vadd vmul self input ilens =
      forward vzero vadd vmul self input ilens') /\
  (forall input ilens,
      well_formed input ->
      Z.of_nat (size2 input) = encoder_output_size ->
      exists out,
        forward vzero vadd vmul self input ilens = ok out /\
        well_formed out /\
        size0 out = size0 input /\
        size1 out = size1 input /\
        Z.of_nat (size2 out) = num_labels self /\
        data out =
        map (map (fun x =>
               map (fun j =>
                      vadd (dot vzero vadd vmul x
                              (map (w0 j)
                                 (seq 0 (Z.to_nat encoder_output_size))))
                           (b0 j))
                   (seq 0 (Z.to_nat (num_labels self)))))
            (data input)).
Proof.
  unfold __init__ in Hinit.
  apply rbind_ok in Hinit. destruct Hinit as (lin & Hlin & Hself).
  injection Hself as <-. unfold num_labels. simpl.
  set (n := match labels with Some n => n | None => default_num_labels end)
    in *.
  destruct (Linear_init_dims _ _ _ _ Hlin) as (Hin & Hout & Hin0 & Hout0).
  split; [destruct labels; reflexivity |].
  split.
  { intros input ilens. unfold forward. simpl.
    destruct (Linear_forward vzero vadd vmul lin input); reflexivity. }
  split; [reflexivity |].
  intros input ilens Hwf HF.
  unfold forward, Linear_forward. simpl.
  rewrite Hin, HF, Z.eqb_refl. simpl.
  eexists. split; [reflexivity |]. simpl.
  assert (Haff : forall x,
             affine vzero vadd vmul lin x =
             map (fun j =>
                    vadd (dot vzero vadd vmul x
                            (map (w0 j) (seq 0 (Z.to_nat encoder_output_size))))
                         (b0 j))
                 (seq 0 (Z.to_nat n))).
  { intros x. now apply affine_init. }
  split; [| split; [reflexivity | split; [reflexivity | split]]].
  - unfold well_formed. simpl.
    apply has_shape_map with (n2 := size2 input); [| exact Hwf].
    intros x. rewrite Haff, length_map, length_seq. now rewrite Hout.
  - rewrite Hout. now apply Z2Nat.id.
  - apply map_ext. intros row. apply map_ext. intros x. apply Haff.
Qed.

End TokenClassificationFacts.

(** ** The sampled transcript *)

Section CtcSampleFacts.

Import CtcSample.

(** [groupby] keeps the first token of every run, [collapse] the last. *)
Lemma collapse_cons (y : Z) (rest : list Z) :
  collapse (y :: rest) = y :: groupby_from (Some y) rest.
Proof.
  revert y. induction rest as [| y' r IH]; intros y; [reflexivity |].
  change (collapse (y :: y' :: r))
    with (if (y =? y')%Z then collapse (y' :: r) else y :: collapse (y' :: r)).
  rewrite IH. simpl groupby_from.
  rewrite (Z.eqb_sym y' y).
  destruct (Z.eqb_spec y y') as [-> | Hne]; reflexivity.
Qed.

Lemma groupby_keys_collapse (ys : list Z) : groupby_keys ys = collapse ys.
Proof.
  destruct ys as [| y rest]; [reflexivity |].
  rewrite collapse_cons. reflexivity.
Qed.

Lemma groupby_from_head (k : Z) (ys : list Z) :
  match groupby_from (Some k) ys with
  | [] => True
  | y :: _ => y <> k
  end.
Proof.
  induction ys as [| y rest IH]; simpl; [exact I |].
  destruct (Z.eqb_spec y k) as [-> | Hne]; [exact IH | exact Hne].
Qed.

Lemma no_repeat_groupby_from (k : Z) (ys : list Z) :
  no_repeat (groupby_from (Some k) ys).
Proof.
  revert k. induction ys as [| y rest IH]; intros k; simpl; [exact I |].
  destruct (Z.eqb_spec y k) as [-> | Hne]; [apply IH |].
  pose proof (groupby_from_head y rest) as Hh. specialize (IH y).
  destruct (groupby_from (Some y) rest) as [| y' r]; [exact I |].
  split; [congruence | exact IH].
Qed.

Lemma no_repeat_collapse (ys : list Z) : no_repeat (collapse ys).
Proof.
  destruct ys as [| y rest]; [exact I |].
  rewrite collapse_cons.
  pose proof (groupby_from_head y rest) as Hh.
  pose proof (no_repeat_groupby_from y rest) as Hn.
  destruct (groupby_from (Some y) rest) as [| y' r]; [exact I |].
  split; [congruence | exact Hn].
Qed.


(** The loop over the batch computes the transcripts of the description. *)
Lemma fill_empty_spec (i : nat) (ys_hat src_text : list (list Z)) :
  fill_empty i (map filter_blank (map groupby_keys ys_hat)) src_text =
  transcripts_spec i ys_hat src_text.
Proof.
  revert i. induction ys_hat as [| ys rest IH]; intros i; [reflexivity |].
  simpl. rewrite IH, groupby_keys_collapse.
  unfold transcript_spec, LongTensor.index, len.
  destruct (filter_blank (collapse ys)) as [| t ts] eqn:E; simpl.
  - destruct (nth_error src_text i); reflexivity.
  - reflexivity.
Qed.

Lemma transcripts_spec_length (i : nat) (ys_hat src_text ts : list (list Z)) :
  transcripts_spec i ys_hat src_text = ok ts -> length ts = length ys_hat.
Proof.
  revert i ts. induction ys_hat as [| ys rest IH]; intros i ts; simpl.
  - intros H. injection H as <-. reflexivity.
  - intros H. apply rbind_ok in H. destruct H as (t & _ & H).
    apply rbind_ok in H. destruct H as (ts' & Hts & H).
    injection H as <-. simpl. f_equal. eapply IH, Hts.
Qed.

Lemma transcripts_spec_nth (i : nat) (ys_hat src_text ts : list (list Z)) :
  transcripts_spec i ys_hat src_text = ok ts ->
  forall k ys, nth_error ys_hat k = Some ys ->
  exists t, nth_error ts k = Some t /\
            transcript_spec (nth_error src_text (i + k)) ys = ok t.
Proof.
  revert i ts. induction ys_hat as [| y rest IH]; intros i ts H k ys Hk.
  - destruct k; discriminate.
  - simpl in H. apply rbind_ok in H. destruct H as (t & Ht & H).
    apply rbind_ok in H. destruct H as (ts' & Hts & H).
    injection H as <-. destruct k as [| k]; simpl in Hk.
    + injection Hk as <-. exists t. rewrite Nat.add_0_r. auto.
    + destruct (IH _ _ Hts _ _ Hk) as (t' & Hn & Ht').
      exists t'. split; [exact Hn |].
      replace (i + S k)%nat with (S i + k)%nat by lia. exact Ht'.
Qed.

(** The longest sequence, computed in the two ways. *)
Lemma max_len_list_max (ts : list (list Z)) :
  LongTensor.max_len ts = list_max (map (@length Z) ts).
Proof.
  induction ts as [| t ts IH]; simpl; [reflexivity | now rewrite IH].
Qed.

Lemma max_len_ge (ts : list (list Z)) (t : list Z) :
  In t ts -> (length t <= LongTensor.max_len ts)%nat.
Proof.
  induction ts as [| t' ts IH]; simpl; [tauto |].
  intros [-> | H]; [lia |]. specialize (IH H). lia.
Qed.

Lemma pad_sequence_right_pad (ts : list (list Z)) (v : Z) :
  ts <> [] -> LongTensor.pad_sequence ts v = ok (right_pad v ts).
Proof.
  intros Hne. unfold LongTensor.pad_sequence, right_pad.
  destruct ts as [| t ts']; [congruence |].
  rewrite max_len_list_max. reflexivity.
Qed.

Lemma right_pad_rectangular (ts : list (list Z)) (v : Z) :
  Forall (fun row => length row = list_max (map (@length Z) ts))
    (right_pad v ts).
Proof.
  unfold right_pad. apply Forall_map. apply Forall_forall. intros t Ht.
  rewrite length_app, repeat_length.
  pose proof (max_len_ge ts t Ht) as Hle. rewrite max_len_list_max in Hle.
  lia.
Qed.

(** The source and the description agree on every batch. *)
Lemma filter_blank_remove (ys : list Z) :
  filter_blank ys = remove Z.eq_dec 0%Z ys.
Proof.
  unfold filter_blank. induction ys as [| y ys IH]; [reflexivity |].
  cbn [filter remove]. rewrite IH.
  destruct (Z.eq_dec 0 y) as [<- | Hne]; [reflexivity |].
  destruct (Z.eqb_spec y 0) as [-> | _]; [contradiction | reflexivity].
Qed.

Lemma strip_ignore_remove (row : list Z) :
  strip_ignore row = remove Z.eq_dec (-1)%Z row.
Proof.
  unfold strip_ignore. induction row as [| y row IH]; [reflexivity |].
  cbn [filter remove]. rewrite IH.
  destruct (Z.eq_dec (-1) y) as [<- | Hne]; [reflexivity |].
  destruct (Z.eqb_spec y (-1)) as [-> | _]; [contradiction | reflexivity].
Qed.

Lemma sample_refines (ys_hat src_text : list (list Z)) :
  sample ys_hat src_text = sample_spec ys_hat src_text.
Proof.
  unfold sample, sample_spec. rewrite fill_empty_spec.
  destruct (transcripts_spec 0 ys_hat src_text) as [e | ts]; [reflexivity |].
  simpl. destruct ts as [| t ts']; [reflexivity |].
  rewrite pad_sequence_right_pad by congruence. reflexivity.
Qed.

(** *** Greedy decoding of an alignment *)

Lemma groupby_from_repeat (k : Z) (n : nat) (l : list Z) :
  groupby_from (Some k) (repeat k n ++ l) = groupby_from (Some k) l.
Proof.
  induction n as [| n IH]; simpl; [reflexivity |].
  now rewrite Z.eqb_refl.
Qed.

Lemma decode_segments (cur : option Z) (labels : list (Z * nat * nat)) :
  cur = None \/ cur = Some 0%Z ->
  Forall (fun l => fst (fst l) <> 0%Z) labels ->
  filter_blank (groupby_from cur (segments labels))
  = map (fun l => fst (fst l)) labels.
Proof.
  intros Hcur Hl. revert cur Hcur.
  induction Hl as [| [[x n] b] rest Hx _ IH]; intros cur Hcur;
    [reflexivity |].
  simpl in Hx.
  assert (Hstep : groupby_from cur (segments ((x, n, b) :: rest))
                  = x :: 0%Z :: groupby_from (Some 0%Z) (segments rest)).
  { cbn [segments repeat app].
    assert (Hhead : forall l, groupby_from cur (x :: l)
                              = x :: groupby_from (Some x) l).
    { intros l. destruct Hcur as [-> | ->]; simpl; [reflexivity |].
      destruct (Z.eqb_spec x 0); [contradiction | reflexivity]. }
    rewrite Hhead, groupby_from_repeat. cbn [groupby_from].
    destruct (Z.eqb_spec 0 x) as [E | _]; [symmetry in E; contradiction |].
    now rewrite groupby_from_repeat. }
  rewrite Hstep. unfold filter_blank. cbn [filter map fst].
  destruct (Z.eqb_spec x 0) as [E | _]; [contradiction |].
  rewrite Z.eqb_refl. cbn [negb]. f_equal. apply IH. now right.
Qed.

(** X11: the decoding of lines 203-204 inverts every alignment: a path made
    of leading blanks and then, for each label (none of them the blank),
    a run of that label followed by a run of blanks decodes to the
    labels. *)
Theorem greedy_decode_alignment (lead : nat) (labels : list (Z * nat * nat))
    (Hlabels : Forall (fun l => fst (fst l) <> 0%Z) labels) :
  filter_blank (groupby_keys (alignment lead labels))
  = map (fun l => fst (fst l)) labels.
Proof.
  unfold groupby_keys, alignment. destruct lead as [| lead].
  - simpl. apply decode_segments; auto.
  - cbn [repeat app groupby_from]. rewrite groupby_from_repeat.
    unfold filter_blank at 1. cbn [filter]. rewrite Z.eqb_refl. cbn [negb].
    apply decode_segments; auto.
Qed.

(** *** Blank paths and the fallback *)

Lemma collapse_incl (ys : list Z) (y : Z) : In y (collapse ys) -> In y ys.
Proof.
  induction ys as [| a rest IH]; [tauto |].
  destruct rest as [| b rest'].
  - simpl. tauto.
  - change (collapse (a :: b :: rest'))
      with (if (a =? b)%Z then collapse (b :: rest')
            else a :: collapse (b :: rest')).
    destruct (a =? b)%Z; simpl In in *; intuition.
Qed.


Lemma collapse_head_in (ys : list Z) (y : Z) : In y ys -> In y (collapse ys).
Proof.
  induction ys as [| a rest IH]; [tauto |].
  destruct rest as [| b rest'].
  - simpl. tauto.
  - change (collapse (a :: b :: rest'))
      with (if (a =? b)%Z then collapse (b :: rest')
            else a :: collapse (b :: rest')).
    intros [<- | Hin].
    + destruct (Z.eqb_spec a b) as [-> | _].
      * apply IH. now left.
      * now left.
    + destruct (a =? b)%Z; [| right]; apply IH, Hin.
Qed.

Lemma filter_blank_nil (ys : list Z) :
  filter_blank ys = [] <-> Forall (fun y => y = 0%Z) ys.
Proof.
  unfold filter_blank. induction ys as [| a rest IH]; simpl.
  - split; auto.
  - destruct (Z.eqb_spec a 0) as [-> | Hne]; simpl.
    + rewrite IH. split; [auto | intros H; now inversion H].
    + split; [discriminate | intros H; inversion H; contradiction].
Qed.

Lemma decoded_nil (ys : list Z) :
  filter_blank (collapse ys) = [] <-> Forall (fun y => y = 0%Z) ys.
Proof.
  rewrite filter_blank_nil, !Forall_forall. split; intros H y Hy.
  - apply H, collapse_head_in, Hy.
  - apply H, collapse_incl, Hy.
Qed.



(** *** When [sample] returns *)

Lemma transcripts_spec_returns (i : nat) (raw src : list (list Z)) :
  (i + length raw <= length src)%nat ->
  exists ts, transcripts_spec i raw src = ok ts.
Proof.
  revert i. induction raw as [| ys rest IH]; intros i Hlen; simpl.
  - eauto.
  - simpl in Hlen.
    destruct (nth_error src i) as [row |] eqn:Hrow.
    + destruct (IH (S i)) as (ts & Hts); [lia |].
      rewrite Hts. unfold transcript_spec.
      destruct (filter_blank (collapse ys)); simpl; eauto.
    + apply nth_error_None in Hrow. lia.
Qed.

Lemma transcripts_spec_fails (i : nat) (raw src : list (list Z)) e :
  transcripts_spec i raw src = raise e ->
  e = IndexError "index out of range".
Proof.
  revert i. induction raw as [| ys rest IH]; intros i; simpl;
    [discriminate |].
  unfold transcript_spec.
  destruct (filter_blank (collapse ys)) as [| y tk]; simpl.
  - destruct (nth_error src i); simpl.
    + destruct (transcripts_spec (S i) rest src) eqn:E; simpl;
        [| discriminate].
      intros H. injection H as <-. eapply IH, E.
    + intros H. now injection H as <-.
  - destruct (transcripts_spec (S i) rest src) eqn:E; simpl;
      [| discriminate].
    intros H. injection H as <-. eapply IH, E.
Qed.

Lemma transcripts_spec_blank_beyond (i k : nat) (raw src : list (list Z)) ys :
  nth_error raw k = Some ys ->
  Forall (fun y => y = 0%Z) ys ->
  (length src <= i + k)%nat ->
  exists e, transcripts_spec i raw src = raise e.
Proof.
  revert i k. induction raw as [| y0 rest IH]; intros i k Hk Hblank Hlen.
  - destruct k; discriminate.
  - simpl. destruct k as [| k]; simpl in Hk.
    + injection Hk as ->. unfold transcript_spec.
      rewrite (proj2 (decoded_nil ys) Hblank).
      rewrite (proj2 (nth_error_None src i)) by lia. simpl. eauto.
    + destruct (transcript_spec (nth_error src i) y0) as [e | t]; simpl;
        [eauto |].
      destruct (IH (S i) k Hk Hblank) as (e & ->); [lia |]. simpl. eauto.
Qed.

(** X14: [sample] raises [RuntimeError] on an empty batch; on a batch that
    is not empty and has a reference row for every element it returns one
    padded row and one length per element; and it raises [IndexError] when
    an all-blank path has no reference row. *)
Theorem sample_returns (raw src : list (list Z)) :
  sample [] src
  = raise (RuntimeError "received an empty list of sequences") /\
  (raw <> [] -> (length raw <= length src)%nat ->
   exists ys_hat lens,
     sample raw src = ok (ys_hat, lens) /\
     length ys_hat = length raw /\ length lens = length raw) /\
  (forall k ys,
      nth_error raw k = Some ys ->
      Forall (fun y => y = 0%Z) ys ->
      (length src <= k)%nat ->
      sample raw src = raise (IndexError "index out of range")).
Proof.
  split; [reflexivity |]. split.
  - intros Hne Hlen. rewrite sample_refines. unfold sample_spec.
    destruct (transcripts_spec_returns 0 raw src) as (ts & Hts); [lia |].
    rewrite Hts. simpl.
    pose proof (transcripts_spec_length _ _ _ Hts) as Hl.
    destruct ts as [| t ts'].
    + destruct raw; [congruence | discriminate].
    + do 2 eexists. split; [reflexivity |].
      unfold right_pad. now rewrite !length_map.
  - intros k ys Hk Hblank Hlen. rewrite sample_refines. unfold sample_spec.
    destruct (transcripts_spec_blank_beyond 0 k raw src Hk Hblank) as (e & He);
      [lia |].
    rewrite He. simpl. unfold raise. f_equal.
    eapply transcripts_spec_fails, He.
Qed.

(** *** Padding *)

Lemma strip_ignore_padded (t : list Z) (k : nat) :
  Forall (fun y => y <> (-1)%Z) t ->
  strip_ignore (t ++ repeat (-1)%Z k) = t.
Proof.
  intros Ht. unfold strip_ignore. rewrite filter_app.
  assert (H1 : filter (fun x => negb (x =? -1)%Z) t = t).
  { induction Ht as [| a t Ha _ IH]; simpl; [reflexivity |].
    destruct (Z.eqb_spec a (-1)); [contradiction |]. simpl. now rewrite IH. }
  assert (H2 : filter (fun x => negb (x =? -1)%Z) (repeat (-1)%Z k) = []).
  { induction k as [| k IH]; simpl; [reflexivity | exact IH]. }
  rewrite H1, H2. apply app_nil_r.
Qed.

Lemma strip_ignore_clean (row : list Z) :
  Forall (fun y => y <> (-1)%Z) (strip_ignore row).
Proof.
  apply Forall_forall. intros y Hy. apply filter_In in Hy.
  destruct Hy as [_ Hy]. apply negb_true_iff, Z.eqb_neq in Hy. exact Hy.
Qed.

Lemma transcripts_spec_clean (i : nat) (raw src ts : list (list Z)) :
  Forall (Forall (fun y => y <> (-1)%Z)) raw ->
  transcripts_spec i raw src = ok ts ->
  Forall (Forall (fun y => y <> (-1)%Z)) ts.
Proof.
  intros Hraw. revert i ts.
  induction Hraw as [| ys rest Hys _ IH]; intros i ts H; simpl in H.
  - injection H as <-. constructor.
  - apply rbind_ok in H. destruct H as (t & Ht & H).
    apply rbind_ok in H. destruct H as (ts' & Hts & H).
    injection H as <-. constructor; [| eapply IH, Hts].
    unfold transcript_spec in Ht.
    destruct (filter_blank (collapse ys)) as [| y tk] eqn:E.
    + destruct (nth_error src i); [| discriminate].
      injection Ht as <-. apply strip_ignore_clean.
    + injection Ht as <-. rewrite <- E.
      apply Forall_forall. intros z Hz. apply filter_In in Hz.
      destruct Hz as [Hz _]. apply collapse_incl in Hz.
      rewrite Forall_forall in Hys. now apply Hys.
Qed.

(** X12: when the CTC output holds no -1, removing the -1 entries of a
    padded row of [ys_hat] gives back the transcript of that element, and
    [ys_hat_lens] counts the entries of each row that are not padding. *)
Theorem padding_round_trip (raw src ys_hat : list (list Z)) (lens : list Z)
    (Hraw : Forall (Forall (fun y => y <> (-1)%Z)) raw)
    (Hsample : sample raw src = ok (ys_hat, lens)) :
  transcripts_spec 0 raw src = ok (map strip_ignore ys_hat) /\
  lens = map (fun row => Z.of_nat (length (strip_ignore row))) ys_hat.
Proof.
  rewrite sample_refines in Hsample. unfold sample_spec in Hsample.
  apply rbind_ok in Hsample. destruct Hsample as (ts & Hts & Hpad).
  destruct ts as [| t0 ts']; [discriminate |].
  injection Hpad as <- <-.
  pose proof (@transcripts_spec_clean 0 raw src _ Hraw Hts) as Hclean.
  assert (Hstrip : map strip_ignore (right_pad (-1) (t0 :: ts')) = t0 :: ts').
  { unfold right_pad. rewrite map_map.
    rewrite <- (map_id (t0 :: ts')) at 2.
    apply map_ext_in. intros t Ht. apply strip_ignore_padded.
    rewrite Forall_forall in Hclean. now apply Hclean. }
  split; [now rewrite Hstrip |].
  rewrite <- (map_map strip_ignore (fun t => Z.of_nat (length t))).
  now rewrite Hstrip.
Qed.

End CtcSampleFacts.

(** ** The multi-decoder ST model *)

Section STMDSampFacts.

Import STMDSamp.

Context {torch : Torch}.
Variable imports : Imports.

(** *** Inversion of the monad of the model *)

Lemma bind_ok {A B} (c : M A) (k : A -> M B) log r :
  bind c k log = inr r ->
  exists a log', c log = inr (a, log') /\ k a log' = inr r.
Proof.
  unfold bind. destruct (c log) as [e | [a log']]; [discriminate | eauto].
Qed.

Lemma lift_ok {A} (c : result A) log a log' :
  lift c log = inr (a, log') -> c = inr a /\ log' = log.
Proof.
  unfold lift. destruct c as [e | a0]; [discriminate |].
  intros H. injection H as -> ->. auto.
Qed.

Lemma call_ok {A} ev (c : result A) log a log' :
  call ev c log = inr (a, log') -> c = inr a /\ log' = log ++ [ev].
Proof.
  unfold call. destruct c as [e | a0]; [discriminate |].
  intros H. injection H as -> ->. auto.
Qed.

Lemma ret_ok {A} (a0 : A) log a log' :
  ret a0 log = inr (a, log') -> a = a0 /\ log' = log.
Proof.
  unfold ret. intros H. injection H as -> ->. auto.
Qed.

Lemma bind_fails {A B} (c : M A) (k : A -> M B) log e :
  c log = inl e -> bind c k log = inl e.
Proof.
  unfold bind. now intros ->.
Qed.

Lemma bind_step {A B} (c : M A) (k : A -> M B) log a log' :
  c log = inr (a, log') -> bind c k log = k a log'.
Proof.
  unfold bind. now intros ->.
Qed.

(** *** Construction *)

(** C9: [__init__] returns an instance only if [0.0 < asr_weight < 1.0],
    [0.0 <= mt_weight < 1.0] and [0.0 <= mtlalpha < 1.0]; when one of the
    three fails it raises [AssertionError]; the default [asr_weight = 0.0]
    is rejected whatever the other arguments are. *)
Theorem init_preconditions
    (vocab : Z) (toks : str_seq)
    (fe sa no pre : option FeatsModule) (enc enc_mt : FeatsModule)
    (post : option FeatsModule) (dec : STDecoder) (asr_dec : ASRDecoder)
    (c : CTC) (kw : init_kwargs) :
  let construct :=
    __init__ imports vocab toks fe sa no pre enc enc_mt post dec asr_dec c in
  let pre_ok :=
    lt_lt 0.0 (kw_asr_weight kw) 1.0
    && le_lt 0.0 (kw_mt_weight kw) 1.0
    && le_lt 0.0 (kw_mtlalpha kw) 1.0 in
  (forall self, construct kw = ok self -> pre_ok = true) /\
  (pre_ok = false ->
   exists msg, construct kw = raise (AssertionError msg)) /\
  (kw_asr_weight kw = kw_asr_weight default_kwargs ->
   construct kw = raise (AssertionError "asr_weight should be (0.0, 1.0)")) /\
  construct default_kwargs =
  raise (AssertionError "asr_weight should be (0.0, 1.0)").
Proof.
  intros construct pre_ok. subst construct pre_ok. unfold __init__.
  split; [| split; [| split]].
  - intros self H.
    destruct (lt_lt 0.0 (kw_asr_weight kw) 1.0); [| discriminate].
    destruct (le_lt 0.0 (kw_mt_weight kw) 1.0); [| discriminate].
    destruct (le_lt 0.0 (kw_mtlalpha kw) 1.0); [reflexivity | discriminate].
  - intros H.
    destruct (lt_lt 0.0 (kw_asr_weight kw) 1.0); [| simpl; eauto].
    destruct (le_lt 0.0 (kw_mt_weight kw) 1.0); [| simpl; eauto].
    destruct (le_lt 0.0 (kw_mtlalpha kw) 1.0); [discriminate | simpl; eauto].
  - intros ->. reflexivity.
  - reflexivity.
Qed.

(** *** [mt_weight] *)

Lemma forward_set_mt_weight (self : ESPnetSTMDSampModel) (w : float) u
    speech speech_lengths text text_lengths src_text src_text_lengths :
  forward imports (set_mt_weight w self) u speech speech_lengths
    text text_lengths src_text src_text_lengths =
  forward imports self u speech speech_lengths
    text text_lengths src_text src_text_lengths.
Proof.
  destruct self. reflexivity.
Qed.

Lemma set_training_set_mt_weight (self : ESPnetSTMDSampModel) w b :
  set_training b (set_mt_weight w self) = set_mt_weight w (set_training b self).
Proof.
  reflexivity.
Qed.

Lemma init_set_kw_mt_weight
    (vocab : Z) (toks : str_seq)
    (fe sa no pre : option FeatsModule) (enc enc_mt : FeatsModule)
    (post : option FeatsModule) (dec : STDecoder) (asr_dec : ASRDecoder)
    (c : CTC) (kw : init_kwargs) (w : float) m1 m2 :
  __init__ imports vocab toks fe sa no pre enc enc_mt post dec asr_dec c kw
    = ok m1 ->
  __init__ imports vocab toks fe sa no pre enc enc_mt post dec asr_dec c
    (set_kw_mt_weight w kw) = ok m2 ->
  m2 = set_mt_weight w m1.
Proof.
  unfold __init__. simpl.
  destruct (lt_lt 0.0 (kw_asr_weight kw) 1.0); [| discriminate].
  destruct (le_lt 0.0 (kw_mt_weight kw) 1.0); [| discriminate].
  destruct (le_lt 0.0 w 1.0); [| discriminate].
  destruct (le_lt 0.0 (kw_mtlalpha kw) 1.0); [| discriminate].
  simpl.
  destruct (str_seq_copy toks); [discriminate |].
  destruct (str_seq_copy (kw_src_token_list kw)); [discriminate |].
  simpl.
  destruct (kw_report_cer kw || kw_report_wer kw);
    [destruct (new_ASRErrorCalculator imports _ _ _ _ _);
     [discriminate |] |];
    simpl; intros H1 H2; injection H1 as <-; injection H2 as <-;
    reflexivity.
Qed.

(** C10: two instances built from the same arguments except for
    [mt_weight] are the same object up to that attribute, and [forward]
    returns the same loss, statistics and weight (and invokes the
    sub-modules in the same way) on the same inputs, training mode and
    random draw. *)
Theorem mt_weight_unobservable
    (vocab : Z) (toks : str_seq)
    (fe sa no pre : option FeatsModule) (enc enc_mt : FeatsModule)
    (post : option FeatsModule) (dec : STDecoder) (asr_dec : ASRDecoder)
    (c : CTC) (kw : init_kwargs) (w : float) m1 m2
    (H1 : __init__ imports vocab toks fe sa no pre enc enc_mt post dec
            asr_dec c kw = ok m1)
    (H2 : __init__ imports vocab toks fe sa no pre enc enc_mt post dec
            asr_dec c (set_kw_mt_weight w kw) = ok m2) :
  m2 = set_mt_weight w m1 /\
  forall (mode : bool) u speech speech_lengths text text_lengths
         src_text src_text_lengths,
    run (forward imports (set_training mode m2) u speech speech_lengths
           text text_lengths src_text src_text_lengths) =
    run (forward imports (set_training mode m1) u speech speech_lengths
           text text_lengths src_text src_text_lengths).
Proof.
  pose proof (init_set_kw_mt_weight _ _ _ _ _ _ _ _ _ _ _ _ _ _ H1 H2) as ->.
  split; [reflexivity |].
  intros. rewrite set_training_set_mt_weight, forward_set_mt_weight.
  reflexivity.
Qed.

(** *** The call log *)

Lemma calls_to_app (c : callee) (l1 l2 : list event) :
  calls_to c (l1 ++ l2) = calls_to c l1 ++ calls_to c l2.
Proof.
  apply filter_app.
Qed.

Lemma calls_to_none (P : callee -> bool) (c : callee) (d : list event) :
  Forall (fun ev => P (callee_of ev) = true) d ->
  P c = false ->
  calls_to c d = [].
Proof.
  intros Hd Hc. induction Hd as [| ev d Hev _ IH]; [reflexivity |].
  unfold calls_to in *. simpl. rewrite IH.
  destruct (callee_eqb (callee_of ev) c) eqn:E; [| reflexivity].
  unfold callee_eqb in E. apply Nat.eqb_eq in E.
  assert (callee_of ev = c) as Heq.
  { destruct (callee_of ev), c; simpl in E; congruence. }
  congruence.
Qed.

(** Decompose the hypotheses that say that a computation returned. *)
Ltac inv_M :=
  repeat (cbv beta in *; unfold ok, raise in *;
    match goal with
    | H : bind _ _ _ = inr _ |- _ =>
        apply bind_ok in H; destruct H as (? & ? & ? & H)
    | H : lift _ _ = inr (_, _) |- _ =>
        apply lift_ok in H; destruct H as [H ?]; subst
    | H : call _ _ _ = inr (_, _) |- _ =>
        apply call_ok in H; destruct H as [H ?]; subst
    | H : ret _ _ = inr (_, _) |- _ =>
        apply ret_ok in H; destruct H as [? ?]; subst
    | H : rbind _ _ = inr _ |- _ =>
        apply rbind_ok in H; destruct H as (? & ? & H)
    | H : assert _ _ = inr _ |- _ => apply assert_ok in H
    | H : inr _ = inr _ |- _ => injection H as H; subst
    | H : inl _ = inr _ |- _ => discriminate H
    | H : pair _ _ = pair _ _ |- _ => inversion H; clear H; subst
    | H : context [match ?a with pair _ _ => _ end] |- _ =>
        is_var a; destruct a
    end).

Lemma apply_optional_log (m : option FeatsModule) (enabled : bool)
    (ev : Tensor -> list Z -> event) feats lens log r log' :
  (forall f l, feats_stage (callee_of (ev f l)) = true) ->
  apply_optional m enabled ev feats lens log = inr (r, log') ->
  exists d, log' = log ++ d /\
            Forall (fun e => feats_stage (callee_of e) = true) d.
Proof.
  intros Hev H. unfold apply_optional in H.
  destruct m as [f |]; [destruct enabled |]; inv_M.
  - eexists. split; [reflexivity |]. constructor; [apply Hev | constructor].
  - exists []. rewrite app_nil_r. auto.
  - exists []. rewrite app_nil_r. auto.
Qed.

Ltac inv_optional :=
  repeat match goal with
  | H : apply_optional _ _ _ _ _ _ = inr _ |- _ =>
      apply apply_optional_log in H;
      [destruct H as (? & ? & ?); subst | reflexivity]
  end.

(** [encode] invokes the modules of the speech encoder and no other. *)
Lemma encode_log (self : ESPnetSTMDSampModel) speech speech_lengths
    log r log' :
  encode self speech speech_lengths log = inr (r, log') ->
  exists d, log' = log ++ d /\
            Forall (fun e => feats_stage (callee_of e) = true) d.
Proof.
  unfold encode, _extract_feats. intros H. inv_M. inv_optional.
  eexists. split.
  - repeat rewrite <- app_assoc. reflexivity.
  - repeat (apply Forall_app; split); auto.
Qed.

Ltac log_eq := repeat rewrite <- app_assoc; simpl; reflexivity.

(** *** The partial losses *)

Lemma _calc_asr_att_loss_ok (self : ESPnetSTMDSampModel) eo eol ys yl log
    loss acc cer wer hs log' :
  _calc_asr_att_loss imports self eo eol ys yl log
    = inr ((loss, acc, cer, wer, hs), log') ->
  exists ys_in ys_out dec_out post,
    add_sos_eos imports ys (src_sos self) (src_eos self) (ignore_id self)
      = ok (ys_in, ys_out) /\
    asr_decoder self eo eol ys_in (LongTensor.add_scalar yl 1)
      = ok (dec_out, hs) /\
    criterion_asr self dec_out ys_out = ok loss /\
    log' = log ++ [CallAsrDecoder eo eol ys_in (LongTensor.add_scalar yl 1);
                   CallCriterionAsr dec_out ys_out] ++ post /\
    Forall (fun e => auxiliary (callee_of e) = true) post /\
    (training self = true -> cer = None /\ wer = None /\ post = []).
Proof.
  unfold _calc_asr_att_loss. intros H. inv_M.
  destruct (asr_error_calculator self) as [calc |];
    [destruct (training self) |]; inv_M;
    do 4 eexists;
    (split; [eassumption |]); (split; [eassumption |]);
    (split; [eassumption |]); (split; [log_eq |]);
    (split; [repeat constructor | intros; auto; discriminate]).
Qed.

Lemma _calc_mt_att_loss_ok (self : ESPnetSTMDSampModel) mt_out mt_lens
    ys yl sp spl log loss acc bleu log' :
  _calc_mt_att_loss imports self mt_out mt_lens ys yl sp spl log
    = inr ((loss, acc, bleu), log') ->
  exists ys_in ys_out dec_out post,
    add_sos_eos imports ys (sos self) (eos self) (ignore_id self)
      = ok (ys_in, ys_out) /\
    decoder self mt_out mt_lens ys_in (LongTensor.add_scalar yl 1)
      (if speech_attn self then Some (sp, spl) else None) = ok dec_out /\
    criterion_st self dec_out ys_out = ok loss /\
    log' = log ++ [CallDecoder mt_out mt_lens ys_in
                     (LongTensor.add_scalar yl 1)
                     (if speech_attn self then Some (sp, spl) else None);
                   CallCriterionSt dec_out ys_out] ++ post /\
    Forall (fun e => auxiliary (callee_of e) = true) post /\
    (training self = true -> bleu = None /\ post = []).
Proof.
  unfold _calc_mt_att_loss. intros H. inv_M.
  destruct (mt_error_calculator self) as [calc |];
    [destruct (training self) |]; inv_M;
    do 4 eexists;
    (split; [eassumption |]); (split; [eassumption |]);
    (split; [eassumption |]); (split; [log_eq |]);
    (split; [repeat constructor | intros; auto; discriminate]).
Qed.

Lemma _calc_ctc_loss_ok (self : ESPnetSTMDSampModel) eo eol ys yl log
    loss cer log' :
  _calc_ctc_loss self eo eol ys yl log = inr ((loss, cer), log') ->
  exists c post,
    ctc self = Some c /\
    ctc_loss c eo eol ys yl = ok loss /\
    log' = log ++ [CallCtc eo eol ys yl] ++ post /\
    Forall (fun e => auxiliary (callee_of e) = true) post /\
    (training self = true -> cer = None /\ post = []).
Proof.
  unfold _calc_ctc_loss, get_ctc. intros H. inv_M.
  destruct (ctc self) as [c |] eqn:Ec; [| discriminate]. inv_M.
  destruct (asr_error_calculator self) as [calc |];
    [destruct (training self) |]; simpl in *; inv_M;
    do 2 eexists;
    (split; [reflexivity |]); (split; [eassumption |]);
    (split; [log_eq |]);
    (split; [repeat constructor | intros; auto; discriminate]).
Qed.

(** *** The blocks of [forward] *)

Lemma asr_branch_ok (self : ESPnetSTMDSampModel) (sampling : bool)
    eo eol src srcl log loss acc cer wer hs yhl log' :
  asr_branch imports self sampling eo eol src srcl log
    = inr ((loss, acc, cer, wer, hs, yhl), log') ->
  exists transcript tlens ys_in ys_out dec_out post,
    (if sampling
     then exists c raw,
            ctc self = Some c /\ ctc_argmax c eo = ok raw /\
            CtcSample.sample raw src = ok (transcript, tlens) /\
            acc = PyNone /\ cer = PyNone /\ wer = PyNone /\
            yhl = Some tlens
     else transcript = src /\ tlens = srcl /\ yhl = None) /\
    add_sos_eos imports transcript (src_sos self) (src_eos self)
      (ignore_id self) = ok (ys_in, ys_out) /\
    asr_decoder self eo eol ys_in (LongTensor.add_scalar tlens 1)
      = ok (dec_out, hs) /\
    criterion_asr self dec_out ys_out = ok loss /\
    log' = log ++ (if sampling then [CallCtcArgmax eo] else [])
               ++ [CallAsrDecoder eo eol ys_in (LongTensor.add_scalar tlens 1);
                   CallCriterionAsr dec_out ys_out] ++ post /\
    Forall (fun e => auxiliary (callee_of e) = true) post /\
    exists oa oc ow,
      acc = of_option_float oa /\ cer = of_option_float oc /\
      wer = of_option_float ow.
Proof.
  unfold asr_branch, get_ctc. destruct sampling; intros H; inv_M.
  - destruct (ctc self) as [c |] eqn:Ec; [| discriminate]. inv_M.
    match goal with
    | H : _calc_asr_att_loss _ _ _ _ _ _ _ = inr _ |- _ =>
        apply _calc_asr_att_loss_ok in H;
        destruct H as (ys_in & ys_out & dec_out & post & ? & ? & ? & ? & ? & _)
    end.
    subst. do 6 eexists.
    split; [do 2 eexists; repeat split; eauto |].
    repeat (split; [eassumption |]). split; [log_eq |].
    split; [assumption |]. exists None, None, None. auto.
  - match goal with
    | H : _calc_asr_att_loss _ _ _ _ _ _ _ = inr _ |- _ =>
        apply _calc_asr_att_loss_ok in H;
        destruct H as (ys_in & ys_out & dec_out & post & ? & ? & ? & ? & ? & _)
    end.
    subst. do 6 eexists.
    split; [repeat split; reflexivity |].
    repeat (split; [eassumption |]). split; [log_eq |].
    split; [assumption |].
    match goal with
    | |- exists oa oc ow, PyFloat ?a = _ /\ _ => exists (Some a)
    end.
    eauto.
Qed.

Lemma ctc_branch_ok (self : ESPnetSTMDSampModel) eo eol src srcl log
    loss_asr_ctc cer_asr_ctc log' :
  ctc_branch self eo eol src srcl log
    = inr ((loss_asr_ctc, cer_asr_ctc), log') ->
  exists d,
    log' = log ++ d /\
    (exists o, cer_asr_ctc = of_option_float o) /\
    if (0.0 <? mtlalpha self)%float
    then exists c t post,
           ctc self = Some c /\ ctc_loss c eo eol src srcl = ok t /\
           loss_asr_ctc = PyTensor t /\
           d = [CallCtc eo eol src srcl] ++ post /\
           Forall (fun e => auxiliary (callee_of e) = true) post
    else loss_asr_ctc = PyInt 0 /\ cer_asr_ctc = PyNone /\ d = [].
Proof.
  unfold ctc_branch. destruct (0.0 <? mtlalpha self)%float; intros H; inv_M.
  - match goal with
    | H : _calc_ctc_loss _ _ _ _ _ _ = inr _ |- _ =>
        apply _calc_ctc_loss_ok in H;
        destruct H as (c & post & ? & ? & ? & ? & _)
    end.
    subst. eexists. split; [reflexivity |]. split; [eauto |].
    do 3 eexists. repeat split; eauto.
  - exists []. rewrite app_nil_r. split; [reflexivity |].
    split; [exists None; reflexivity | auto].
Qed.

Lemma mt_encoder_branch_ok (self : ESPnetSTMDSampModel) (sampling : bool)
    hs yhl srcl log mt_out mt_lens log' :
  mt_encoder_branch self sampling hs yhl srcl log
    = inr ((mt_out, mt_lens), log') ->
  exists lens,
    (if sampling then yhl = Some lens else lens = srcl) /\
    encoder_mt self hs (LongTensor.add_scalar lens 1) = ok (mt_out, mt_lens) /\
    log' = log ++ [CallEncoderMt hs (LongTensor.add_scalar lens 1)].
Proof.
  unfold mt_encoder_branch, local. destruct sampling; intros H; inv_M.
  - destruct yhl as [lens |]; [| discriminate]. inv_M.
    eexists. auto.
  - exists srcl. auto.
Qed.

Lemma st_call_ok (self : ESPnetSTMDSampModel) mt_out mt_lens text tl
    speech_out speech_lens log loss acc bleu log' :
  st_call imports self mt_out mt_lens text tl speech_out speech_lens log
    = inr ((loss, acc, bleu), log') ->
  exists sp spl ys_in ys_out dec_out post,
    speech_out = Some sp /\ speech_lens = Some spl /\
    add_sos_eos imports text (sos self) (eos self) (ignore_id self)
      = ok (ys_in, ys_out) /\
    decoder self mt_out mt_lens ys_in (LongTensor.add_scalar tl 1)
      (if speech_attn self then Some (sp, spl) else None) = ok dec_out /\
    criterion_st self dec_out ys_out = ok loss /\
    log' = log ++ [CallDecoder mt_out mt_lens ys_in
                     (LongTensor.add_scalar tl 1)
                     (if speech_attn self then Some (sp, spl) else None);
                   CallCriterionSt dec_out ys_out] ++ post /\
    Forall (fun e => auxiliary (callee_of e) = true) post.
Proof.
  unfold st_call, local. intros H. inv_M.
  destruct speech_out as [sp |]; [| discriminate].
  destruct speech_lens as [spl |]; [| discriminate]. inv_M.
  match goal with
  | H : _calc_mt_att_loss _ _ _ _ _ _ _ _ _ = inr _ |- _ =>
      apply _calc_mt_att_loss_ok in H;
      destruct H as (ys_in & ys_out & dec_out & post & ? & ? & ? & ? & ? & _)
  end.
  do 6 eexists. repeat (split; [eauto; fail |]). assumption.
Qed.

(** The locals [speech_out], [speech_lens] are bound exactly under
    [speech_attn]. *)
Lemma bind_speech_out_some (self : ESPnetSTMDSampModel) eo eol sp spl :
  bind_speech_out self eo eol = (Some sp, Some spl) ->
  speech_attn self = true /\ sp = eo /\ spl = eol.
Proof.
  unfold bind_speech_out. destruct (speech_attn self); intros H.
  - injection H as -> ->. auto.
  - discriminate.
Qed.

(** *** The two halves of [forward] *)

Lemma asr_pass_ok (self : ESPnetSTMDSampModel) u speech spl text tl
    src_text src_tl l log1 :
  asr_pass imports self u speech spl text tl src_text src_tl [] = inr (l, log1) ->
  let sampling := training self && (u <? ctc_sample_rate self)%float in
  check_inputs speech spl text tl src_text src_tl
    = ok (l_batch_size l, l_text l, l_src_text l, l_src_text_lengths l) /\
  exists d_enc transcript tlens ys_in ys_out dec_out aux1 d_ctc,
    encode self speech spl []
      = inr ((l_encoder_out l, l_encoder_out_lens l), d_enc) /\
    Forall (fun e => feats_stage (callee_of e) = true) d_enc /\
    (if sampling
     then exists c raw,
            ctc self = Some c /\ ctc_argmax c (l_encoder_out l) = ok raw /\
            CtcSample.sample raw (l_src_text l) = ok (transcript, tlens) /\
            l_acc_asr_att l = PyNone /\ l_cer_asr_att l = PyNone /\
            l_wer_asr_att l = PyNone
     else transcript = l_src_text l /\ tlens = l_src_text_lengths l) /\
    add_sos_eos imports transcript (src_sos self) (src_eos self)
      (ignore_id self) = ok (ys_in, ys_out) /\
    asr_decoder self (l_encoder_out l) (l_encoder_out_lens l) ys_in
      (LongTensor.add_scalar tlens 1) = ok (dec_out, l_hs_dec_asr l) /\
    criterion_asr self dec_out ys_out = ok (l_loss_asr_att l) /\
    Forall (fun e => auxiliary (callee_of e) = true) aux1 /\
    (if (0.0 <? mtlalpha self)%float
     then exists c t post,
            ctc self = Some c /\
            ctc_loss c (l_encoder_out l) (l_encoder_out_lens l)
              (l_src_text l) (l_src_text_lengths l) = ok t /\
            l_loss_asr_ctc l = PyTensor t /\
            d_ctc = [CallCtc (l_encoder_out l) (l_encoder_out_lens l)
                       (l_src_text l) (l_src_text_lengths l)] ++ post /\
            Forall (fun e => auxiliary (callee_of e) = true) post
     else l_loss_asr_ctc l = PyInt 0 /\ l_cer_asr_ctc l = PyNone /\
          d_ctc = []) /\
    encoder_mt self (l_hs_dec_asr l) (LongTensor.add_scalar tlens 1)
      = ok (l_encoder_mt_out l, l_encoder_mt_out_lens l) /\
    log1 = d_enc
           ++ (if sampling then [CallCtcArgmax (l_encoder_out l)] else [])
           ++ [CallAsrDecoder (l_encoder_out l) (l_encoder_out_lens l) ys_in
                 (LongTensor.add_scalar tlens 1);
               CallCriterionAsr dec_out ys_out]
           ++ aux1 ++ d_ctc
           ++ [CallEncoderMt (l_hs_dec_asr l) (LongTensor.add_scalar tlens 1)]
    /\
    exists oa oc ow oct,
      l_acc_asr_att l = of_option_float oa /\
      l_cer_asr_att l = of_option_float oc /\
      l_wer_asr_att l = of_option_float ow /\
      l_cer_asr_ctc l = of_option_float oct.
Proof.
  intros H. cbv zeta. unfold asr_pass in H.
  set (sampling := training self && (u <? ctc_sample_rate self)%float) in *.
  inv_M. simpl.
  split; [assumption |].
  match goal with
  | H : encode _ _ _ _ = inr _ |- _ =>
      let H' := fresh in
      pose proof H as H'; apply encode_log in H';
      destruct H' as (d_enc & Hd & Hfeats); simpl in Hd; subst
  end.
  match goal with
  | H : asr_branch _ _ _ _ _ _ _ _ = inr _ |- _ =>
      apply asr_branch_ok in H;
      destruct H as (transcript & tlens & ys_in & ys_out & dec_out & aux1
                     & Hsw & Hsos & Hdec & Hcrit & Hlog & Haux1
                     & oa & oc & ow & Hoa & Hoc & How)
  end.
  match goal with
  | H : ctc_branch _ _ _ _ _ _ = inr _ |- _ =>
      apply ctc_branch_ok in H;
      destruct H as (d_ctc & Hlogc & (oct & Hoct) & Hctc)
  end.
  match goal with
  | H : mt_encoder_branch _ _ _ _ _ _ = inr _ |- _ =>
      apply mt_encoder_branch_ok in H;
      destruct H as (lens & Hlens & Hmt & Hlogm)
  end.
  subst.
  exists d_enc, transcript, tlens, ys_in, ys_out, dec_out, aux1, d_ctc.
  assert (lens = tlens) as ->.
  { destruct sampling.
    - destruct Hsw as (c & raw & _ & _ & _ & _ & _ & _ & Hy).
      congruence.
    - destruct Hsw as (_ & -> & _). exact Hlens. }
  split; [assumption |]. split; [assumption |].
  split.
  { destruct sampling; [| tauto].
    destruct Hsw as (c & raw & ? & ? & ? & ? & ? & ? & ?).
    exists c, raw. auto 10. }
  repeat (split; [assumption |]).
  split; [log_eq |].
  exists oa, oc, ow, oct. auto.
Qed.

Lemma st_pass_ok (self : ESPnetSTMDSampModel) u tl l log1
    loss stats weight log :
  st_pass imports self u tl l log1 = inr ((loss, stats, weight), log) ->
  let sampling := training self && (u <? ctc_sample_rate self)%float in
  speech_attn self = true /\
  exists ys_in ys_out dec_out loss_st acc_st bleu aux3 loss_asr loss0 stats0,
    add_sos_eos imports (l_text l) (sos self) (eos self) (ignore_id self)
      = ok (ys_in, ys_out) /\
    decoder self (l_encoder_mt_out l) (l_encoder_mt_out_lens l) ys_in
      (LongTensor.add_scalar tl 1)
      (Some (l_encoder_out l, l_encoder_out_lens l)) = ok dec_out /\
    criterion_st self dec_out ys_out = ok loss_st /\
    loss_computation self sampling loss_st (l_loss_asr_att l)
      (l_loss_asr_ctc l) = ok (loss_asr, loss0) /\
    make_stats loss0 loss_asr loss_st (l_acc_asr_att l) acc_st
      (l_cer_asr_ctc l) (l_cer_asr_att l) (l_wer_asr_att l) bleu
      = ok stats0 /\
    force_gatherable (loss0, stats0, PyInt (l_batch_size l))
      = ok (loss, stats, weight) /\
    log = log1
          ++ [CallDecoder (l_encoder_mt_out l) (l_encoder_mt_out_lens l)
                ys_in (LongTensor.add_scalar tl 1)
                (Some (l_encoder_out l, l_encoder_out_lens l));
              CallCriterionSt dec_out ys_out]
          ++ aux3 /\
    Forall (fun e => auxiliary (callee_of e) = true) aux3.
Proof.
  intros H. cbv zeta. unfold st_pass in H.
  set (sampling := training self && (u <? ctc_sample_rate self)%float) in *.
  destruct (bind_speech_out self (l_encoder_out l) (l_encoder_out_lens l))
    as [speech_out speech_lens] eqn:Eb.
  inv_M.
  match goal with
  | H : st_call _ _ _ _ _ _ _ _ _ = inr _ |- _ =>
      apply st_call_ok in H;
      destruct H as (sp & spl & ys_in & ys_out & dec_out & aux3
                     & -> & -> & Hsos & Hdec & Hcrit & Hlog & Haux3)
  end.
  apply bind_speech_out_some in Eb. destruct Eb as (Hattn & -> & ->).
  rewrite Hattn in *. subst.
  split; [reflexivity |].
  do 10 eexists.
  repeat (split; [eassumption |]). split; [reflexivity | assumption].
Qed.

(** *** Loss, statistics, [force_gatherable] *)

Lemma loss_computation_ok (self : ESPnetSTMDSampModel) (sampling : bool)
    loss_st la lctc loss_asr loss :
  (lctc = PyInt 0 \/ exists t, lctc = PyTensor t) ->
  loss_computation self sampling loss_st la lctc = ok (loss_asr, loss) ->
  exists t_asr,
    loss_asr = PyTensor t_asr /\
    loss = PyTensor (tadd (rmul (1.0 - asr_weight self) loss_st)
                          (rmul (asr_weight self) t_asr)) /\
    if (asr_ctc_weight self sampling =? 0.0)%float
    then t_asr = la
    else match lctc with
         | PyTensor t =>
             t_asr = tadd (rmul (asr_ctc_weight self sampling) t)
                          (rmul (1.0 - asr_ctc_weight self sampling) la)
         | _ =>
             t_asr = radd (asr_ctc_weight self sampling * 0.0)
                          (rmul (1.0 - asr_ctc_weight self sampling) la)
         end.
Proof.
  intros Hctc. unfold loss_computation, py_sub.
  rewrite float_of_int_1.
  destruct (asr_ctc_weight self sampling =? 0.0)%float.
  - simpl. intros H. injection H as <- <-. eauto.
  - destruct Hctc as [-> | [t ->]]; unfold py_mul.
    + rewrite float_of_int_0. simpl. intros H. injection H as <- <-. eauto.
    + simpl. intros H. injection H as <- <-. eauto.
Qed.

(** *** Instances *)

Lemma instance_of_inv (self : ESPnetSTMDSampModel) :
  instance_of imports self ->
  lt_lt 0.0 (asr_weight self) 1.0 = true /\
  le_lt 0.0 (mt_weight self) 1.0 = true /\
  le_lt 0.0 (mtlalpha self) 1.0 = true /\
  ((0.0 <? mtlalpha self)%float = false -> ctc self = None) /\
  ((0.0 <? mtlalpha self)%float = true -> exists c, ctc self = Some c).
Proof.
  intros (vocab & toks & fe & sa & no & pre & enc & enc_mt & post & dec
          & asr_dec & c & kw & built & mode & Hinit & ->).
  unfold __init__ in Hinit.
  destruct (lt_lt 0.0 (kw_asr_weight kw) 1.0) eqn:Ea; [| discriminate].
  destruct (le_lt 0.0 (kw_mt_weight kw) 1.0) eqn:Em; [| discriminate].
  destruct (le_lt 0.0 (kw_mtlalpha kw) 1.0) eqn:El; [| discriminate].
  simpl in Hinit.
  destruct (str_seq_copy toks); [discriminate |].
  destruct (str_seq_copy (kw_src_token_list kw)); [discriminate |].
  simpl in Hinit.
  destruct (kw_report_cer kw || kw_report_wer kw);
    [destruct (new_ASRErrorCalculator imports _ _ _ _ _);
     [discriminate |] |];
    simpl in Hinit; injection Hinit as <-; simpl;
    repeat (split; [assumption |]);
    split; intros ->; eauto.
Qed.

Lemma check_inputs_ok speech spl text tl src_text src_tl b text' src' srcl :
  check_inputs speech spl text tl src_text src_tl = ok (b, text', src', srcl) ->
  size speech 0 = ok b /\
  exists src n m,
    src_text = Some src /\ src_tl = Some srcl /\
    LongTensor.max tl = ok n /\ text' = LongTensor.slice_cols text n /\
    LongTensor.max srcl = ok m /\ src' = LongTensor.slice_cols src m /\
    b = len spl /\ len spl = len text /\ len text = len tl /\
    len text = len src /\ len src = len srcl.
Proof.
  unfold check_inputs. intros H.
  destruct src_text as [src |]; destruct src_tl as [srcl0 |];
    simpl in H; inv_M; try discriminate.
  repeat match goal with
         | H : _ && _ = true |- _ => apply andb_prop in H; destruct H
         | H : (_ =? _)%Z = true |- _ => apply Z.eqb_eq in H
         end.
  split; [assumption |].
  do 3 eexists. repeat (split; [eauto; fail |]).
  repeat split; congruence.
Qed.

Lemma gather_tensor_detached (t : Tensor) :
  requires_grad (gather_tensor (detach t)) = false.
Proof.
  unfold gather_tensor. destruct (dim (detach t) =? 0)%Z.
  - rewrite requires_grad_unsqueeze0. apply requires_grad_detach.
  - apply requires_grad_detach.
Qed.

Ltac calls_simpl :=
  repeat rewrite calls_to_app;
  repeat match goal with
         | Hf : Forall (fun e => ?P (callee_of e) = true) ?d
           |- context [calls_to ?c ?d] =>
             rewrite (@calls_to_none P c d Hf) by (reflexivity || assumption)
         end;
  simpl.

Ltac open_forward Hrun :=
  unfold run, forward in Hrun;
  apply bind_ok in Hrun; destruct Hrun as (loc & log1 & Hasr & Hst);
  apply asr_pass_ok in Hasr; cbv zeta in Hasr;
  destruct Hasr as (Hcheck & d_enc & transcript & tlens & ys_in & ys_out
                    & dec_out & aux1 & d_ctc & Henc & Hfeats & Hsw & Hsos
                    & Hdec & Hcrit & Haux1 & Hctc & Hmt & Hlog1
                    & oa & oc & ow & oct & Hoa & Hoc & How & Hoct);
  apply st_pass_ok in Hst; cbv zeta in Hst;
  destruct Hst as (Hattn & ys_in' & ys_out' & dec_out' & loss_st & acc_st
                   & bleu & aux3 & loss_asr & loss0 & stats0 & Hsos' & Hdec'
                   & Hcrit' & Hloss & Hstats & Hgather & Hlog & Haux3).

(** The CTC branch leaves an int or a tensor in [loss_asr_ctc], and at
    most one invocation of the CTC loss in the log. *)
Lemma ctc_facts (self : ESPnetSTMDSampModel) eo eol src srcl
    (lctc cer : pyval) (d_ctc : list event) :
  (if (0.0 <? mtlalpha self)%float
   then exists c t post,
          ctc self = Some c /\ ctc_loss c eo eol src srcl = ok t /\
          lctc = PyTensor t /\
          d_ctc = [CallCtc eo eol src srcl] ++ post /\
          Forall (fun e => auxiliary (callee_of e) = true) post
   else lctc = PyInt 0 /\ cer = PyNone /\ d_ctc = []) ->
  (lctc = PyInt 0 \/ exists t, lctc = PyTensor t) /\
  (forall c, c <> ModCtc -> auxiliary c = false -> calls_to c d_ctc = []) /\
  calls_to ModCtc d_ctc =
  (if (0.0 <? mtlalpha self)%float then [CallCtc eo eol src srcl] else []).
Proof.
  destruct (0.0 <? mtlalpha self)%float.
  - intros (c & t & post & _ & _ & -> & -> & Hpost).
    split; [eauto |]. split.
    + intros c' Hne Hc'. calls_simpl.
      unfold calls_to. simpl.
      destruct (callee_eqb ModCtc c') eqn:E; [| reflexivity].
      destruct c'; vm_compute in E; try discriminate E. congruence.
    + calls_simpl. reflexivity.
  - intros (-> & _ & ->). auto.
Qed.

Lemma force_gatherable_ok (loss0 : pyval) stats0 (b : Z) loss stats weight :
  force_gatherable (loss0, stats0, PyInt b) = ok (loss, stats, weight) ->
  gather_value loss0 = ok loss /\
  gather_dict stats0 = ok stats /\
  weight = PyLong [b].
Proof.
  unfold force_gatherable. intros H.
  apply rbind_ok in H. destruct H as (loss' & Hl & H).
  apply rbind_ok in H. destruct H as (stats' & Hs & H).
  apply rbind_ok in H. destruct H as (weight' & Hw & H).
  injection H as <- <- <-.
  repeat split; try assumption.
  unfold gather_value in Hw.
  destruct ((- 2 ^ 63 <=? b) && (b <? 2 ^ 63))%Z; [| discriminate].
  now injection Hw as <-.
Qed.

(** *** The loss *)

(** C1: the loss that [forward] returns is the one scalar
    [(1 - asr_weight) * loss_st + asr_weight * loss_asr] (made a tensor of
    one element by [force_gatherable]), where [loss_st] is what the ST
    criterion returned, and [loss_asr] is [loss_asr_att] when the weight [w]
    equals [0.0] and [w * loss_asr_ctc + (1 - w) * loss_asr_att] otherwise,
    with [w = 1.0] under sampling in training mode and [w = mtlalpha] in
    every other pass. *)
Theorem forward_loss_composition (self : ESPnetSTMDSampModel) u
    speech spl text tl src_text src_tl loss stats weight log
    (Hinst : instance_of imports self)
    (Hrun : run (forward imports self u speech spl text tl src_text src_tl)
            = ok (loss, stats, weight, log)) :
  let sampling := training self && (u <? ctc_sample_rate self)%float in
  let w := if sampling then 1.0%float else mtlalpha self in
  exists loss_st loss_asr_att loss_asr : Tensor,
    (exists d y, calls_to ModCriterionSt log = [CallCriterionSt d y] /\
                 criterion_st self d y = ok loss_st) /\
    (exists d y, calls_to ModCriterionAsr log = [CallCriterionAsr d y] /\
                 criterion_asr self d y = ok loss_asr_att) /\
    (if (w =? 0.0)%float
     then loss_asr = loss_asr_att
     else exists c hs hlens ys yl loss_asr_ctc,
            ctc self = Some c /\
            calls_to ModCtc log = [CallCtc hs hlens ys yl] /\
            ctc_loss c hs hlens ys yl = ok loss_asr_ctc /\
            loss_asr = tadd (rmul w loss_asr_ctc)
                            (rmul (1.0 - w) loss_asr_att)) /\
    loss = PyTensor (gather_tensor
                       (tadd (rmul (1.0 - asr_weight self) loss_st)
                             (rmul (asr_weight self) loss_asr))).
Proof.
  intros sampling w. open_forward Hrun. fold sampling in Hsw, Hloss, Hlog1.
  clearbody sampling.
  destruct (instance_of_inv Hinst) as (_ & _ & Halpha & Hnone & _).
  pose proof Hctc as Hfacts. apply ctc_facts in Hfacts.
  destruct Hfacts as (Hlctc & Hother & Hcalls).
  apply (loss_computation_ok _ _ _ _ Hlctc) in Hloss.
  destruct Hloss as (t_asr & -> & -> & Hasr_loss).
  apply force_gatherable_ok in Hgather. destruct Hgather as (Hg & _ & _).
  simpl in Hg. injection Hg as <-.
  assert (Hpre : Forall (fun e => auxiliary (callee_of e) = true)
                   (if sampling then [CallCtcArgmax (l_encoder_out loc)]
                    else [])).
  { destruct sampling; repeat constructor. }
  exists loss_st, (l_loss_asr_att loc), t_asr.
  split.
  { exists dec_out', ys_out'. split; [| assumption].
    subst log log1. calls_simpl. rewrite Hother by (discriminate || reflexivity).
    reflexivity. }
  split.
  { exists dec_out, ys_out. split; [| assumption].
    subst log log1. calls_simpl. rewrite Hother by (discriminate || reflexivity).
    reflexivity. }
  split; [| reflexivity].
  unfold asr_ctc_weight in Hasr_loss. fold w in Hasr_loss.
  destruct (w =? 0.0)%float eqn:Ew; [assumption |].
  assert (Hpos : (0.0 <? mtlalpha self)%float = true).
  { destruct (0.0 <? mtlalpha self)%float eqn:Ep; [reflexivity |].
    unfold w in Ew. destruct sampling.
    - destruct Hsw as (c & raw & Hc & _). rewrite (Hnone eq_refl) in Hc.
      discriminate.
    - rewrite <- Ep. apply float_pos_of_le_ne; [| exact Ew].
      unfold le_lt in Halpha. apply andb_prop in Halpha. tauto. }
  rewrite Hpos in Hctc, Hcalls.
  destruct Hctc as (c & t & post & Hc & Ht & Hl & _).
  rewrite Hl in Hasr_loss.
  exists c, (l_encoder_out loc), (l_encoder_out_lens loc), (l_src_text loc),
    (l_src_text_lengths loc), t.
  split; [assumption |]. split; [| split; [assumption | exact Hasr_loss]].
  subst log log1. calls_simpl. rewrite Hcalls. reflexivity.
Qed.

(** *** The returned triple *)

Lemma gather_value_metric (o : option float) :
  gather_value (of_option_float o) = ok (gathered_metric o).
Proof.
  destruct o; reflexivity.
Qed.

Lemma of_option_float_inj (o o' : option float) :
  of_option_float o = of_option_float o' -> o = o'.
Proof.
  destruct o, o'; simpl; congruence.
Qed.

(** What the three partial losses report beside the loss. *)
Lemma _calc_asr_att_loss_reports (self : ESPnetSTMDSampModel) eo eol ys yl
    log loss acc cer wer hs log' :
  _calc_asr_att_loss imports self eo eol ys yl log
    = inr ((loss, acc, cer, wer, hs), log') ->
  exists ys_in ys_out dec_out flat,
    add_sos_eos imports ys (src_sos self) (src_eos self) (ignore_id self)
      = ok (ys_in, ys_out) /\
    asr_decoder self eo eol ys_in (LongTensor.add_scalar yl 1)
      = ok (dec_out, hs) /\
    view2 dec_out (src_vocab_size self) = ok flat /\
    th_accuracy imports flat ys_out (ignore_id self) = ok acc /\
    match asr_error_calculator self with
    | Some calc =>
        if training self then cer = None /\ wer = None
        else exists yh, argmax_last dec_out = ok yh /\
                        asr_cer_wer calc yh ys = ok (cer, wer)
    | None => cer = None /\ wer = None
    end.
Proof.
  unfold _calc_asr_att_loss. intros H. inv_M.
  do 4 eexists. do 4 (split; [eassumption |]).
  destruct (asr_error_calculator self) as [calc |];
    [destruct (training self) |]; inv_M; eauto.
Qed.

Lemma _calc_mt_att_loss_reports (self : ESPnetSTMDSampModel) mt_out mt_lens
    ys yl sp spl log loss acc bleu log' :
  _calc_mt_att_loss imports self mt_out mt_lens ys yl sp spl log
    = inr ((loss, acc, bleu), log') ->
  exists ys_in ys_out dec_out flat,
    add_sos_eos imports ys (sos self) (eos self) (ignore_id self)
      = ok (ys_in, ys_out) /\
    decoder self mt_out mt_lens ys_in (LongTensor.add_scalar yl 1)
      (if speech_attn self then Some (sp, spl) else None) = ok dec_out /\
    view2 dec_out (vocab_size self) = ok flat /\
    th_accuracy imports flat ys_out (ignore_id self) = ok acc /\
    match mt_error_calculator self with
    | Some calc =>
        if training self then bleu = None
        else exists yh, argmax_last dec_out = ok yh /\ calc yh ys = ok bleu
    | None => bleu = None
    end.
Proof.
  unfold _calc_mt_att_loss. intros H. inv_M.
  do 4 eexists. do 4 (split; [eassumption |]).
  destruct (mt_error_calculator self) as [calc |];
    [destruct (training self) |]; inv_M; eauto.
Qed.

Lemma _calc_ctc_loss_reports (self : ESPnetSTMDSampModel) eo eol ys yl log
    loss cer log' :
  _calc_ctc_loss self eo eol ys yl log = inr ((loss, cer), log') ->
  match asr_error_calculator self with
  | Some calc =>
      if training self then cer = None
      else exists c yh, ctc self = Some c /\ ctc_argmax c eo = ok yh /\
                        asr_cer_ctc calc yh ys = ok cer
  | None => cer = None
  end.
Proof.
  unfold _calc_ctc_loss, get_ctc. intros H.
  destruct (ctc self) as [c |]; [| inv_M; discriminate].
  inv_M.
  destruct (asr_error_calculator self) as [calc |];
    [destruct (training self) |]; simpl in *; inv_M; eauto.
Qed.

(** The metrics that the first part of [forward] leaves in its locals. *)
Lemma asr_pass_reports (self : ESPnetSTMDSampModel) u speech spl text tl
    src_text src_tl l log1 :
  asr_pass imports self u speech spl text tl src_text src_tl []
    = inr (l, log1) ->
  (if training self && (u <? ctc_sample_rate self)%float
   then l_acc_asr_att l = PyNone /\ l_cer_asr_att l = PyNone /\
        l_wer_asr_att l = PyNone
   else exists ys_in ys_out dec_out flat a cer wer,
     add_sos_eos imports (l_src_text l) (src_sos self) (src_eos self)
       (ignore_id self) = ok (ys_in, ys_out) /\
     asr_decoder self (l_encoder_out l) (l_encoder_out_lens l) ys_in
       (LongTensor.add_scalar (l_src_text_lengths l) 1)
       = ok (dec_out, l_hs_dec_asr l) /\
     view2 dec_out (src_vocab_size self) = ok flat /\
     th_accuracy imports flat ys_out (ignore_id self) = ok a /\
     l_acc_asr_att l = PyFloat a /\
     l_cer_asr_att l = of_option_float cer /\
     l_wer_asr_att l = of_option_float wer /\
     match asr_error_calculator self with
     | Some calc =>
         if training self then cer = None /\ wer = None
         else exists yh, argmax_last dec_out = ok yh /\
                         asr_cer_wer calc yh (l_src_text l) = ok (cer, wer)
     | None => cer = None /\ wer = None
     end) /\
  (if (0.0 <? mtlalpha self)%float
   then exists cer,
     l_cer_asr_ctc l = of_option_float cer /\
     match asr_error_calculator self with
     | Some calc =>
         if training self then cer = None
         else exists c yh,
                ctc self = Some c /\
                ctc_argmax c (l_encoder_out l) = ok yh /\
                asr_cer_ctc calc yh (l_src_text l) = ok cer
     | None => cer = None
     end
   else l_cer_asr_ctc l = PyNone).
Proof.
  intros H. unfold asr_pass in H.
  destruct (training self && (u <? ctc_sample_rate self)%float).
  all: inv_M; simpl.
  all: unfold asr_branch, ctc_branch in *.
  all: destruct (0.0 <? mtlalpha self)%float; inv_M; simpl.
  all: repeat match goal with
       | H : _calc_asr_att_loss _ _ _ _ _ _ _ = inr _ |- _ =>
           apply _calc_asr_att_loss_reports in H;
           destruct H as (ys_in & ys_out & dec_out & flat & Hsos & Hdec
                          & Hflat & Hacc & Hcw)
       | H : _calc_ctc_loss _ _ _ _ _ _ = inr _ |- _ =>
           apply _calc_ctc_loss_reports in H
       end.
  all: split;
    [ first [ now auto
            | do 7 eexists; do 4 (split; [eassumption |]);
              do 3 (split; [reflexivity |]); exact Hcw ]
    | first [ reflexivity | eexists; split; [reflexivity | eassumption] ] ].
Qed.

(** [st_pass_ok], with what the ST branch reports. *)
Lemma st_pass_reports (self : ESPnetSTMDSampModel) u tl l log1
    loss stats weight log :
  st_pass imports self u tl l log1 = inr ((loss, stats, weight), log) ->
  let sampling := training self && (u <? ctc_sample_rate self)%float in
  speech_attn self = true /\
  exists ys_in ys_out dec_out loss_st acc_st bleu aux3 loss_asr loss0 stats0
         flat,
    add_sos_eos imports (l_text l) (sos self) (eos self) (ignore_id self)
      = ok (ys_in, ys_out) /\
    decoder self (l_encoder_mt_out l) (l_encoder_mt_out_lens l) ys_in
      (LongTensor.add_scalar tl 1)
      (Some (l_encoder_out l, l_encoder_out_lens l)) = ok dec_out /\
    criterion_st self dec_out ys_out = ok loss_st /\
    loss_computation self sampling loss_st (l_loss_asr_att l)
      (l_loss_asr_ctc l) = ok (loss_asr, loss0) /\
    make_stats loss0 loss_asr loss_st (l_acc_asr_att l) acc_st
      (l_cer_asr_ctc l) (l_cer_asr_att l) (l_wer_asr_att l) bleu
      = ok stats0 /\
    force_gatherable (loss0, stats0, PyInt (l_batch_size l))
      = ok (loss, stats, weight) /\
    log = log1
          ++ [CallDecoder (l_encoder_mt_out l) (l_encoder_mt_out_lens l)
                ys_in (LongTensor.add_scalar tl 1)
                (Some (l_encoder_out l, l_encoder_out_lens l));
              CallCriterionSt dec_out ys_out]
          ++ aux3 /\
    Forall (fun e => auxiliary (callee_of e) = true) aux3 /\
    view2 dec_out (vocab_size self) = ok flat /\
    th_accuracy imports flat ys_out (ignore_id self) = ok acc_st /\
    match mt_error_calculator self with
    | Some calc =>
        if training self then bleu = None
        else exists yh, argmax_last dec_out = ok yh /\
                        calc yh (l_text l) = ok bleu
    | None => bleu = None
    end.
Proof.
  intros H. cbv zeta. unfold st_pass in H.
  set (sampling := training self && (u <? ctc_sample_rate self)%float) in *.
  destruct (bind_speech_out self (l_encoder_out l) (l_encoder_out_lens l))
    as [speech_out speech_lens] eqn:Eb.
  inv_M.
  match goal with
  | H : st_call _ _ _ _ _ _ _ _ _ = inr _ |- _ =>
      unfold st_call, local in H
  end.
  destruct speech_out as [sp |]; [| inv_M; discriminate].
  destruct speech_lens as [spl |]; [| inv_M; discriminate].
  inv_M.
  apply bind_speech_out_some in Eb. destruct Eb as (Hattn & -> & ->).
  match goal with
  | H : _calc_mt_att_loss _ _ _ _ _ _ _ _ _ = inr _ |- _ =>
      pose proof H as Hm;
      apply _calc_mt_att_loss_ok in H;
      destruct H as (ys_in & ys_out & dec_out & aux3 & Hsos & Hdec & Hcrit
                     & Hlog & Haux3 & _);
      apply _calc_mt_att_loss_reports in Hm;
      destruct Hm as (ys_in0 & ys_out0 & dec_out0 & flat & Hsos0 & Hdec0
                      & Hflat & Hacc & Hbleu)
  end.
  rewrite Hsos in Hsos0. injection Hsos0 as <- <-.
  rewrite Hdec in Hdec0. injection Hdec0 as <-.
  rewrite Hattn in *. subst.
  split; [reflexivity |].
  do 11 eexists.
  do 6 (split; [eassumption |]).
  split; [reflexivity |]. split; [assumption |].
  split; [eassumption |]. split; [eassumption |]. exact Hbleu.
Qed.

(** C7: a forward pass that returns yields [(loss, stats, weight)] where
    [loss] is the combined objective, [weight] the batch size
    [speech.shape[0]], and [stats] the dictionary with the keys [loss],
    [loss_asr], [loss_st], whose values are detached from the autograd
    graph, followed by the metrics of the pass, each a float or [None]:
    [acc_asr], the accuracy of the ASR decoder output against the reference
    transcript ([None] in a sampling pass); [acc], the accuracy of the ST
    decoder output against the translation; [cer_ctc], [cer], [wer] and
    [bleu], what the error calculators return in evaluation mode for the
    argmax outputs, and [None] in training mode or without calculator. *)
Theorem forward_returns_triple (self : ESPnetSTMDSampModel) u
    speech spl text tl src_text src_tl loss stats weight log
    (Hrun : run (forward imports self u speech spl text tl src_text src_tl)
            = ok (loss, stats, weight, log)) :
  let sampling := training self && (u <? ctc_sample_rate self)%float in
  exists (batch_size : Z) (t_loss t_asr t_st : Tensor)
         (acc_asr acc cer_ctc cer wer bleu : option float)
         text' src' srcl eo eol d_enc mt_out mt_lens ys_in' d y,
    size speech 0 = ok batch_size /\
    weight = PyLong [batch_size] /\
    calls_to ModCriterionSt log = [CallCriterionSt d y] /\
    criterion_st self d y = ok t_st /\
    t_loss = tadd (rmul (1.0 - asr_weight self) t_st)
                  (rmul (asr_weight self) t_asr) /\
    loss = PyTensor (gather_tensor t_loss) /\
    stats = [("loss", PyTensor (gather_tensor (detach t_loss)));
             ("loss_asr", PyTensor (gather_tensor (detach t_asr)));
             ("loss_st", PyTensor (gather_tensor (detach t_st)));
             ("acc_asr", gathered_metric acc_asr);
             ("acc", gathered_metric acc);
             ("cer_ctc", gathered_metric cer_ctc);
             ("cer", gathered_metric cer);
             ("wer", gathered_metric wer);
             ("bleu", gathered_metric bleu)]%string /\
    requires_grad (gather_tensor (detach t_loss)) = false /\
    requires_grad (gather_tensor (detach t_asr)) = false /\
    requires_grad (gather_tensor (detach t_st)) = false /\
    check_inputs speech spl text tl src_text src_tl
      = ok (batch_size, text', src', srcl) /\
    encode self speech spl [] = ok (eo, eol, d_enc) /\
    (if sampling
     then acc_asr = None /\ cer = None /\ wer = None
     else exists ys_in ys_out dec_out hs flat a,
       add_sos_eos imports src' (src_sos self) (src_eos self)
         (ignore_id self) = ok (ys_in, ys_out) /\
       asr_decoder self eo eol ys_in
         (map (fun z => LongTensor.wrap64 (z + 1)) srcl) = ok (dec_out, hs) /\
       view2 dec_out (src_vocab_size self) = ok flat /\
       th_accuracy imports flat ys_out (ignore_id self) = ok a /\
       acc_asr = Some a /\
       match asr_error_calculator self with
       | Some calc =>
           if training self then cer = None /\ wer = None
           else exists yh, argmax_last dec_out = ok yh /\
                           asr_cer_wer calc yh src' = ok (cer, wer)
       | None => cer = None /\ wer = None
       end) /\
    (if (0.0 <? mtlalpha self)%float
     then match asr_error_calculator self with
          | Some calc =>
              if training self then cer_ctc = None
              else exists c yh,
                     ctc self = Some c /\ ctc_argmax c eo = ok yh /\
                     asr_cer_ctc calc yh src' = ok cer_ctc
          | None => cer_ctc = None
          end
     else cer_ctc = None) /\
    add_sos_eos imports text' (sos self) (eos self) (ignore_id self)
      = ok (ys_in', y) /\
    decoder self mt_out mt_lens ys_in'
      (map (fun z => LongTensor.wrap64 (z + 1)) tl) (Some (eo, eol)) = ok d /\
    exists flat' a',
      view2 d (vocab_size self) = ok flat' /\
      th_accuracy imports flat' y (ignore_id self) = ok a' /\
      acc = Some a' /\
      match mt_error_calculator self with
      | Some calc =>
          if training self then bleu = None
          else exists yh, argmax_last d = ok yh /\ calc yh text' = ok bleu
      | None => bleu = None
      end.
Proof.
  intros sampling. unfold run, forward in Hrun.
  apply bind_ok in Hrun. destruct Hrun as (loc & log1 & Hasr & Hst).
  pose proof Hasr as Hrep. apply asr_pass_reports in Hrep.
  fold sampling in Hrep. destruct Hrep as (Hrep_att & Hrep_ctc).
  apply asr_pass_ok in Hasr. cbv zeta in Hasr.
  destruct Hasr as (Hcheck & d_enc & transcript & tlens & ys_in & ys_out
                    & dec_out & aux1 & d_ctc & Henc & Hfeats & Hsw & Hsos
                    & Hdec & Hcrit & Haux1 & Hctc & Hmt & Hlog1
                    & oa & oc & ow & oct & Hoa & Hoc & How & Hoct).
  apply st_pass_reports in Hst. cbv zeta in Hst.
  destruct Hst as (Hattn & ys_in' & ys_out' & dec_out' & loss_st & acc_st
                   & bleu & aux3 & loss_asr & loss0 & stats0 & flat'
                   & Hsos' & Hdec' & Hcrit' & Hloss & Hstats & Hgather
                   & Hlog & Haux3 & Hflat' & Hacc' & Hbleu).
  pose proof Hctc as Hfacts. apply ctc_facts in Hfacts.
  destruct Hfacts as (Hlctc & Hother & Hcalls).
  apply (loss_computation_ok _ _ _ _ Hlctc) in Hloss.
  destruct Hloss as (t_asr & -> & -> & _).
  apply force_gatherable_ok in Hgather. destruct Hgather as (Hg & Hd & ->).
  simpl in Hg. injection Hg as <-.
  pose proof Hcheck as Hsize. apply check_inputs_ok in Hsize.
  destruct Hsize as (Hsize & _).
  unfold make_stats in Hstats. simpl in Hstats. injection Hstats as <-.
  rewrite Hoa, Hoc, How, Hoct in Hd.
  change (PyFloat acc_st) with (of_option_float (Some acc_st)) in Hd.
  simpl gather_dict in Hd. rewrite !gather_value_metric in Hd.
  simpl in Hd. injection Hd as <-.
  exists (l_batch_size loc),
    (tadd (rmul (1.0 - asr_weight self) loss_st) (rmul (asr_weight self) t_asr)),
    t_asr, loss_st, oa, (Some acc_st), oct, oc, ow, bleu,
    (l_text loc), (l_src_text loc), (l_src_text_lengths loc),
    (l_encoder_out loc), (l_encoder_out_lens loc), d_enc,
    (l_encoder_mt_out loc), (l_encoder_mt_out_lens loc), ys_in',
    dec_out', ys_out'.
  split; [assumption |]. split; [reflexivity |].
  split.
  { assert (Hpre : Forall (fun e => auxiliary (callee_of e) = true)
                     (if training self && (u <? ctc_sample_rate self)%float
                      then [CallCtcArgmax (l_encoder_out loc)] else [])).
    { destruct (training self && (u <? ctc_sample_rate self)%float);
        repeat constructor. }
    subst log log1. calls_simpl.
    rewrite Hother by (discriminate || reflexivity). reflexivity. }
  split; [assumption |].
  split; [reflexivity |]. split; [reflexivity |]. split; [reflexivity |].
  do 3 (split; [apply gather_tensor_detached |]).
  split; [exact Hcheck |]. split; [exact Henc |].
  split.
  { destruct sampling.
    - destruct Hrep_att as (E1 & E2 & E3).
      rewrite E1 in Hoa. rewrite E2 in Hoc. rewrite E3 in How.
      destruct oa; [discriminate |]. destruct oc; [discriminate |].
      destruct ow; [discriminate |]. auto.
    - destruct Hrep_att as (ys_in0 & ys_out0 & dec_out0 & flat & a & cer
                            & wer & H1 & H2 & H3 & H4 & E1 & E2 & E3 & Hcw).
      rewrite Hoa in E1. rewrite Hoc in E2. rewrite How in E3.
      change (PyFloat a) with (of_option_float (Some a)) in E1.
      apply of_option_float_inj in E1, E2, E3. subst oa oc ow.
      exists ys_in0, ys_out0, dec_out0, (l_hs_dec_asr loc), flat, a.
      do 4 (split; [assumption |]). split; [reflexivity | exact Hcw]. }
  split.
  { destruct (0.0 <? mtlalpha self)%float.
    - destruct Hrep_ctc as (cer & E & Hc). rewrite Hoct in E.
      apply of_option_float_inj in E. subst oct. exact Hc.
    - rewrite Hoct in Hrep_ctc.
      destruct oct; [discriminate | reflexivity]. }
  split; [exact Hsos' |]. split; [exact Hdec' |].
  exists flat', acc_st. split; [exact Hflat' |]. split; [exact Hacc' |].
  split; [reflexivity | exact Hbleu].
Qed.

(** The statistics that leave [forward], from those that [make_stats]
    collected. *)
Lemma returned_stats (self : ESPnetSTMDSampModel) (sampling : bool)
    loss_st la lctc loss_asr loss0 oa acc_st oct oc ow bleu stats0 b
    loss stats weight :
  (lctc = PyInt 0 \/ exists t, lctc = PyTensor t) ->
  loss_computation self sampling loss_st la lctc = ok (loss_asr, loss0) ->
  make_stats loss0 loss_asr loss_st (of_option_float oa) acc_st
    (of_option_float oct) (of_option_float oc) (of_option_float ow) bleu
    = ok stats0 ->
  force_gatherable (loss0, stats0, PyInt b) = ok (loss, stats, weight) ->
  exists t_loss t_asr,
    stats = [("loss", PyTensor (gather_tensor (detach t_loss)));
             ("loss_asr", PyTensor (gather_tensor (detach t_asr)));
             ("loss_st", PyTensor (gather_tensor (detach loss_st)));
             ("acc_asr", gathered_metric oa);
             ("acc", gathered_metric (Some acc_st));
             ("cer_ctc", gathered_metric oct);
             ("cer", gathered_metric oc);
             ("wer", gathered_metric ow);
             ("bleu", gathered_metric bleu)]%string.
Proof.
  intros Hlctc Hloss Hstats Hgather.
  apply (loss_computation_ok _ _ _ _ Hlctc) in Hloss.
  destruct Hloss as (t_asr & -> & -> & _).
  apply force_gatherable_ok in Hgather. destruct Hgather as (_ & Hd & _).
  unfold make_stats in Hstats. simpl in Hstats. injection Hstats as <-.
  change (PyFloat acc_st) with (of_option_float (Some acc_st)) in Hd.
  simpl gather_dict in Hd. rewrite !gather_value_metric in Hd.
  simpl in Hd. injection Hd as <-.
  do 2 eexists. reflexivity.
Qed.

(** *** Teacher forcing and sampling *)

(** C2: the draw [u] decides, in training mode, which transcript the ASR
    decoder and the MT encoder see.  With [u < ctc_sample_rate] it is the
    transcript [ys_hat] sampled from the CTC output, with lengths
    [ys_hat_lens + 1], and [acc_asr], [cer], [wer] are [None]; otherwise,
    and in evaluation mode whatever [u] is, it is the reference [src_text]
    (cut to its longest sequence) with lengths [src_text_lengths + 1].  The
    lengths [lens_in] that the two modules receive are those of the
    transcript, each increased by one in 64-bit arithmetic. *)
Theorem sampling_switch (self : ESPnetSTMDSampModel) u
    speech spl text tl src_text src_tl loss stats weight log
    (Hrun : run (forward imports self u speech spl text tl src_text src_tl)
            = ok (loss, stats, weight, log)) :
  let sampling := training self && (u <? ctc_sample_rate self)%float in
  exists src srcl m eo eol d_enc transcript tlens lens_in
         ys_in ys_out dec_out hs,
    src_text = Some src /\ src_tl = Some srcl /\
    LongTensor.max srcl = ok m /\
    encode self speech spl [] = ok (eo, eol, d_enc) /\
    (if sampling
     then exists c raw,
            ctc self = Some c /\ ctc_argmax c eo = ok raw /\
            CtcSample.sample raw (LongTensor.slice_cols src m)
              = ok (transcript, tlens) /\
            dict_get stats "acc_asr" = Some PyNone /\
            dict_get stats "cer" = Some PyNone /\
            dict_get stats "wer" = Some PyNone
     else transcript = LongTensor.slice_cols src m /\ tlens = srcl) /\
    add_sos_eos imports transcript (src_sos self) (src_eos self)
      (ignore_id self) = ok (ys_in, ys_out) /\
    lens_in = map (fun z => LongTensor.wrap64 (z + 1)) tlens /\
    (Forall (fun z => (- 2 ^ 63 <= z < 2 ^ 63 - 1)%Z) tlens ->
     lens_in = map (fun z => (z + 1)%Z) tlens) /\
    calls_to ModAsrDecoder log = [CallAsrDecoder eo eol ys_in lens_in] /\
    asr_decoder self eo eol ys_in lens_in = ok (dec_out, hs) /\
    calls_to ModCriterionAsr log = [CallCriterionAsr dec_out ys_out] /\
    calls_to ModEncoderMt log = [CallEncoderMt hs lens_in] /\
    (training self = false ->
     transcript = LongTensor.slice_cols src m /\ tlens = srcl).
Proof.
  intros sampling. open_forward Hrun. fold sampling in Hsw, Hloss, Hlog1.
  pose proof Hctc as Hfacts. apply ctc_facts in Hfacts.
  destruct Hfacts as (Hlctc & Hother & Hcalls).
  rewrite Hoa, Hoc, How, Hoct in Hstats.
  pose proof Hgather as Hst.
  eapply returned_stats in Hst; [| eassumption ..].
  destruct Hst as (t_loss & t_asr & Hst).
  apply check_inputs_ok in Hcheck.
  destruct Hcheck as (_ & src & n & m & -> & -> & _ & _ & Hm & Hsrc & _).
  assert (Hpre : Forall (fun e => auxiliary (callee_of e) = true)
                   (if sampling then [CallCtcArgmax (l_encoder_out loc)]
                    else [])).
  { destruct sampling; repeat constructor. }
  exists src, (l_src_text_lengths loc), m, (l_encoder_out loc),
    (l_encoder_out_lens loc), d_enc, transcript, tlens,
    (LongTensor.add_scalar tlens 1), ys_in, ys_out,
    dec_out, (l_hs_dec_asr loc).
  rewrite <- Hsrc.
  do 4 (split; [first [reflexivity | assumption] |]).
  split.
  { destruct sampling; [| assumption].
    destruct Hsw as (c & raw & Hc & Hraw & Hsample & Ha & Hc' & Hw).
    exists c, raw. do 3 (split; [assumption |]).
    rewrite Ha in Hoa. rewrite Hc' in Hoc. rewrite Hw in How.
    destruct oa; [discriminate |]. destruct oc; [discriminate |].
    destruct ow; [discriminate |].
    rewrite Hst. repeat split; reflexivity. }
  split; [assumption |].
  split; [reflexivity |].
  split; [apply succ_lengths_small |].
  split.
  { subst log log1. calls_simpl.
    rewrite Hother by (discriminate || reflexivity). reflexivity. }
  split; [assumption |].
  split.
  { subst log log1. calls_simpl.
    rewrite Hother by (discriminate || reflexivity). reflexivity. }
  split.
  { subst log log1. calls_simpl.
    rewrite Hother by (discriminate || reflexivity). reflexivity. }
  intros Htr. unfold sampling in Hsw. rewrite Htr in Hsw. exact Hsw.
Qed.

(** *** The route through the two decoders *)

(** C5, as the code has it: the ASR decoder is invoked once, on the output
    [encoder_out] of the speech encoder and the sos/eos-augmented transcript
    with lengths [ys_pad_lens + 1]; the MT encoder once, on the hidden
    states [hs_dec_asr] that this invocation returned; the ST decoder once,
    with the output of the MT encoder as its memory and the sos/eos-augmented
    translation with lengths [text_lengths + 1]; the ST loss is the
    criterion on its output.  Under [speech_attn] the ST decoder is handed
    two further arguments, which in [forward] are [encoder_out] and its
    lengths; without [speech_attn], [_calc_mt_att_loss] calls it with the
    four arguments alone. *)
Theorem decoder_routing (self : ESPnetSTMDSampModel) :
  (forall u speech spl text tl src_text src_tl loss stats weight log,
     run (forward imports self u speech spl text tl src_text src_tl)
       = ok (loss, stats, weight, log) ->
     exists eo eol d_enc transcript tlens lens_in ys_in ys_out dec_out hs
            mt_out mt_lens n lens_st ys_in' ys_out' dec_out' loss_st,
       encode self speech spl [] = ok (eo, eol, d_enc) /\
       add_sos_eos imports transcript (src_sos self) (src_eos self)
         (ignore_id self) = ok (ys_in, ys_out) /\
       lens_in = map (fun z => LongTensor.wrap64 (z + 1)) tlens /\
       calls_to ModAsrDecoder log = [CallAsrDecoder eo eol ys_in lens_in] /\
       asr_decoder self eo eol ys_in lens_in = ok (dec_out, hs) /\
       calls_to ModEncoderMt log = [CallEncoderMt hs lens_in] /\
       encoder_mt self hs lens_in = ok (mt_out, mt_lens) /\
       LongTensor.max tl = ok n /\
       add_sos_eos imports (LongTensor.slice_cols text n) (sos self)
         (eos self) (ignore_id self) = ok (ys_in', ys_out') /\
       lens_st = map (fun z => LongTensor.wrap64 (z + 1)) tl /\
       calls_to ModDecoder log
         = [CallDecoder mt_out mt_lens ys_in' lens_st
              (if speech_attn self then Some (eo, eol) else None)] /\
       decoder self mt_out mt_lens ys_in' lens_st
         (if speech_attn self then Some (eo, eol) else None) = ok dec_out' /\
       calls_to ModCriterionSt log = [CallCriterionSt dec_out' ys_out'] /\
       criterion_st self dec_out' ys_out' = ok loss_st /\
       dict_get stats "loss_st"
         = Some (PyTensor (gather_tensor (detach loss_st)))) /\
  (forall mt_out mt_lens ys yl sp spl lg r lg',
     _calc_mt_att_loss imports self mt_out mt_lens ys yl sp spl lg
       = ok (r, lg') ->
     exists ys_in ys_out dec_out,
       add_sos_eos imports ys (sos self) (eos self) (ignore_id self)
         = ok (ys_in, ys_out) /\
       calls_to ModDecoder lg'
         = calls_to ModDecoder lg
           ++ [CallDecoder mt_out mt_lens ys_in
                 (map (fun z => LongTensor.wrap64 (z + 1)) yl)
                 (if speech_attn self then Some (sp, spl) else None)] /\
       decoder self mt_out mt_lens ys_in
         (map (fun z => LongTensor.wrap64 (z + 1)) yl)
         (if speech_attn self then Some (sp, spl) else None) = ok dec_out).
Proof.
  split.
  - intros u speech spl text tl src_text src_tl loss stats weight log Hrun.
    open_forward Hrun.
    pose proof Hctc as Hfacts. apply ctc_facts in Hfacts.
    destruct Hfacts as (Hlctc & Hother & Hcalls).
    rewrite Hoa, Hoc, How, Hoct in Hstats.
    pose proof Hgather as Hst.
    eapply returned_stats in Hst; [| eassumption ..].
    destruct Hst as (t_loss & t_asr & Hst).
    apply check_inputs_ok in Hcheck.
    destruct Hcheck as (_ & src & n & m & _ & _ & Hn & Htext & _).
    assert (Hpre : Forall (fun e => auxiliary (callee_of e) = true)
                     (if training self && (u <? ctc_sample_rate self)%float
                      then [CallCtcArgmax (l_encoder_out loc)] else [])).
    { destruct (training self && (u <? ctc_sample_rate self)%float);
        repeat constructor. }
    exists (l_encoder_out loc), (l_encoder_out_lens loc), d_enc, transcript,
      tlens, (LongTensor.add_scalar tlens 1), ys_in, ys_out, dec_out,
      (l_hs_dec_asr loc), (l_encoder_mt_out loc),
      (l_encoder_mt_out_lens loc), n, (LongTensor.add_scalar tl 1),
      ys_in', ys_out', dec_out', loss_st.
    rewrite <- Htext. rewrite Hattn.
    assert (Hlogs : forall c, c <> ModCtc -> auxiliary c = false ->
                    feats_stage c = false ->
                    calls_to c log =
                    calls_to c
                      [CallAsrDecoder (l_encoder_out loc)
                         (l_encoder_out_lens loc)
                         ys_in (LongTensor.add_scalar tlens 1);
                       CallCriterionAsr dec_out ys_out;
                       CallEncoderMt (l_hs_dec_asr loc)
                         (LongTensor.add_scalar tlens 1);
                       CallDecoder (l_encoder_mt_out loc)
                         (l_encoder_mt_out_lens loc) ys_in'
                         (LongTensor.add_scalar tl 1)
                         (Some (l_encoder_out loc, l_encoder_out_lens loc));
                       CallCriterionSt dec_out' ys_out']).
    { intros c Hc Ha Hf. subst log log1. calls_simpl.
      rewrite (Hother c Hc Ha). unfold calls_to. simpl.
      repeat match goal with
             | |- context [if ?b then _ else _] => destruct b
             end; reflexivity. }
    repeat (split; [first [assumption
                          | reflexivity
                          | rewrite Hlogs by (discriminate || reflexivity);
                            reflexivity] |]).
    rewrite Hst. reflexivity.
  - intros mt_out mt_lens ys yl sp spl lg [[loss acc] bleu] lg' Hcalc.
    apply _calc_mt_att_loss_ok in Hcalc.
    destruct Hcalc as (ys_in & ys_out & dec_out & post & Hsos & Hdec & _
                       & -> & Hpost & _).
    exists ys_in, ys_out, dec_out.
    split; [exact Hsos |]. split; [| exact Hdec].
    calls_simpl. rewrite ?app_nil_r. reflexivity.
Qed.

(** *** The CTC branch *)

(** C6: an instance holds a [ctc] attribute exactly when [mtlalpha > 0].
    With [mtlalpha = 0] the branch does nothing and leaves the int [0] in
    [loss_asr_ctc] and [None] in [cer_asr_ctc].  A pass that returns has
    invoked the CTC loss, once and on [encoder_out] and [src_text], if
    [mtlalpha > 0], and not at all otherwise, in which case it reports
    [cer_ctc] as [None]. *)
Theorem ctc_branch_iff (self : ESPnetSTMDSampModel)
    (Hinst : instance_of imports self) :
  (ctc self = None <-> (0.0 <? mtlalpha self)%float = false) /\
  ((mtlalpha self =? 0.0)%float = true ->
   ctc self = None /\
   forall eo eol src srcl lg,
     ctc_branch self eo eol src srcl lg = ok (PyInt 0, PyNone, lg)) /\
  forall u speech spl text tl src_text src_tl loss stats weight log,
    run (forward imports self u speech spl text tl src_text src_tl)
      = ok (loss, stats, weight, log) ->
    exists src srcl m eo eol d_enc,
      src_text = Some src /\ src_tl = Some srcl /\
      LongTensor.max srcl = ok m /\
      encode self speech spl [] = ok (eo, eol, d_enc) /\
      if (0.0 <? mtlalpha self)%float
      then exists c t,
             ctc self = Some c /\
             calls_to ModCtc log
               = [CallCtc eo eol (LongTensor.slice_cols src m) srcl] /\
             ctc_loss c eo eol (LongTensor.slice_cols src m) srcl = ok t
      else calls_to ModCtc log = [] /\
           dict_get stats "cer_ctc" = Some PyNone.
Proof.
  destruct (instance_of_inv Hinst) as (_ & _ & _ & Hnone & Hsome).
  split; [| split].
  - split; [| exact Hnone].
    intros Hc. destruct (0.0 <? mtlalpha self)%float; [| reflexivity].
    destruct (Hsome eq_refl) as (c & Hc'). congruence.
  - intros Hz. apply float_not_pos_of_zero in Hz.
    split; [auto |]. intros. unfold ctc_branch. rewrite Hz. reflexivity.
  - intros u speech spl text tl src_text src_tl loss stats weight log Hrun.
    open_forward Hrun.
    pose proof Hctc as Hfacts. apply ctc_facts in Hfacts.
    destruct Hfacts as (Hlctc & Hother & Hcalls).
    rewrite Hoa, Hoc, How, Hoct in Hstats.
    pose proof Hgather as Hst.
    eapply returned_stats in Hst; [| eassumption ..].
    destruct Hst as (t_loss & t_asr & Hst).
    apply check_inputs_ok in Hcheck.
    destruct Hcheck as (_ & src & n & m & -> & -> & _ & _ & Hm & Hsrc & _).
    assert (Hpre : Forall (fun e => auxiliary (callee_of e) = true)
                     (if training self && (u <? ctc_sample_rate self)%float
                      then [CallCtcArgmax (l_encoder_out loc)] else [])).
    { destruct (training self && (u <? ctc_sample_rate self)%float);
        repeat constructor. }
    exists src, (l_src_text_lengths loc), m, (l_encoder_out loc),
      (l_encoder_out_lens loc), d_enc.
    rewrite <- Hsrc.
    do 4 (split; [first [reflexivity | assumption] |]).
    assert (Hlog_ctc : calls_to ModCtc log = calls_to ModCtc d_ctc).
    { subst log log1. calls_simpl. now rewrite !app_nil_r. }
    rewrite Hlog_ctc, Hcalls.
    destruct (0.0 <? mtlalpha self)%float.
    + destruct Hctc as (c & t & post & Hc & Ht & _). exists c, t. auto.
    + split; [reflexivity |].
      destruct Hctc as (_ & Hcer & _). rewrite Hcer in Hoct.
      destruct oct; [discriminate |]. rewrite Hst. reflexivity.
Qed.

(** *** [speech_attn] *)

Lemma init_speech_attn
    (vocab : Z) (toks : str_seq)
    (fe sa no pre : option FeatsModule) (enc enc_mt : FeatsModule)
    (post : option FeatsModule) (dec : STDecoder) (asr_dec : ASRDecoder)
    (c : CTC) (kw : init_kwargs) built :
  __init__ imports vocab toks fe sa no pre enc enc_mt post dec asr_dec c kw
    = ok built ->
  speech_attn built = kw_speech_attn kw.
Proof.
  unfold __init__.
  destruct (lt_lt 0.0 (kw_asr_weight kw) 1.0); [| discriminate].
  destruct (le_lt 0.0 (kw_mt_weight kw) 1.0); [| discriminate].
  destruct (le_lt 0.0 (kw_mtlalpha kw) 1.0); [| discriminate].
  simpl.
  destruct (str_seq_copy toks); [discriminate |].
  destruct (str_seq_copy (kw_src_token_list kw)); [discriminate |].
  simpl.
  destruct (kw_report_cer kw || kw_report_wer kw);
    [destruct (new_ASRErrorCalculator imports _ _ _ _ _);
     [discriminate |] |];
    simpl; intros H; injection H as <-; reflexivity.
Qed.

(** C3: [forward] returns only if [speech_attn] is set.  Without it, which
    is the default of the constructor, [speech_out] and [speech_lens] stay
    unbound on every input, the call that computes the ST attention loss
    raises [UnboundLocalError], a [NameError], in whatever state it is
    reached, no input makes [forward] return, a pass that gets through
    the ASR part ends with that exception, and any other exception that
    [forward] raises comes from the ASR part. *)
Theorem forward_needs_speech_attn (self : ESPnetSTMDSampModel) :
  (forall u speech spl text tl src_text src_tl out,
      run (forward imports self u speech spl text tl src_text src_tl) = ok out ->
      speech_attn self = true) /\
  (speech_attn self = false ->
   (forall eo eol, bind_speech_out self eo eol = (None, None)) /\
   (forall mt_out mt_lens text tl lg,
       st_call imports self mt_out mt_lens text tl None None lg
       = raise (UnboundLocalError "speech_out")) /\
   isinstance_NameError (UnboundLocalError "speech_out") = true /\
   (forall u speech spl text tl src_text src_tl,
       returns (run (forward imports self u speech spl text tl
                       src_text src_tl)) = false) /\
   (forall u speech spl text tl src_text src_tl loc log1,
       asr_pass imports self u speech spl text tl src_text src_tl []
       = ok (loc, log1) ->
       run (forward imports self u speech spl text tl src_text src_tl)
       = raise (UnboundLocalError "speech_out")) /\
   (forall u speech spl text tl src_text src_tl e,
       run (forward imports self u speech spl text tl src_text src_tl)
       = raise e ->
       e = UnboundLocalError "speech_out" \/
       asr_pass imports self u speech spl text tl src_text src_tl []
       = raise e)) /\
  kw_speech_attn default_kwargs = false /\
  (forall vocab toks fe sa no pre enc enc_mt post dec asr_dec c kw built,
      __init__ imports vocab toks fe sa no pre enc enc_mt post dec asr_dec
        c kw = ok built ->
      speech_attn built = kw_speech_attn kw).
Proof.
  assert (Hreturns :
            forall u speech spl text tl src_text src_tl out,
              run (forward imports self u speech spl text tl src_text src_tl)
              = ok out ->
              speech_attn self = true).
  { intros u speech spl text tl src_text src_tl [[[loss stats] weight] log]
      Hrun.
    open_forward Hrun. exact Hattn. }
  split; [exact Hreturns |].
  split; [| split; [reflexivity | intros; eapply init_speech_attn; eauto]].
  intros Hoff.
  assert (Hreach :
            forall u speech spl text tl src_text src_tl loc log1,
              asr_pass imports self u speech spl text tl src_text src_tl []
              = ok (loc, log1) ->
              run (forward imports self u speech spl text tl src_text src_tl)
              = raise (UnboundLocalError "speech_out")).
  { intros u speech spl text tl src_text src_tl loc log1 Hasr.
    unfold run, forward. erewrite bind_step by exact Hasr.
    unfold st_pass, bind_speech_out. rewrite Hoff. reflexivity. }
  split; [intros; unfold bind_speech_out; now rewrite Hoff |].
  split; [reflexivity |]. split; [reflexivity |].
  split; [| split].
  - intros u speech spl text tl src_text src_tl.
    destruct (run (forward imports self u speech spl text tl src_text src_tl))
      as [e | out] eqn:E; [reflexivity |].
    apply Hreturns in E. congruence.
  - intros u speech spl text tl src_text src_tl loc log1 Hasr.
    eapply Hreach, Hasr.
  - intros u speech spl text tl src_text src_tl e Hrun.
    destruct (asr_pass imports self u speech spl text tl src_text src_tl [])
      as [e' | [loc log1]] eqn:Hasr.
    + right. unfold run, forward in Hrun.
      erewrite bind_fails in Hrun by exact Hasr.
      injection Hrun as <-. reflexivity.
    + left. erewrite Hreach in Hrun by exact Hasr.
      now injection Hrun as <-.
Qed.

(** *** The sampled transcript *)

(** C4: in the sampling branch the transcript of every element of the batch
    comes from the greedy CTC output [ctc.argmax(encoder_out)] by collapsing
    the runs of equal tokens and removing every blank 0; an element left
    empty gets its reference [src_text[i]] with every -1 removed; the
    lengths before padding are [ys_hat_lens]; the batch is padded on the
    right with -1 to the longest transcript.  This transcript, with the
    lengths [ys_hat_lens + 1], is what the ASR decoder is given. *)
Theorem sampled_transcript (self : ESPnetSTMDSampModel)
    eo eol src srcl lg r lg'
    (Hbranch : asr_branch imports self true eo eol src srcl lg = ok (r, lg')) :
  exists c raw ys_hat ys_hat_lens ts,
    ctc self = Some c /\ ctc_argmax c eo = ok raw /\
    CtcSample.sample raw src = ok (ys_hat, ys_hat_lens) /\
    length ts = length raw /\
    (forall i ys,
        nth_error raw i = Some ys ->
        exists t,
          nth_error ts i = Some t /\
          match remove Z.eq_dec 0%Z (CtcSample.collapse ys) with
          | [] => exists row, nth_error src i = Some row /\
                              t = remove Z.eq_dec (-1)%Z row
          | toks => t = toks
          end) /\
    (forall ys, CtcSample.no_repeat (CtcSample.collapse ys)) /\
    ys_hat_lens = map (fun t => Z.of_nat (length t)) ts /\
    ys_hat = map (fun t => t ++ repeat (-1)%Z
                               (list_max (map (@length Z) ts) - length t)) ts /\
    Forall (fun row => length row = list_max (map (@length Z) ts)) ys_hat /\
    exists ys_in ys_out,
      add_sos_eos imports ys_hat (src_sos self) (src_eos self) (ignore_id self)
        = ok (ys_in, ys_out) /\
      In (CallAsrDecoder eo eol ys_in
            (map (fun z => LongTensor.wrap64 (z + 1)) ys_hat_lens)) lg' /\
      (Forall (fun z => (z < 2 ^ 63 - 1)%Z) ys_hat_lens ->
       map (fun z => LongTensor.wrap64 (z + 1)) ys_hat_lens
       = map (fun t => (Z.of_nat (length t) + 1)%Z) ts).
Proof.
  destruct r as [[[[[loss acc] cer] wer] hs] yhl].
  apply asr_branch_ok in Hbranch.
  destruct Hbranch as (ys_hat & ys_hat_lens & ys_in & ys_out & dec_out & post
                       & (c & raw & Hc & Hraw & Hsample & _)
                       & Hsos & _ & _ & Hlog & _).
  pose proof (sample_refines raw src) as Href.
  pose proof Hsample as Hspec. rewrite Href in Hspec.
  unfold CtcSample.sample_spec in Hspec.
  apply rbind_ok in Hspec. destruct Hspec as (ts & Hts & Hpad).
  destruct ts as [| t0 ts']; [discriminate |].
  injection Hpad as <- <-.
  exists c, raw, (CtcSample.right_pad (-1) (t0 :: ts')),
    (map (fun t => Z.of_nat (length t)) (t0 :: ts')), (t0 :: ts').
  do 3 (split; [first [assumption | reflexivity] |]).
  split; [eapply transcripts_spec_length; eassumption |].
  split.
  { intros i ys Hi.
    destruct (transcripts_spec_nth _ _ _ Hts _ Hi) as (t & Hn & Ht).
    exists t. split; [assumption |]. simpl in Ht.
    unfold CtcSample.transcript_spec in Ht.
    rewrite <- filter_blank_remove.
    destruct (CtcSample.filter_blank (CtcSample.collapse ys)) as [| y tk].
    - destruct (nth_error src i) as [row |]; [| discriminate].
      injection Ht as <-. exists row. split; [reflexivity |].
      apply strip_ignore_remove.
    - now injection Ht as <-. }
  split; [intros ys; apply no_repeat_collapse |].
  split; [reflexivity |]. split; [reflexivity |].
  split; [apply right_pad_rectangular |].
  exists ys_in, ys_out. split; [assumption |].
  split.
  - rewrite Hlog. apply in_or_app. right. simpl. auto.
  - intros Hsmall. rewrite succ_lengths_small.
    + now rewrite map_map.
    + rewrite Forall_forall in *. intros z Hz. specialize (Hsmall z Hz).
      apply in_map_iff in Hz. destruct Hz as (t & <- & _). lia.
Qed.

(** *** The speech encoder and the statistics of the features *)

Lemma apply_optional_stage (m : option FeatsModule) (enabled : bool)
    (ev : Tensor -> list Z -> event) feats lens log r log' :
  apply_optional m enabled ev feats lens log = inr (r, log') ->
  exists d, log' = log ++ d /\
            map callee_of d = stage m enabled (callee_of (ev feats lens)).
Proof.
  intros H. unfold apply_optional, stage in *.
  destruct m as [f |]; [destruct enabled |]; inv_M.
  - eexists. split; reflexivity.
  - exists []. now rewrite app_nil_r.
  - exists []. now rewrite app_nil_r.
Qed.

Ltac inv_stage :=
  repeat match goal with
  | H : apply_optional _ _ _ _ _ _ = inr _ |- _ =>
      apply apply_optional_stage in H; destruct H as (? & ? & ?); subst
  end.

Lemma encode_stages_log (self : ESPnetSTMDSampModel) speech speech_lengths
    log r log' :
  encode self speech speech_lengths log = inr (r, log') ->
  exists d, log' = log ++ d /\ map callee_of d = encode_stages self.
Proof.
  unfold encode, _extract_feats. intros H. inv_M. inv_stage.
  eexists. split.
  - repeat rewrite <- app_assoc. reflexivity.
  - unfold encode_stages. rewrite !map_app.
    repeat match goal with E : map callee_of _ = _ |- _ =>
      rewrite E; clear E end.
    reflexivity.
Qed.

(** X1: when [encode] returns, the encoder output has the batch size of
    [speech], its time dimension does not exceed the longest output length,
    and neither [speech_lengths] nor the output lengths are empty. *)
Theorem encode_postconditions (self : ESPnetSTMDSampModel)
    speech speech_lengths log encoder_out encoder_out_lens log'
    (Hencode : encode self speech speech_lengths log
               = inr ((encoder_out, encoder_out_lens), log')) :
  exists b n1 m,
    size speech 0 = ok b /\ size encoder_out 0 = ok b /\
    size encoder_out 1 = ok n1 /\
    LongTensor.max encoder_out_lens = ok m /\ (n1 <= m)%Z /\
    speech_lengths <> [] /\ encoder_out_lens <> [].
Proof.
  unfold encode, _extract_feats in Hencode. inv_M.
  repeat match goal with
  | H : (_ =? _)%Z = true |- _ => apply Z.eqb_eq in H
  | H : (_ <=? _)%Z = true |- _ => apply Z.leb_le in H
  end.
  subst. do 3 eexists.
  repeat (split; [eassumption |]).
  split; intros ->; simpl in *; discriminate.
Qed.

(** X2: a call of [encode] that returns has invoked, in this order and
    once each, the frontend, SpecAug, the normalisation and the pre-encoder
    (each only if the model has it; SpecAug only in training mode), then the
    encoder, then the post-encoder if the model has one, and nothing else. *)
Theorem encode_stage_order (self : ESPnetSTMDSampModel)
    speech speech_lengths log r log'
    (Hencode : encode self speech speech_lengths log = inr (r, log')) :
  exists d,
    log' = log ++ d /\
    map callee_of d =
      stage (frontend self) true ModFrontend
      ++ stage (specaug self) (training self) ModSpecaug
      ++ stage (normalize self) true ModNormalize
      ++ stage (preencoder self) true ModPreencoder
      ++ [ModEncoder]
      ++ stage (postencoder self) true ModPostencoder /\
    length (calls_to ModEncoder d) = 1%nat /\
    (training self = false -> calls_to ModSpecaug d = []).
Proof.
  apply encode_stages_log in Hencode. destruct Hencode as (d & -> & Hd).
  exists d. split; [reflexivity |]. split; [exact Hd |].
  assert (Hcount : forall c,
    length (calls_to c d)
    = length (filter (fun c' => callee_eqb c' c) (map callee_of d))).
  { intros c. unfold calls_to. clear Hd.
    induction d as [| ev d IH]; [reflexivity |]. simpl.
    destruct (callee_eqb (callee_of ev) c); simpl; now rewrite IH. }
  split.
  - rewrite Hcount, Hd. unfold encode_stages, stage.
    destruct (frontend self), (specaug self), (training self),
      (normalize self), (preencoder self), (postencoder self); reflexivity.
  - intros Htr. apply length_zero_iff_nil. rewrite Hcount, Hd.
    unfold encode_stages. rewrite Htr. unfold stage.
    destruct (frontend self), (specaug self),
      (normalize self), (preencoder self), (postencoder self); reflexivity.
Qed.

(** X3: [collect_feats] never reads the texts.  With
    [extract_feats_in_collect_stats] false it returns [speech] and
    [speech_lengths] as they are, calls nothing and cannot fail; with the
    flag true it returns what [_extract_feats] returns, so that it raises
    [RuntimeError] on empty [speech_lengths] and, without a frontend,
    returns [speech] cut to the longest length. *)
Theorem collect_feats_stats (self : ESPnetSTMDSampModel)
    speech speech_lengths text text_lengths src_text src_text_lengths log :
  (forall text' text_lengths' src_text' src_text_lengths',
     collect_feats self speech speech_lengths text text_lengths
       src_text src_text_lengths log
     = collect_feats self speech speech_lengths text' text_lengths'
         src_text' src_text_lengths' log) /\
  (extract_feats_in_collect_stats self = false ->
   collect_feats self speech speech_lengths text text_lengths
     src_text src_text_lengths log
   = ok ([("feats", inl speech); ("feats_lengths", inr speech_lengths)]%string,
         log)) /\
  (extract_feats_in_collect_stats self = true ->
   (forall e, _extract_feats self speech speech_lengths log = raise e ->
      collect_feats self speech speech_lengths text text_lengths
        src_text src_text_lengths log = raise e) /\
   (forall feats feats_lengths log',
      _extract_feats self speech speech_lengths log
      = ok (feats, feats_lengths, log') ->
      collect_feats self speech speech_lengths text text_lengths
        src_text src_text_lengths log
      = ok ([("feats", inl feats); ("feats_lengths", inr feats_lengths)]%string,
            log')) /\
   (speech_lengths = [] ->
    exists msg,
      collect_feats self speech speech_lengths text text_lengths
        src_text src_text_lengths log = raise (RuntimeError msg)) /\
   (frontend self = None ->
    forall n cut,
      LongTensor.max speech_lengths = ok n ->
      slice_time speech n = ok cut ->
      collect_feats self speech speech_lengths text text_lengths
        src_text src_text_lengths log
      = ok ([("feats", inl cut); ("feats_lengths", inr speech_lengths)]%string,
            log))).
Proof.
  split; [reflexivity |]. split.
  - intros E. unfold collect_feats. rewrite E. reflexivity.
  - intros E. unfold collect_feats. rewrite E.
    split; [| split; [| split]].
    + intros e He. now apply bind_fails.
    + intros feats feats_lengths log' Hf.
      unfold ok in Hf. erewrite bind_step by exact Hf. reflexivity.
    + intros ->. eexists. reflexivity.
    + intros Hfe n cut Hn Hcut.
      unfold _extract_feats, bind, lift, apply_optional, ret.
      simpl. rewrite Hn. simpl. rewrite Hcut. simpl. rewrite Hfe.
      reflexivity.
Qed.

(** *** The checks on the batch *)

Lemma forward_check_fails (self : ESPnetSTMDSampModel) u
    speech spl text tl src srcl e :
  check_inputs speech spl text tl src srcl = raise e ->
  run (forward imports self u speech spl text tl src srcl) = raise e.
Proof.
  intros H. unfold run, forward, asr_pass, bind, lift. now rewrite H.
Qed.

Lemma forward_check_ok (self : ESPnetSTMDSampModel) u
    speech spl text tl src srcl r :
  run (forward imports self u speech spl text tl src srcl) = ok r ->
  exists c, check_inputs speech spl text tl src srcl = ok c.
Proof.
  unfold run, forward, asr_pass. intros H. inv_M. eauto.
Qed.

Lemma check_inputs_batch speech spl text tl src_text src_tl c :
  check_inputs speech spl text tl src_text src_tl = ok c ->
  exists b src srcl,
    src_text = Some src /\ src_tl = Some srcl /\
    size speech 0 = ok b /\ (0 < b)%Z /\
    len spl = b /\ len text = b /\ len tl = b /\
    len src = b /\ len srcl = b.
Proof.
  unfold check_inputs. intros H.
  destruct src_text as [src |]; [| inv_M; discriminate].
  destruct src_tl as [srcl |]; [| inv_M; discriminate].
  inv_M.
  repeat match goal with
  | H : (_ && _)%bool = true |- _ => apply andb_prop in H; destruct H
  | H : (_ =? _)%Z = true |- _ => apply Z.eqb_eq in H
  end.
  match goal with H : size speech 0 = inr ?b |- _ => exists b end.
  do 2 eexists. split; [reflexivity |]. split; [reflexivity |].
  assert (Htl : tl <> []).
  { intros ->. simpl in *. discriminate. }
  assert (0 < len tl)%Z.
  { unfold len. destruct tl; [contradiction | simpl; lia]. }
  repeat split; try assumption; try congruence; lia.
Qed.

(** X4: [forward] returns only on a non-empty batch whose six inputs agree
    on the batch size and with a source text.  Sizes that differ raise
    [AssertionError], as does [src_text = None]; an empty batch raises the
    [RuntimeError] of [max()] on an empty tensor instead; in each case no
    sub-module has been called, whatever the model is. *)
Theorem forward_input_checks (self : ESPnetSTMDSampModel) u
    speech speech_lengths text text_lengths src_text src_text_lengths :
  (forall r,
     run (forward imports self u speech speech_lengths text text_lengths
            src_text src_text_lengths) = ok r ->
     exists b src srcl,
       src_text = Some src /\ src_text_lengths = Some srcl /\
       size speech 0 = ok b /\ (0 < b)%Z /\
       len speech_lengths = b /\ len text = b /\ len text_lengths = b /\
       len src = b /\ len srcl = b) /\
  (forall b,
     size speech 0 = ok b ->
     (b <> len speech_lengths \/ len speech_lengths <> len text \/
      len text <> len text_lengths) ->
     run (forward imports self u speech speech_lengths text text_lengths
            src_text src_text_lengths)
     = raise (AssertionError
         "speech.shape, speech_lengths.shape, text.shape, text_lengths.shape")) /\
  (forall b,
     size speech 0 = ok b ->
     b = len speech_lengths -> b = len text -> b = len text_lengths ->
     (src_text = None ->
      run (forward imports self u speech speech_lengths text text_lengths
             src_text src_text_lengths)
      = raise (AssertionError "missing source text for asr sub-task of ST")) /\
     (forall src srcl,
        src_text = Some src -> src_text_lengths = Some srcl ->
        (len src <> b \/ len srcl <> b) ->
        run (forward imports self u speech speech_lengths text text_lengths
               src_text src_text_lengths)
        = raise (AssertionError
            "text.shape, src_text.shape, src_text_lengths.shape")) /\
     (forall src srcl,
        src_text = Some src -> src_text_lengths = Some srcl ->
        len src = b -> len srcl = b -> b = 0%Z ->
        exists msg,
          run (forward imports self u speech speech_lengths text text_lengths
                 src_text src_text_lengths) = raise (RuntimeError msg))).
Proof.
  split; [| split].
  - intros r Hr. apply forward_check_ok in Hr. destruct Hr as (c & Hc).
    eapply check_inputs_batch. exact Hc.
  - intros b Hb Hne. apply forward_check_fails.
    unfold check_inputs. simpl. rewrite Hb. simpl.
    assert (E : ((b =? len speech_lengths)%Z
                 && (len speech_lengths =? len text)%Z
                 && (len text =? len text_lengths)%Z) = false).
    { destruct Hne as [H | [H | H]]; apply Z.eqb_neq in H; rewrite H;
        rewrite ?andb_false_r; reflexivity. }
    rewrite E. reflexivity.
  - intros b Hb H1 H2 H3.
    assert (E : ((b =? len speech_lengths)%Z
                 && (len speech_lengths =? len text)%Z
                 && (len text =? len text_lengths)%Z) = true).
    { rewrite <- H1, <- H2, <- H3. now rewrite Z.eqb_refl. }
    split; [| split].
    + intros ->. apply forward_check_fails.
      unfold check_inputs. simpl. rewrite Hb. simpl. rewrite E. reflexivity.
    + intros src srcl -> -> Hne. apply forward_check_fails.
      unfold check_inputs. simpl. rewrite Hb. simpl. rewrite E. simpl.
      assert (E' : ((len text =? len src)%Z && (len src =? len srcl)%Z)
                   = false).
      { rewrite <- H2. destruct (Z.eqb_spec b (len src)) as [Eb |];
          [| reflexivity].
        rewrite andb_true_l. apply Z.eqb_neq. destruct Hne; lia. }
      rewrite E'. reflexivity.
    + intros src srcl -> -> Hs Hl H0.
      assert (Htl : text_lengths = []).
      { unfold len in H3. destruct text_lengths; [reflexivity |].
        simpl in H3. lia. }
      eexists. apply forward_check_fails.
      unfold check_inputs. simpl. rewrite Hb. simpl. rewrite E. simpl.
      assert (E' : ((len text =? len src)%Z && (len src =? len srcl)%Z)
                   = true).
      { rewrite <- H2, Hs, Hl. now rewrite Z.eqb_refl. }
      rewrite E'. simpl. rewrite Htl. reflexivity.
Qed.

Lemma slice_to_prefix {A} (row : list A) (n : Z) :
  exists rest, row = slice_to row n ++ rest.
Proof.
  unfold slice_to. destruct (n <? 0)%Z; eexists; symmetry; apply firstn_skipn.
Qed.

Lemma slice_to_all {A} (row : list A) (n : Z) :
  (len row <= n)%Z -> slice_to row n = row.
Proof.
  unfold slice_to, len. intros H.
  destruct (Z.ltb_spec n 0); [lia |].
  apply firstn_all2. lia.
Qed.

Lemma slice_to_length {A} (row : list A) (n : Z) :
  (0 <= n)%Z -> (len (slice_to row n) <= n)%Z.
Proof.
  unfold slice_to, len. intros H.
  destruct (Z.ltb_spec n 0); [lia |].
  rewrite length_firstn. lia.
Qed.

Lemma slice_cols_all (t : list (list Z)) (n : Z) :
  Forall (fun row => (len row <= n)%Z) t -> LongTensor.slice_cols t n = t.
Proof.
  unfold LongTensor.slice_cols. induction 1 as [| row t Hrow _ IH];
    [reflexivity |].
  simpl. now rewrite slice_to_all, IH.
Qed.

Lemma slice_cols_prefix (t : list (list Z)) (n : Z) :
  Forall2 (fun row row' => exists rest, row = row' ++ rest)
    t (LongTensor.slice_cols t n).
Proof.
  unfold LongTensor.slice_cols.
  induction t as [| row t IH]; constructor;
    [apply slice_to_prefix | assumption].
Qed.

(** X5: the cut "for data-parallel" of lines 193-195 keeps the number of
    rows of [text] and of [src_text], replaces each row by its prefix of the
    longest length, and changes nothing when no row is longer than that. *)
Theorem check_inputs_truncation
    speech speech_lengths text text_lengths src srcl b text' src' srcl'
    (Hcheck : check_inputs speech speech_lengths text text_lengths
                (Some src) (Some srcl) = ok (b, text', src', srcl')) :
  exists n m,
    LongTensor.max text_lengths = ok n /\ LongTensor.max srcl = ok m /\
    srcl' = srcl /\
    text' = map (fun row => slice_to row n) text /\
    src' = map (fun row => slice_to row m) src /\
    Forall2 (fun row row' => exists rest, row = row' ++ rest) text text' /\
    Forall2 (fun row row' => exists rest, row = row' ++ rest) src src' /\
    (0 <= n -> Forall (fun row => len row <= n) text')%Z /\
    (0 <= m -> Forall (fun row => len row <= m) src')%Z /\
    (Forall (fun row => len row <= n)%Z text -> text' = text) /\
    (Forall (fun row => len row <= m)%Z src -> src' = src).
Proof.
  unfold check_inputs in Hcheck. inv_M.
  do 2 eexists.
  split; [eassumption |]. split; [eassumption |].
  split; [reflexivity |]. split; [reflexivity |]. split; [reflexivity |].
  split; [apply slice_cols_prefix |].
  split; [apply slice_cols_prefix |].
  split; [| split; [| split]].
  - intros Hn. apply Forall_map, Forall_forall. intros row _.
    now apply slice_to_length.
  - intros Hm. apply Forall_map, Forall_forall. intros row _.
    now apply slice_to_length.
  - apply slice_cols_all.
  - apply slice_cols_all.
Qed.

(** *** The order of the invocations and the metrics *)

Lemma calls_to_callees (c : callee) (log : list event) :
  map callee_of (calls_to c log)
  = filter (fun c' => callee_eqb c' c) (map callee_of log).
Proof.
  unfold calls_to. induction log as [| ev log IH]; [reflexivity |].
  simpl. destruct (callee_eqb (callee_of ev) c); simpl; now rewrite IH.
Qed.

Lemma encode_stages_no (self : ESPnetSTMDSampModel) (c : callee) :
  feats_stage c = false ->
  filter (fun c' => callee_eqb c' c) (encode_stages self) = [].
Proof.
  intros Hc. unfold encode_stages, stage.
  destruct (frontend self), (specaug self), (training self),
    (normalize self), (preencoder self), (postencoder self);
    destruct c; try discriminate Hc; reflexivity.
Qed.

Lemma _calc_asr_att_loss_callees (self : ESPnetSTMDSampModel) eo eol ys yl
    log loss acc cer wer hs log' :
  _calc_asr_att_loss imports self eo eol ys yl log
    = inr ((loss, acc, cer, wer, hs), log') ->
  (reports_asr self = false -> cer = None /\ wer = None) /\
  exists d, log' = log ++ d /\
            map callee_of d =
              [ModAsrDecoder; ModCriterionAsr]
              ++ (if reports_asr self then [ModAsrErrorCalculator] else []).
Proof.
  unfold _calc_asr_att_loss, reports_asr. intros H. inv_M.
  destruct (asr_error_calculator self) as [calc |];
    [destruct (training self) |]; inv_M;
    (split; [intros; auto; discriminate |]);
    eexists; (split; [log_eq |]); rewrite ?andb_false_r; reflexivity.
Qed.

Lemma _calc_mt_att_loss_callees (self : ESPnetSTMDSampModel) mt_out mt_lens
    ys yl sp spl log loss acc bleu log' :
  _calc_mt_att_loss imports self mt_out mt_lens ys yl sp spl log
    = inr ((loss, acc, bleu), log') ->
  (reports_mt self = false -> bleu = None) /\
  exists d, log' = log ++ d /\
            map callee_of d =
              [ModDecoder; ModCriterionSt]
              ++ (if reports_mt self then [ModMtErrorCalculator] else []).
Proof.
  unfold _calc_mt_att_loss, reports_mt. intros H. inv_M.
  destruct (mt_error_calculator self) as [calc |];
    [destruct (training self) |]; inv_M;
    (split; [intros; auto; discriminate |]);
    eexists; (split; [log_eq |]); rewrite ?andb_false_r; reflexivity.
Qed.

Lemma _calc_ctc_loss_callees (self : ESPnetSTMDSampModel) eo eol ys yl log
    loss cer log' :
  _calc_ctc_loss self eo eol ys yl log = inr ((loss, cer), log') ->
  (reports_asr self = false -> cer = None) /\
  exists d, log' = log ++ d /\
            map callee_of d =
              ModCtc :: (if reports_asr self
                         then [ModCtcArgmax; ModAsrErrorCalculator] else []).
Proof.
  unfold _calc_ctc_loss, reports_asr. intros H. inv_M.
  destruct (asr_error_calculator self) as [calc |];
    [destruct (training self) |]; simpl in *; inv_M;
    (split; [intros; auto; discriminate |]);
    eexists; (split; [log_eq |]); rewrite ?andb_false_r; reflexivity.
Qed.

Lemma asr_pass_callees (self : ESPnetSTMDSampModel) u speech spl text tl
    src_text src_tl l log1 :
  asr_pass imports self u speech spl text tl src_text src_tl []
    = inr (l, log1) ->
  (reports_asr self = false ->
   l_cer_asr_att l = PyNone /\ l_wer_asr_att l = PyNone /\
   l_cer_asr_ctc l = PyNone) /\
  map callee_of log1 =
    encode_stages self
    ++ (if training self && (u <? ctc_sample_rate self)%float
        then [ModCtcArgmax] else [])
    ++ [ModAsrDecoder; ModCriterionAsr]
    ++ (if reports_asr self then [ModAsrErrorCalculator] else [])
    ++ (if (0.0 <? mtlalpha self)%float
        then ModCtc :: (if reports_asr self
                        then [ModCtcArgmax; ModAsrErrorCalculator] else [])
        else [])
    ++ [ModEncoderMt].
Proof.
  intros H. unfold asr_pass in H.
  assert (Hs : training self && (u <? ctc_sample_rate self)%float = true ->
               reports_asr self = false).
  { intros Hs. apply andb_prop in Hs. destruct Hs as [Htr _].
    unfold reports_asr. now rewrite Htr. }
  destruct (training self && (u <? ctc_sample_rate self)%float) eqn:Es.
  all: inv_M; simpl.
  all: match goal with
       | H : encode _ _ _ _ = inr _ |- _ =>
           apply encode_stages_log in H;
           destruct H as (d_enc & Hd & Henc); simpl in Hd; subst
       end.
  all: unfold asr_branch, ctc_branch, mt_encoder_branch in *.
  all: destruct (0.0 <? mtlalpha self)%float; inv_M.
  all: repeat match goal with
       | H : _calc_asr_att_loss _ _ _ _ _ _ _ = inr _ |- _ =>
           apply _calc_asr_att_loss_callees in H;
           destruct H as (? & ? & ? & ?)
       | H : _calc_ctc_loss _ _ _ _ _ _ = inr _ |- _ =>
           apply _calc_ctc_loss_callees in H;
           destruct H as (? & ? & ? & ?)
       end.
  all: subst; simpl.
  all: try rewrite (Hs eq_refl) in *.
  all: split;
    [ intros Hq;
      repeat match goal with
      | H : ?P -> _, Hq' : ?P |- _ => specialize (H Hq')
      | H : _ /\ _ |- _ => destruct H
      end; subst; auto
    | rewrite !map_app;
      repeat match goal with E : map callee_of _ = _ |- _ =>
        rewrite E; clear E end;
      simpl; rewrite <- ?app_assoc; simpl; try reflexivity ].
Qed.

Lemma make_stats_entries (loss loss_asr : pyval) (loss_st : Tensor)
    a1 a2 c1 c2 c3 bleu stats0 :
  make_stats loss loss_asr loss_st a1 a2 c1 c2 c3 bleu = ok stats0 ->
  exists s1 s2 s3,
    stats0 = [("loss", s1); ("loss_asr", s2); ("loss_st", s3);
              ("acc_asr", a1); ("acc", PyFloat a2); ("cer_ctc", c1);
              ("cer", c2); ("wer", c3);
              ("bleu", of_option_float bleu)]%string.
Proof.
  unfold make_stats. intros H. inv_M. eauto.
Qed.

Lemma st_pass_callees (self : ESPnetSTMDSampModel) u tl l log1
    loss stats weight log :
  st_pass imports self u tl l log1 = inr ((loss, stats, weight), log) ->
  exists s1 s2 s3 a1 a2 c1 c2 c3 bl d,
    stats = [("loss", s1); ("loss_asr", s2); ("loss_st", s3);
             ("acc_asr", a1); ("acc", a2); ("cer_ctc", c1);
             ("cer", c2); ("wer", c3); ("bleu", bl)]%string /\
    gather_value (l_cer_asr_ctc l) = ok c1 /\
    gather_value (l_cer_asr_att l) = ok c2 /\
    gather_value (l_wer_asr_att l) = ok c3 /\
    log = log1 ++ d /\
    map callee_of d =
      [ModDecoder; ModCriterionSt]
      ++ (if reports_mt self then [ModMtErrorCalculator] else []) /\
    (reports_mt self = false -> bl = PyNone).
Proof.
  intros H. unfold st_pass in H.
  destruct (bind_speech_out self (l_encoder_out l) (l_encoder_out_lens l))
    as [speech_out speech_lens].
  inv_M.
  match goal with
  | H : make_stats _ _ _ _ _ _ _ _ _ = inr _ |- _ =>
      apply make_stats_entries in H; destruct H as (s1 & s2 & s3 & ->)
  end.
  match goal with
  | H : force_gatherable _ = inr _ |- _ =>
      apply force_gatherable_ok in H; destruct H as (_ & Hd & _)
  end.
  simpl in Hd. inv_M.
  unfold st_call, local in *.
  destruct speech_out as [sp |]; [| inv_M; discriminate].
  destruct speech_lens as [spl |]; [| inv_M; discriminate].
  inv_M.
  match goal with
  | H : _calc_mt_att_loss _ _ _ _ _ _ _ _ _ = inr _ |- _ =>
      apply _calc_mt_att_loss_callees in H;
      destruct H as (Hbleu & d & Hlog & Hd)
  end.
  do 10 eexists. split; [reflexivity |].
  do 3 (split; [eassumption |]).
  split; [exact Hlog |]. split; [exact Hd |].
  intros Hq. rewrite (Hbleu Hq) in *. simpl in *. unfold ok in *. congruence.
Qed.

Lemma forward_callees (self : ESPnetSTMDSampModel) u
    speech spl text tl src_text src_tl loss stats weight log :
  run (forward imports self u speech spl text tl src_text src_tl)
    = ok (loss, stats, weight, log) ->
  map callee_of log =
    encode_stages self
    ++ (if training self && (u <? ctc_sample_rate self)%float
        then [ModCtcArgmax] else [])
    ++ [ModAsrDecoder; ModCriterionAsr]
    ++ (if reports_asr self then [ModAsrErrorCalculator] else [])
    ++ (if (0.0 <? mtlalpha self)%float
        then ModCtc :: (if reports_asr self
                        then [ModCtcArgmax; ModAsrErrorCalculator] else [])
        else [])
    ++ [ModEncoderMt; ModDecoder; ModCriterionSt]
    ++ (if reports_mt self then [ModMtErrorCalculator] else []).
Proof.
  intros Hrun. unfold run, forward in Hrun.
  apply bind_ok in Hrun. destruct Hrun as (loc & log1 & Hasr & Hst).
  apply asr_pass_callees in Hasr. destruct Hasr as (_ & Hlog1).
  apply st_pass_callees in Hst.
  destruct Hst as (s1 & s2 & s3 & a1 & a2 & c1 & c2 & c3 & bl & d & _ & _
                   & _ & _ & -> & Hd & _).
  rewrite map_app, Hlog1, Hd. rewrite <- !app_assoc. reflexivity.
Qed.

(** X6: a pass that returns has invoked, in this order and nothing else:
    the stages of [encode]; [ctc.argmax] when the pass samples; the ASR
    decoder and its criterion, then the ASR error calculator in a reporting
    pass; when [mtlalpha > 0] the CTC loss, then in a reporting pass
    [ctc.argmax] and the ASR error calculator again; the MT encoder; the ST
    decoder and its criterion, then the MT error calculator in a reporting
    pass.  In training mode no error calculator runs, and the encoder, the
    two decoders and the MT encoder run once each in every pass. *)
Theorem pass_order (self : ESPnetSTMDSampModel) u
    speech spl text tl src_text src_tl loss stats weight log
    (Hrun : run (forward imports self u speech spl text tl src_text src_tl)
            = ok (loss, stats, weight, log)) :
  map callee_of log =
    encode_stages self
    ++ (if training self && (u <? ctc_sample_rate self)%float
        then [ModCtcArgmax] else [])
    ++ [ModAsrDecoder; ModCriterionAsr]
    ++ (if reports_asr self then [ModAsrErrorCalculator] else [])
    ++ (if (0.0 <? mtlalpha self)%float
        then ModCtc :: (if reports_asr self
                        then [ModCtcArgmax; ModAsrErrorCalculator] else [])
        else [])
    ++ [ModEncoderMt; ModDecoder; ModCriterionSt]
    ++ (if reports_mt self then [ModMtErrorCalculator] else []) /\
  (training self = true ->
   map callee_of log =
     encode_stages self
     ++ (if (u <? ctc_sample_rate self)%float then [ModCtcArgmax] else [])
     ++ [ModAsrDecoder; ModCriterionAsr]
     ++ (if (0.0 <? mtlalpha self)%float then [ModCtc] else [])
     ++ [ModEncoderMt; ModDecoder; ModCriterionSt]) /\
  (forall c,
     In c [ModEncoder; ModAsrDecoder; ModEncoderMt; ModDecoder] ->
     length (calls_to c log) = 1%nat).
Proof.
  pose proof Hrun as Hlog. apply forward_callees in Hlog.
  split; [exact Hlog |]. split.
  - intros Htr. rewrite Hlog. unfold reports_asr, reports_mt.
    rewrite Htr. simpl.
    destruct (0.0 <? mtlalpha self)%float; now rewrite ?app_nil_r.
  - intros c Hc.
    rewrite <- (length_map callee_of), calls_to_callees, Hlog.
    unfold encode_stages, stage. rewrite !filter_app.
    simpl in Hc.
    destruct Hc as [<- | [<- | [<- | [<- | []]]]];
      destruct (frontend self), (specaug self), (training self),
        (normalize self), (preencoder self), (postencoder self),
        (u <? ctc_sample_rate self)%float, (reports_asr self),
        (reports_mt self), (0.0 <? mtlalpha self)%float; reflexivity.
Qed.

(** X7: the error rates and the BLEU score need evaluation mode and the
    calculator.  In training mode, or without an ASR error calculator,
    [cer], [wer] and [cer_ctc] are [None] and that calculator is never
    called; otherwise it is called once after the ASR decoder and once more
    after the CTC loss when [mtlalpha > 0].  In training mode, or without an
    MT error calculator, [bleu] is [None] and that calculator is never
    called; otherwise it is called once. *)
Theorem metrics_need_evaluation (self : ESPnetSTMDSampModel) u
    speech spl text tl src_text src_tl loss stats weight log
    (Hrun : run (forward imports self u speech spl text tl src_text src_tl)
            = ok (loss, stats, weight, log)) :
  (training self = true \/ asr_error_calculator self = None ->
   dict_get stats "cer" = Some PyNone /\
   dict_get stats "wer" = Some PyNone /\
   dict_get stats "cer_ctc" = Some PyNone /\
   calls_to ModAsrErrorCalculator log = []) /\
  (training self = false -> asr_error_calculator self <> None ->
   length (calls_to ModAsrErrorCalculator log)
   = if (0.0 <? mtlalpha self)%float then 2%nat else 1%nat) /\
  (training self = true \/ mt_error_calculator self = None ->
   dict_get stats "bleu" = Some PyNone /\
   calls_to ModMtErrorCalculator log = []) /\
  (training self = false -> mt_error_calculator self <> None ->
   length (calls_to ModMtErrorCalculator log) = 1%nat).
Proof.
  pose proof Hrun as Hlog. apply forward_callees in Hlog.
  assert (Hcount : forall c,
    feats_stage c = false ->
    length (calls_to c log)
    = length (filter (fun c' => callee_eqb c' c)
        ((if training self && (u <? ctc_sample_rate self)%float
          then [ModCtcArgmax] else [])
         ++ [ModAsrDecoder; ModCriterionAsr]
         ++ (if reports_asr self then [ModAsrErrorCalculator] else [])
         ++ (if (0.0 <? mtlalpha self)%float
             then ModCtc :: (if reports_asr self
                             then [ModCtcArgmax; ModAsrErrorCalculator]
                             else [])
             else [])
         ++ [ModEncoderMt; ModDecoder; ModCriterionSt]
         ++ (if reports_mt self then [ModMtErrorCalculator] else [])))).
  { intros c Hc.
    rewrite <- (length_map callee_of), calls_to_callees, Hlog.
    rewrite filter_app, encode_stages_no by exact Hc. reflexivity. }
  assert (Hasr_off : training self = true \/ asr_error_calculator self = None
                     -> reports_asr self = false).
  { unfold reports_asr. intros [-> | ->]; [reflexivity | apply andb_false_r]. }
  assert (Hmt_off : training self = true \/ mt_error_calculator self = None
                    -> reports_mt self = false).
  { unfold reports_mt. intros [-> | ->]; [reflexivity | apply andb_false_r]. }
  unfold run, forward in Hrun.
  apply bind_ok in Hrun. destruct Hrun as (loc & log1 & Hasr & Hst).
  apply asr_pass_callees in Hasr. destruct Hasr as (Hnone & _).
  apply st_pass_callees in Hst.
  destruct Hst as (s1 & s2 & s3 & a1 & a2 & c1 & c2 & c3 & bl & d & -> & Hc1
                   & Hc2 & Hc3 & Hlogd & _ & Hbl).
  split; [| split; [| split]].
  - intros Hq. apply Hasr_off in Hq.
    destruct (Hnone Hq) as (E2 & E3 & E1).
    rewrite E1 in Hc1. rewrite E2 in Hc2. rewrite E3 in Hc3.
    simpl in Hc1, Hc2, Hc3.
    injection Hc1 as <-. injection Hc2 as <-. injection Hc3 as <-.
    repeat (split; [reflexivity |]).
    apply length_zero_iff_nil. rewrite Hcount by reflexivity. rewrite Hq.
    destruct (training self && (u <? ctc_sample_rate self)%float),
      (0.0 <? mtlalpha self)%float, (reports_mt self); reflexivity.
  - intros Htr Hcalc.
    assert (Hon : reports_asr self = true).
    { unfold reports_asr. rewrite Htr.
      destruct (asr_error_calculator self); [reflexivity | contradiction]. }
    rewrite Hcount by reflexivity. rewrite Hon, Htr. simpl.
    destruct (0.0 <? mtlalpha self)%float, (reports_mt self); reflexivity.
  - intros Hq. apply Hmt_off in Hq. rewrite (Hbl Hq).
    split; [reflexivity |].
    apply length_zero_iff_nil. rewrite Hcount by reflexivity. rewrite Hq.
    destruct (training self && (u <? ctc_sample_rate self)%float),
      (0.0 <? mtlalpha self)%float, (reports_asr self); reflexivity.
  - intros Htr Hcalc.
    assert (Hon : reports_mt self = true).
    { unfold reports_mt. rewrite Htr.
      destruct (mt_error_calculator self); [reflexivity | contradiction]. }
    rewrite Hcount by reflexivity. rewrite Hon, Htr. simpl.
    destruct (0.0 <? mtlalpha self)%float, (reports_asr self); reflexivity.
Qed.

(** *** The draw, and sampling without a CTC module *)

(** X8: [forward] reads the draw [u] only through the test
    [u < ctc_sample_rate], and only in training mode: in evaluation mode
    every draw gives the same outcome (returned triple or exception, and
    the same invocations), and in training mode so do two draws on the same
    side of [ctc_sample_rate]. *)
Theorem forward_reads_draw (self : ESPnetSTMDSampModel) u u'
    speech spl text tl src_text src_tl
    (Hsame : training self = false \/
             (u <? ctc_sample_rate self)%float
             = (u' <? ctc_sample_rate self)%float) :
  run (forward imports self u speech spl text tl src_text src_tl)
  = run (forward imports self u' speech spl text tl src_text src_tl).
Proof.
  assert (E : training self && (u <? ctc_sample_rate self)%float
              = training self && (u' <? ctc_sample_rate self)%float).
  { destruct Hsame as [-> | ->]; reflexivity. }
  unfold run, forward, asr_pass, st_pass. cbv zeta. rewrite E. reflexivity.
Qed.

(** X9: a model built with [mtlalpha] not above [0.0] has no [ctc]
    attribute, so that a training pass whose draw selects sampling never
    returns: once the checks on the batch and [encode] have passed it raises
    [AttributeError] at [self.ctc.argmax]. *)
Theorem sampling_needs_ctc (self : ESPnetSTMDSampModel) u
    speech spl text tl src_text src_tl
    (Hinst : instance_of imports self)
    (Halpha : (0.0 <? mtlalpha self)%float = false)
    (Htrain : training self = true)
    (Hdraw : (u <? ctc_sample_rate self)%float = true) :
  (forall r,
     run (forward imports self u speech spl text tl src_text src_tl)
     <> ok r) /\
  (forall c eo eol d,
     check_inputs speech spl text tl src_text src_tl = ok c ->
     encode self speech spl [] = ok (eo, eol, d) ->
     run (forward imports self u speech spl text tl src_text src_tl)
     = raise (AttributeError "ctc")).
Proof.
  apply instance_of_inv in Hinst.
  destruct Hinst as (_ & _ & _ & Hnone & _). specialize (Hnone Halpha).
  split.
  - intros r Hr. unfold run, forward in Hr.
    apply bind_ok in Hr. destruct Hr as (loc & log1 & Hasr & _).
    unfold asr_pass in Hasr. rewrite Htrain, Hdraw in Hasr.
    simpl in Hasr. unfold asr_branch, get_ctc in Hasr.
    rewrite Hnone in Hasr. inv_M.
  - intros c eo eol d Hc Henc. unfold run, forward.
    apply bind_fails. unfold asr_pass. rewrite Htrain, Hdraw. simpl.
    unfold bind at 1. unfold lift at 1. rewrite Hc.
    destruct c as [[[b text'] src'] srcl']. simpl.
    unfold bind at 1. unfold ok in Henc. rewrite Henc.
    unfold asr_branch, get_ctc. rewrite Hnone. reflexivity.
Qed.

(** *** Construction, continued *)

(** X10: with the three weights in range, [__init__] raises
    [AttributeError] when [token_list] or [src_token_list] is a tuple, which
    the signature allows but which has no [copy].  With two lists, and
    [report_cer] or [report_wer] set, it builds the ASR error calculator
    from [src_token_list] and raises what that constructor raises; it
    returns in the other cases.  The model that is built has
    [sos = eos = vocab_size - 1] and [src_sos = src_eos = src_vocab_size - 1],
    holds the items of the two token lists, the ASR error calculator that
    was built ([None] without [report_cer] and [report_wer]), and an MT
    error calculator exactly under [report_bleu]. *)
Theorem init_builds
    (vocab : Z) (toks : str_seq)
    (fe sa no pre : option FeatsModule) (enc enc_mt : FeatsModule)
    (post : option FeatsModule) (dec : STDecoder) (asr_dec : ASRDecoder)
    (c : CTC) (kw : init_kwargs)
    (Hasr : lt_lt 0.0 (kw_asr_weight kw) 1.0 = true)
    (Hmt : le_lt 0.0 (kw_mt_weight kw) 1.0 = true)
    (Halpha : le_lt 0.0 (kw_mtlalpha kw) 1.0 = true) :
  let construct :=
    __init__ imports vocab toks fe sa no pre enc enc_mt post dec asr_dec c kw
  in
  let new_calc :=
    new_ASRErrorCalculator imports (items_of (kw_src_token_list kw))
      (kw_sym_space kw) (kw_sym_blank kw)
      (kw_report_cer kw) (kw_report_wer kw) in
  let built (self : ESPnetSTMDSampModel) :=
    sos self = (vocab - 1)%Z /\ eos self = (vocab - 1)%Z /\
    src_sos self = (kw_src_vocab_size kw - 1)%Z /\
    src_eos self = (kw_src_vocab_size kw - 1)%Z /\
    token_list self = items_of toks /\
    src_token_list self = items_of (kw_src_token_list kw) /\
    (mt_error_calculator self = None <-> kw_report_bleu kw = false) in
  (is_list toks && is_list (kw_src_token_list kw) = false ->
   construct = raise (AttributeError "copy")) /\
  (is_list toks && is_list (kw_src_token_list kw) = true ->
   (kw_report_cer kw || kw_report_wer kw = true ->
    (forall e, new_calc = raise e -> construct = raise e) /\
    (forall calc, new_calc = ok calc ->
       exists self,
         construct = ok self /\ built self /\
         asr_error_calculator self = Some calc)) /\
   (kw_report_cer kw || kw_report_wer kw = false ->
    exists self,
      construct = ok self /\ built self /\
      asr_error_calculator self = None)).
Proof.
  intros construct new_calc built.
  subst construct new_calc built. cbv beta. unfold __init__.
  rewrite Hasr, Hmt, Halpha. simpl.
  split.
  - intros Hl. destruct toks; [reflexivity |].
    destruct (kw_src_token_list kw); [reflexivity | discriminate Hl].
  - intros Hl. destruct toks as [| toks]; [discriminate Hl |].
    destruct (kw_src_token_list kw) as [| src_toks];
      [discriminate Hl |].
    simpl.
    split.
    + intros ->. simpl. split.
      * intros e ->. reflexivity.
      * intros calc ->. simpl. eexists. split; [reflexivity |]. simpl.
        split; [| reflexivity].
        repeat (split; [reflexivity |]).
        destruct (kw_report_bleu kw); split; congruence.
    + intros ->. simpl. eexists. split; [reflexivity |]. simpl.
      split; [| reflexivity].
      repeat (split; [reflexivity |]).
      destruct (kw_report_bleu kw); split; congruence.
Qed.

(** *** The metrics of an evaluation pass *)

Lemma _calc_asr_att_loss_metrics (self : ESPnetSTMDSampModel) eo eol ys yl
    log loss acc cer wer hs log' :
  _calc_asr_att_loss imports self eo eol ys yl log
    = inr ((loss, acc, cer, wer, hs), log') ->
  exists ys_in ys_out dec_out flat,
    add_sos_eos imports ys (src_sos self) (src_eos self) (ignore_id self)
      = ok (ys_in, ys_out) /\
    asr_decoder self eo eol ys_in (LongTensor.add_scalar yl 1)
      = ok (dec_out, hs) /\
    view2 dec_out (src_vocab_size self) = ok flat /\
    th_accuracy imports flat ys_out (ignore_id self) = ok acc /\
    (training self = false ->
     forall calc, asr_error_calculator self = Some calc ->
       exists yh, argmax_last dec_out = ok yh /\
                  asr_cer_wer calc yh ys = ok (cer, wer)).
Proof.
  unfold _calc_asr_att_loss. intros H. inv_M.
  do 4 eexists. do 4 (split; [eassumption |]).
  intros Htr calc Hcalc. rewrite Hcalc, Htr in *. inv_M. eauto.
Qed.

Lemma _calc_mt_att_loss_metrics (self : ESPnetSTMDSampModel) mt_out mt_lens
    ys yl sp spl log loss acc bleu log' :
  _calc_mt_att_loss imports self mt_out mt_lens ys yl sp spl log
    = inr ((loss, acc, bleu), log') ->
  exists ys_in ys_out dec_out flat,
    add_sos_eos imports ys (sos self) (eos self) (ignore_id self)
      = ok (ys_in, ys_out) /\
    decoder self mt_out mt_lens ys_in (LongTensor.add_scalar yl 1)
      (if speech_attn self then Some (sp, spl) else None) = ok dec_out /\
    view2 dec_out (vocab_size self) = ok flat /\
    th_accuracy imports flat ys_out (ignore_id self) = ok acc /\
    (training self = false ->
     forall calc, mt_error_calculator self = Some calc ->
       exists yh, argmax_last dec_out = ok yh /\ calc yh ys = ok bleu).
Proof.
  unfold _calc_mt_att_loss. intros H. inv_M.
  do 4 eexists. do 4 (split; [eassumption |]).
  intros Htr calc Hcalc. rewrite Hcalc, Htr in *. inv_M. eauto.
Qed.

Lemma _calc_ctc_loss_metrics (self : ESPnetSTMDSampModel) eo eol ys yl log
    loss cer log' :
  _calc_ctc_loss self eo eol ys yl log = inr ((loss, cer), log') ->
  exists c,
    ctc self = Some c /\
    (training self = false ->
     forall calc, asr_error_calculator self = Some calc ->
       exists yh, ctc_argmax c eo = ok yh /\
                  asr_cer_ctc calc yh ys = ok cer).
Proof.
  unfold _calc_ctc_loss, get_ctc. intros H.
  destruct (ctc self) as [c |]; [| inv_M; discriminate].
  inv_M. eexists. split; [reflexivity |].
  intros Htr calc Hcalc. rewrite Hcalc, Htr in *. simpl in *. inv_M. eauto.
Qed.

(** X16: in evaluation mode the statistics report: under [acc_asr] and
    [acc], the accuracy [th_accuracy] of the ASR decoder output against the
    reference transcript and of the ST decoder output against the reference
    translation; under [cer] and [wer], what the ASR error calculator
    returns for the argmax of the ASR decoder output and the reference
    transcript; under [cer_ctc], when [mtlalpha > 0], what it returns for
    [ctc.argmax] of the encoder output; under [bleu], what the MT error
    calculator returns for the argmax of the ST decoder output and the
    reference translation.  The references are those cut to the longest
    length, and each float is made a tensor of one element. *)
Theorem evaluation_metrics (self : ESPnetSTMDSampModel) u
    speech spl text tl src_text src_tl loss stats weight log
    (Heval : training self = false)
    (Hrun : run (forward imports self u speech spl text tl src_text src_tl)
            = ok (loss, stats, weight, log)) :
  exists b text' src' srcl eo eol d_enc
         ys_in ys_out dec_out hs flat acc_asr
         mt_out mt_lens ys_in' ys_out' dec_out' flat' acc,
    check_inputs speech spl text tl src_text src_tl
      = ok (b, text', src', srcl) /\
    encode self speech spl [] = ok (eo, eol, d_enc) /\
    add_sos_eos imports src' (src_sos self) (src_eos self) (ignore_id self)
      = ok (ys_in, ys_out) /\
    asr_decoder self eo eol ys_in (LongTensor.add_scalar srcl 1)
      = ok (dec_out, hs) /\
    view2 dec_out (src_vocab_size self) = ok flat /\
    th_accuracy imports flat ys_out (ignore_id self) = ok acc_asr /\
    dict_get stats "acc_asr" = Some (PyTensor (tensor_of_float acc_asr)) /\
    (forall calc, asr_error_calculator self = Some calc ->
       exists yh cer wer,
         argmax_last dec_out = ok yh /\
         asr_cer_wer calc yh src' = ok (cer, wer) /\
         dict_get stats "cer" = Some (gathered_metric cer) /\
         dict_get stats "wer" = Some (gathered_metric wer)) /\
    (forall calc, asr_error_calculator self = Some calc ->
       (0.0 <? mtlalpha self)%float = true ->
       exists c yh cer,
         ctc self = Some c /\
         ctc_argmax c eo = ok yh /\
         asr_cer_ctc calc yh src' = ok cer /\
         dict_get stats "cer_ctc" = Some (gathered_metric cer)) /\
    encoder_mt self hs (LongTensor.add_scalar srcl 1) = ok (mt_out, mt_lens) /\
    add_sos_eos imports text' (sos self) (eos self) (ignore_id self)
      = ok (ys_in', ys_out') /\
    decoder self mt_out mt_lens ys_in' (LongTensor.add_scalar tl 1)
      (Some (eo, eol)) = ok dec_out' /\
    view2 dec_out' (vocab_size self) = ok flat' /\
    th_accuracy imports flat' ys_out' (ignore_id self) = ok acc /\
    dict_get stats "acc" = Some (PyTensor (tensor_of_float acc)) /\
    (forall calc, mt_error_calculator self = Some calc ->
       exists yh bleu,
         argmax_last dec_out' = ok yh /\
         calc yh text' = ok bleu /\
         dict_get stats "bleu" = Some (gathered_metric bleu)).
Proof.
  unfold run, forward in Hrun.
  apply bind_ok in Hrun. destruct Hrun as (loc & log1 & Hasr & Hst).
  unfold asr_pass in Hasr. rewrite Heval in Hasr. simpl in Hasr.
  unfold asr_branch, mt_encoder_branch in Hasr. inv_M.
  unfold st_pass in Hst. simpl in Hst.
  unfold bind_speech_out, st_call, local in Hst.
  destruct (speech_attn self) eqn:Hattn; [| inv_M; discriminate].
  inv_M.
  match goal with
  | H : make_stats _ _ _ _ _ _ _ _ _ = inr _ |- _ =>
      apply make_stats_entries in H; destruct H as (s1 & s2 & s3 & ->)
  end.
  match goal with
  | H : gather_dict _ = inr _ |- _ => simpl in H
  end.
  inv_M.
  match goal with
  | H : _calc_asr_att_loss _ _ _ _ _ _ _ = inr _ |- _ =>
      apply _calc_asr_att_loss_metrics in H;
      destruct H as (ys_in & ys_out & dec_out & flat & Hsos & Hdec & Hflat
                     & Hacc & Hcw)
  end.
  match goal with
  | H : _calc_mt_att_loss _ _ _ _ _ _ _ _ _ = inr _ |- _ =>
      apply _calc_mt_att_loss_metrics in H;
      destruct H as (ys_in' & ys_out' & dec_out' & flat' & Hsos' & Hdec'
                     & Hflat' & Hacc' & Hbleu)
  end.
  rewrite Hattn in Hdec'.
  match goal with
  | H : ctc_branch _ _ _ _ _ _ = inr _ |- _ => rename H into Hctcb
  end.
  repeat match goal with
  | H : gather_value (PyFloat _) = inr _ |- _ =>
      simpl in H; unfold ok in H; injection H as <-
  | H : gather_value (of_option_float _) = inr _ |- _ =>
      rewrite gather_value_metric in H; unfold ok in H; injection H as <-
  end.
  do 20 eexists.
  split; [eassumption |]. split; [eassumption |].
  split; [exact Hsos |]. split; [exact Hdec |]. split; [exact Hflat |].
  split; [exact Hacc |]. split; [reflexivity |].
  split.
  { intros calc Hcalc. destruct (Hcw Heval calc Hcalc) as (yh & Hyh & Hc).
    do 3 eexists. split; [exact Hyh |]. split; [exact Hc |].
    split; reflexivity. }
  split.
  { intros calc Hcalc Halpha. unfold ctc_branch in Hctcb.
    rewrite Halpha in Hctcb. inv_M.
    match goal with
    | H : _calc_ctc_loss _ _ _ _ _ _ = inr _ |- _ =>
        apply _calc_ctc_loss_metrics in H; destruct H as (c & Hc & Hm)
    end.
    destruct (Hm Heval calc Hcalc) as (yh & Hyh & Hcer).
    match goal with
    | H : gather_value (of_option_float _) = inr _ |- _ =>
        rewrite gather_value_metric in H; unfold ok in H; injection H as <-
    end.
    do 3 eexists. split; [exact Hc |]. split; [exact Hyh |].
    split; [exact Hcer | reflexivity]. }
  split; [eassumption |].
  split; [exact Hsos' |]. split; [exact Hdec' |]. split; [exact Hflat' |].
  split; [exact Hacc' |]. split; [reflexivity |].
  intros calc Hcalc. destruct (Hbleu Heval calc Hcalc) as (yh & Hyh & Hb).
  do 2 eexists. split; [exact Hyh |]. split; [exact Hb | reflexivity].
Qed.

End STMDSampFacts.

(** ** The properties on concrete runs *)

Section Runs.

Import STMDSamp Reference.

Lemma new_model_trained :
  new_model (kwargs 0.25 0.0 0.5 0.5 true) = ok trained.
Proof. reflexivity. Defined.

Lemma trained_instance (mode : bool) :
  instance_of ref_imports (set_training mode trained).
Proof.
  exists 4%Z, (StrList ["<blank>"; "x"; "y"; "<sos/eos>"]%string),
    None, None, None, None, ref_feats, ref_feats, None,
    (ref_decoder 4), (ref_asr_decoder 4), ref_ctc,
    (kwargs 0.25 0.0 0.5 0.5 true), trained, mode.
  split; reflexivity.
Defined.

Lemma pass_sampled : pass trained 0.25 = ok sampled.
Proof. exact (eq_refl (ok sampled) <: pass trained 0.25 = ok sampled). Defined.

Lemma pass_forced : pass trained 0.75 = ok forced.
Proof. exact (eq_refl (ok forced) <: pass trained 0.75 = ok forced). Defined.

Lemma pass_evaluated : pass evaluating 0.25 = ok evaluated.
Proof.
  exact (eq_refl (ok evaluated) <: pass evaluating 0.25 = ok evaluated).
Defined.

(** On the sampled pass the CTC weight is 1.0, and the loss is
    [0.75 * loss_st + 0.25 * (1.0 * loss_asr_ctc + 0.0 * loss_asr_att)]. *)
Lemma forward_loss_composition_witness :
  exists loss_st loss_asr_att loss_asr_ctc : tensor,
    fst (fst (fst sampled))
    = PyTensor (gather_tensor
                  (tadd (rmul (1.0 - 0.25)%float loss_st)
                        (rmul 0.25%float
                           (tadd (rmul 1.0%float loss_asr_ctc)
                                 (rmul (1.0 - 1.0)%float loss_asr_att))))).
Proof.
  destruct (@forward_loss_composition dense ref_imports trained 0.25%float
              speech speech_lengths text text_lengths
              (Some src_text) (Some src_text_lengths)
              (fst (fst (fst sampled))) (snd (fst (fst sampled)))
              (snd (fst sampled)) (snd sampled)
              (trained_instance true) pass_sampled)
    as (loss_st & loss_asr_att & loss_asr & _ & _ & Hasr & Hloss).
  simpl in Hasr.
  destruct Hasr as (c & hs & hlens & ys & yl & loss_asr_ctc & _ & _ & _ & ->).
  exists loss_st, loss_asr_att, loss_asr_ctc. exact Hloss.
Defined.

(** On the sampled pass the ASR decoder and the MT encoder get the lengths
    [2; 2] of the sampled transcript [[1]; [2]], and [acc_asr] is [None];
    on the forced pass they get the lengths [3; 2] of the reference. *)
Lemma sampling_switch_witness :
  (exists ys_in hs hlens hs',
      calls_to ModAsrDecoder (snd sampled)
      = [CallAsrDecoder hs hlens ys_in [2; 2]%Z] /\
      calls_to ModEncoderMt (snd sampled) = [CallEncoderMt hs' [2; 2]%Z] /\
      dict_get (snd (fst (fst sampled))) "acc_asr" = Some PyNone) /\
  (exists ys_in hs hlens hs',
      calls_to ModAsrDecoder (snd forced)
      = [CallAsrDecoder hs hlens ys_in [3; 2]%Z] /\
      calls_to ModEncoderMt (snd forced) = [CallEncoderMt hs' [3; 2]%Z]).
Proof.
  split.
  - destruct (@sampling_switch dense ref_imports trained 0.25%float
                speech speech_lengths text text_lengths
                (Some src_text) (Some src_text_lengths)
                (fst (fst (fst sampled))) (snd (fst (fst sampled)))
                (snd (fst sampled)) (snd sampled) pass_sampled)
      as (src & srcl & m & eo & eol & d_enc & transcript & tlens & lens_in
          & ys_in & ys_out & dec_out & hs & Hsrc & Hsrcl & Hm & Henc & Hsw
          & _ & Hlens & _ & Hcall & _ & _ & Hmt & _).
    simpl in Hsw.
    destruct Hsw as (c & raw & Hc & Hraw & Hsample & Hacc & _).
    injection Hsrc as <-. injection Hsrcl as <-.
    change (LongTensor.max src_text_lengths) with (@ok Z 2%Z) in Hm.
    injection Hm as <-.
    change (@encode dense trained speech speech_lengths [])
      with (@ok (tensor * list Z * list event)
              (speech, speech_lengths,
               [@CallEncoder dense speech speech_lengths])) in Henc.
    injection Henc as <- <- <-.
    change (ctc trained) with (Some ref_ctc) in Hc. injection Hc as <-.
    change (ctc_argmax ref_ctc speech)
      with (@ok (list (list Z)) [[1; 1; 0]; [0; 0; 0]]%Z) in Hraw.
    injection Hraw as <-.
    change (CtcSample.sample [[1; 1; 0]; [0; 0; 0]]%Z
              (LongTensor.slice_cols src_text 2))
      with (@ok (list (list Z) * list Z) ([[1]; [2]]%Z, [1; 1]%Z))
      in Hsample.
    injection Hsample as <- <-.
    rewrite Hlens in Hcall, Hmt.
    exists ys_in, speech, speech_lengths, hs.
    split; [exact Hcall |]. split; [exact Hmt | exact Hacc].
  - destruct (@sampling_switch dense ref_imports trained 0.75%float
                speech speech_lengths text text_lengths
                (Some src_text) (Some src_text_lengths)
                (fst (fst (fst forced))) (snd (fst (fst forced)))
                (snd (fst forced)) (snd forced) pass_forced)
      as (src & srcl & m & eo & eol & d_enc & transcript & tlens & lens_in
          & ys_in & ys_out & dec_out & hs & _ & Hsrcl & _ & _ & Hsw
          & _ & Hlens & _ & Hcall & _ & _ & Hmt & _).
    simpl in Hsw. destruct Hsw as (_ & ->).
    injection Hsrcl as <-.
    rewrite Hlens in Hcall, Hmt.
    exists ys_in, eo, eol, hs. split; [exact Hcall | exact Hmt].
Defined.

(** Without [speech_attn] the pass does not return. *)
Lemma forward_needs_speech_attn_witness :
  returns (pass (instance 0.25 0.0 0.5 0.5 false true) 0.75) = false.
Proof.
  exact (proj1 (proj2 (proj2 (proj2
           (proj1 (proj2 (@forward_needs_speech_attn dense ref_imports
                            (instance 0.25 0.0 0.5 0.5 false true)))
              eq_refl))))
           0.75%float speech speech_lengths text text_lengths
           (Some src_text) (Some src_text_lengths)).
Defined.

Lemma asr_branch_sampled :
  asr_branch ref_imports trained true speech speech_lengths
    src_text src_text_lengths []
  = ok sampled_branch.
Proof.
  exact (eq_refl (ok sampled_branch)
         <: asr_branch ref_imports trained true speech speech_lengths
              src_text src_text_lengths [] = ok sampled_branch).
Defined.

(** The greedy paths [1 1 0] and [0 0 0] give the transcripts [1] and,
    from the reference [2 -1], [2]; the ASR decoder gets the lengths
    [2; 2]. *)
Lemma sampled_transcript_witness :
  exists ys_hat ys_hat_lens ys_in,
    CtcSample.sample [[1; 1; 0]; [0; 0; 0]]%Z src_text
    = ok (ys_hat, ys_hat_lens) /\
    ys_hat = [[1]; [2]]%Z /\ ys_hat_lens = [1; 1]%Z /\
    In (@CallAsrDecoder dense speech speech_lengths ys_in [2; 2]%Z)
       (snd sampled_branch).
Proof.
  destruct (@sampled_transcript dense ref_imports trained speech
              speech_lengths src_text src_text_lengths []
              (fst sampled_branch) (snd sampled_branch) asr_branch_sampled)
    as (c & raw & ys_hat & ys_hat_lens & ts & Hctc & Hraw & Hsample & Hlen
        & Hnth & _ & Hlens & Hpad & _ & ys_in & ys_out & _ & Hin & _).
  change (ctc trained) with (Some ref_ctc) in Hctc. injection Hctc as <-.
  change (ctc_argmax ref_ctc speech)
    with (@ok (list (list Z)) [[1; 1; 0]; [0; 0; 0]]%Z) in Hraw.
  injection Hraw as <-.
  destruct (Hnth 0%nat [1; 1; 0]%Z eq_refl) as (t0 & H0 & Ht0).
  destruct (Hnth 1%nat [0; 0; 0]%Z eq_refl) as (t1 & H1 & row & Hrow & Ht1).
  simpl in Ht0. injection Hrow as <-. simpl in Ht1.
  destruct ts as [| a [| b [| ? ?]]]; try discriminate Hlen.
  simpl in H0, H1. injection H0 as ->. injection H1 as ->.
  subst t0 t1 ys_hat ys_hat_lens.
  exists [[1]; [2]]%Z, [1; 1]%Z, ys_in.
  split; [exact Hsample |]. split; [reflexivity |]. split; [reflexivity |].
  exact Hin.
Defined.

Lemma calc_mt_plain :
  _calc_mt_att_loss ref_imports (instance 0.25 0.0 0.5 0.5 false true)
    speech speech_lengths text text_lengths speech speech_lengths []
  = ok st_loss_plain.
Proof.
  exact (eq_refl (ok st_loss_plain)
         <: _calc_mt_att_loss ref_imports
              (instance 0.25 0.0 0.5 0.5 false true)
              speech speech_lengths text text_lengths
              speech speech_lengths [] = ok st_loss_plain).
Defined.

(** On the forced pass the three decoders are chained, and the ST decoder
    of [trained], which has [speech_attn] set, is also handed the output of
    the speech encoder; with the lengths [3; 2] of the reference and of the
    translation, each increased by one.  Without [speech_attn] the decoder
    is called without speech input. *)
Lemma decoder_routing_witness :
  (exists hs mt_out mt_lens ys_in ys_in',
      calls_to ModAsrDecoder (snd forced)
      = [@CallAsrDecoder dense speech speech_lengths ys_in [3; 2]%Z] /\
      calls_to ModEncoderMt (snd forced) = [CallEncoderMt hs [3; 2]%Z] /\
      encoder_mt trained hs [3; 2]%Z = ok (mt_out, mt_lens) /\
      calls_to ModDecoder (snd forced)
      = [CallDecoder mt_out mt_lens ys_in' [3; 2]%Z
           (Some (speech, speech_lengths))]) /\
  (exists ys_in,
      calls_to ModDecoder (snd st_loss_plain)
      = [@CallDecoder dense speech speech_lengths ys_in [3; 2]%Z None]).
Proof.
  split.
  2: { destruct (proj2 (@decoder_routing dense ref_imports
                          (instance 0.25 0.0 0.5 0.5 false true))
                   speech speech_lengths text text_lengths
                   speech speech_lengths []
                   (fst st_loss_plain) (snd st_loss_plain) calc_mt_plain)
         as (ys_in & ys_out & dec_out & _ & Hcall & _).
       exists ys_in. exact Hcall. }
  destruct (proj1 (@decoder_routing dense ref_imports trained) 0.75%float
              speech speech_lengths text text_lengths
              (Some src_text) (Some src_text_lengths)
              (fst (fst (fst forced))) (snd (fst (fst forced)))
              (snd (fst forced)) (snd forced) pass_forced)
    as (eo & eol & d_enc & transcript & tlens & lens_in & ys_in & ys_out
        & dec_out & hs & mt_out & mt_lens & n & lens_st & ys_in' & ys_out'
        & dec_out' & loss_st
        & Henc & _ & _ & Hasr & _ & Hmt & Hmt' & _ & _ & Hst & Hdec & _).
  change (@encode dense trained speech speech_lengths [])
    with (@ok (tensor * list Z * list event)
            (speech, speech_lengths,
             [@CallEncoder dense speech speech_lengths])) in Henc.
  injection Henc as <- <- <-.
  assert (Hlens : lens_in = [3; 2]%Z).
  { assert (H : calls_to ModAsrDecoder (snd forced)
                = [@CallAsrDecoder dense speech speech_lengths
                     [[3; 2; 1]; [3; 2; 3]]%Z [3; 2]%Z]) by reflexivity.
    rewrite H in Hasr. now injection Hasr as _ <-. }
  subst lens_in lens_st.
  exists hs, mt_out, mt_lens, ys_in, ys_in'.
  split; [exact Hasr |]. split; [exact Hmt |]. split; [exact Hmt' |].
  exact Hdec.
Defined.

(** C5 as it is worded fails on the forced pass: the sixth invocation of
    the log is the ST decoder, and it receives the speech encoder output. *)
Lemma decoder_routing_counterexample :
  ~ (forall out,
        pass trained 0.75 = ok out ->
        forall hs hlens ys_in ys_in_lens sp,
          In (CallDecoder hs hlens ys_in ys_in_lens sp) (snd out) ->
          sp = None).
Proof.
  intros H.
  assert (Hsp : Some (speech, speech_lengths) = None).
  { eapply (H forced pass_forced). unfold forced. simpl.
    do 5 right. left. reflexivity. }
  discriminate Hsp.
Qed.

Lemma pass_plain : pass (instance 0.25 0.0 0.0 0.5 true true) 0.75 = ok plain.
Proof.
  exact (eq_refl (ok plain)
         <: pass (instance 0.25 0.0 0.0 0.5 true true) 0.75 = ok plain).
Defined.

Lemma plain_instance :
  instance_of ref_imports (instance 0.25 0.0 0.0 0.5 true true).
Proof.
  exists 4%Z, (StrList ["<blank>"; "x"; "y"; "<sos/eos>"]%string),
    None, None, None, None, ref_feats, ref_feats, None,
    (ref_decoder 4), (ref_asr_decoder 4), ref_ctc,
    (kwargs 0.25 0.0 0.0 0.5 true), (instance 0.25 0.0 0.0 0.5 true true),
    true.
  split; reflexivity.
Defined.

(** With [mtlalpha = 0.5] the CTC loss is invoked once, with
    [mtlalpha = 0.0] never, and no [ctc] is stored. *)
Lemma ctc_branch_iff_witness :
  (exists ev, calls_to ModCtc (snd forced) = [ev]) /\
  calls_to ModCtc (snd plain) = [] /\
  ctc (instance 0.25 0.0 0.0 0.5 true true) = None.
Proof.
  split; [| split].
  - destruct (proj2 (proj2 (@ctc_branch_iff dense ref_imports trained
                              (trained_instance true)))
                0.75%float speech speech_lengths text text_lengths
                (Some src_text) (Some src_text_lengths)
                (fst (fst (fst forced))) (snd (fst (fst forced)))
                (snd (fst forced)) (snd forced) pass_forced)
      as (src & srcl & m & eo & eol & d_enc & _ & _ & _ & _ & Hif).
    simpl in Hif. destruct Hif as (c & t & _ & Hcalls & _).
    eexists. exact Hcalls.
  - destruct (proj2 (proj2 (@ctc_branch_iff dense ref_imports
                              (instance 0.25 0.0 0.0 0.5 true true)
                              plain_instance))
                0.75%float speech speech_lengths text text_lengths
                (Some src_text) (Some src_text_lengths)
                (fst (fst (fst plain))) (snd (fst (fst plain)))
                (snd (fst plain)) (snd plain) pass_plain)
      as (src & srcl & m & eo & eol & d_enc & _ & _ & _ & _ & Hif).
    simpl in Hif. exact (proj1 Hif).
  - exact (proj1 (proj1 (proj2 (@ctc_branch_iff dense ref_imports
                                  (instance 0.25 0.0 0.0 0.5 true true)
                                  plain_instance))
                    eq_refl)).
Defined.

(** The forced pass returns the batch size 2 as weight; the evaluation
    pass reports the accuracy 1.0 and the BLEU 0.0 that the reference
    [th_accuracy] and MT error calculator return. *)
Lemma forward_returns_triple_witness :
  snd (fst forced) = PyLong [2%Z] /\
  map fst (snd (fst (fst forced)))
  = ["loss"; "loss_asr"; "loss_st"; "acc_asr"; "acc"; "cer_ctc"; "cer";
     "wer"; "bleu"]%string /\
  dict_get (snd (fst (fst evaluated))) "acc"
  = Some (gathered_metric (Some 1.0%float)) /\
  dict_get (snd (fst (fst evaluated))) "bleu"
  = Some (gathered_metric (Some 0.0%float)).
Proof.
  split; [| split].
  - destruct (@forward_returns_triple dense ref_imports trained 0.75%float
                speech speech_lengths text text_lengths
                (Some src_text) (Some src_text_lengths)
                (fst (fst (fst forced))) (snd (fst (fst forced)))
                (snd (fst forced)) (snd forced) pass_forced)
      as (b & t_loss & t_asr & t_st & acc_asr & acc & cer_ctc & cer & wer
          & bleu & text' & src' & srcl & eo & eol & d_enc & mt_out & mt_lens
          & ys_in' & d & y & Hsize & Hweight & _).
    change (@size dense speech 0) with (@ok Z 2%Z) in Hsize.
    injection Hsize as <-. exact Hweight.
  - destruct (@forward_returns_triple dense ref_imports trained 0.75%float
                speech speech_lengths text text_lengths
                (Some src_text) (Some src_text_lengths)
                (fst (fst (fst forced))) (snd (fst (fst forced)))
                (snd (fst forced)) (snd forced) pass_forced)
      as (b & t_loss & t_asr & t_st & acc_asr & acc & cer_ctc & cer & wer
          & bleu & text' & src' & srcl & eo & eol & d_enc & mt_out & mt_lens
          & ys_in' & d & y & _ & _ & _ & _ & _ & _ & Hstats & _).
    rewrite Hstats. reflexivity.
  - destruct (@forward_returns_triple dense ref_imports evaluating 0.25%float
                speech speech_lengths text text_lengths
                (Some src_text) (Some src_text_lengths)
                (fst (fst (fst evaluated))) (snd (fst (fst evaluated)))
                (snd (fst evaluated)) (snd evaluated) pass_evaluated)
      as (b & t_loss & t_asr & t_st & acc_asr & acc & cer_ctc & cer & wer
          & bleu & text' & src' & srcl & eo & eol & d_enc & mt_out & mt_lens
          & ys_in' & d & y & _ & _ & _ & _ & _ & _ & Hstats & _ & _ & _ & _
          & _ & _ & _ & _ & _ & flat' & a' & _ & Hacc & -> & Hbleu).
    change (th_accuracy ref_imports flat' y (ignore_id evaluating))
      with (@ok float 1.0%float) in Hacc.
    injection Hacc as <-.
    change (exists yh, argmax_last d = ok yh /\
                       @ok (option float) (Some 0.0%float) = ok bleu)
      in Hbleu.
    destruct Hbleu as (yh & _ & Hb). injection Hb as <-.
    rewrite Hstats. split; reflexivity.
Defined.

(** A head with two inputs and the default two labels, on one vector. *)
Lemma linear_decoder_forward_witness :
  exists self out,
    TokenClassification.__init__ 2 None
      (fun j i => Z.of_nat (j + i)) (fun j => Z.of_nat j) = ok self /\
    TokenClassification.num_labels self = 2%Z /\
    TokenClassification.forward 0%Z Z.add Z.mul self
      (TokenClassification.mkTensor3 1 1 2 [[[3; 4]]]%Z) [1%Z] = ok out /\
    TokenClassification.data out = [[[4; 12]]]%Z.
Proof.
  pose (self := TokenClassification.mkLinearDecoder 2
                  (TokenClassification.mkLinear 2 2
                     [[0; 1]; [1; 2]]%Z [0; 1]%Z)).
  destruct (@linear_decoder_forward Z 0%Z Z.add Z.mul 2%Z None
              (fun j i => Z.of_nat (j + i)) (fun j => Z.of_nat j) self
              eq_refl)
    as (Hlabels & _ & _ & Hshape).
  destruct (Hshape (TokenClassification.mkTensor3 1 1 2 [[[3; 4]]]%Z) [1%Z])
    as (out & Hout & _ & _ & _ & _ & Hdata).
  - split; [reflexivity |]. repeat constructor.
  - reflexivity.
  - exists self, out. split; [reflexivity |]. split; [exact Hlabels |].
    split; [exact Hout |]. rewrite Hdata. reflexivity.
Defined.

(** The constructor called with its defaults. *)
Lemma init_preconditions_witness :
  new_model default_kwargs
  = raise (AssertionError "asr_weight should be (0.0, 1.0)").
Proof.
  exact (proj2 (proj2 (proj2
           (@init_preconditions dense ref_imports 4%Z
              (StrList ["<blank>"; "x"; "y"; "<sos/eos>"]%string)
              None None None None ref_feats ref_feats None
              (ref_decoder 4) (ref_asr_decoder 4) ref_ctc default_kwargs)))).
Defined.

(** [mt_weight = 0.5] instead of [0.0] changes nothing in the pass. *)
Lemma mt_weight_unobservable_witness :
  pass (instance 0.25 0.5 0.5 0.5 true true) 0.25 = pass trained 0.25.
Proof.
  exact (proj2
           (@mt_weight_unobservable dense ref_imports 4%Z
              (StrList ["<blank>"; "x"; "y"; "<sos/eos>"]%string)
              None None None None ref_feats ref_feats None
              (ref_decoder 4) (ref_asr_decoder 4) ref_ctc
              (kwargs 0.25 0.0 0.5 0.5 true) 0.5%float
              trained (instance 0.25 0.5 0.5 0.5 true true)
              new_model_trained eq_refl)
           true 0.25%float speech speech_lengths text text_lengths
           (Some src_text) (Some src_text_lengths)).
Defined.

(** *** Further runs *)

Lemma encode_trained :
  @encode dense trained speech speech_lengths []
  = ok (speech, speech_lengths, [@CallEncoder dense speech speech_lengths]).
Proof. reflexivity. Defined.

(** The speech encoder of [trained] is the encoder alone: the output has
    the batch size 2 of [speech], and three frames for a longest length
    of 3. *)
Lemma encode_postconditions_witness :
  exists b n1 m,
    @size dense speech 0 = ok b /\ @size dense speech 0 = ok b /\
    @size dense speech 1 = ok n1 /\
    LongTensor.max speech_lengths = ok m /\ (n1 <= m)%Z /\
    speech_lengths <> [] /\ speech_lengths <> [].
Proof.
  exact (@encode_postconditions dense trained speech speech_lengths []
           speech speech_lengths [@CallEncoder dense speech speech_lengths]
           encode_trained).
Defined.

Lemma encode_stage_order_witness :
  exists d,
    [@CallEncoder dense speech speech_lengths] = [] ++ d /\
    map callee_of d = [ModEncoder].
Proof.
  destruct (@encode_stage_order dense trained speech speech_lengths []
              (speech, speech_lengths) [@CallEncoder dense speech speech_lengths]
              encode_trained)
    as (d & Hlog & Hd & _).
  exists d. split; [exact Hlog | exact Hd].
Defined.

Lemma checked_padded :
  check_inputs speech speech_lengths text_padded text_lengths
    (Some src_text) (Some src_text_lengths)
  = ok (2%Z, text, src_text, src_text_lengths).
Proof. reflexivity. Defined.

(** A translation padded to three columns is cut to the longest length 2. *)
Lemma check_inputs_truncation_witness :
  exists n,
    LongTensor.max text_lengths = ok n /\
    text = map (fun row => slice_to row n) text_padded /\
    Forall2 (fun row row' => exists rest, row = row' ++ rest)
      text_padded text.
Proof.
  destruct (@check_inputs_truncation dense speech speech_lengths text_padded
              text_lengths src_text src_text_lengths 2%Z text src_text
              src_text_lengths checked_padded)
    as (n & m & Hn & _ & _ & Ht & _ & Hp & _).
  exists n. split; [exact Hn |]. split; [exact Ht | exact Hp].
Defined.

(** The invocations of the sampled pass. *)
Lemma pass_order_witness :
  map callee_of (snd sampled)
  = [ModEncoder; ModCtcArgmax; ModAsrDecoder; ModCriterionAsr; ModCtc;
     ModEncoderMt; ModDecoder; ModCriterionSt].
Proof.
  exact (proj1 (@pass_order dense ref_imports trained 0.25%float
                  speech speech_lengths text text_lengths
                  (Some src_text) (Some src_text_lengths)
                  (fst (fst (fst sampled))) (snd (fst (fst sampled)))
                  (snd (fst sampled)) (snd sampled) pass_sampled)).
Defined.

(** No BLEU in the training pass; two calls of the ASR error calculator in
    the evaluation pass, where [mtlalpha = 0.5]. *)
Lemma metrics_need_evaluation_witness :
  dict_get (snd (fst (fst forced))) "bleu" = Some PyNone /\
  length (calls_to ModAsrErrorCalculator (snd evaluated)) = 2%nat.
Proof.
  split.
  - exact (proj1 (proj1 (proj2 (proj2
             (@metrics_need_evaluation dense ref_imports trained 0.75%float
                speech speech_lengths text text_lengths
                (Some src_text) (Some src_text_lengths)
                (fst (fst (fst forced))) (snd (fst (fst forced)))
                (snd (fst forced)) (snd forced) pass_forced)))
             (or_introl eq_refl))).
  - exact (proj1 (proj2
             (@metrics_need_evaluation dense ref_imports evaluating
                0.25%float speech speech_lengths text text_lengths
                (Some src_text) (Some src_text_lengths)
                (fst (fst (fst evaluated))) (snd (fst (fst evaluated)))
                (snd (fst evaluated)) (snd evaluated) pass_evaluated))
             eq_refl
             (fun H => eq_ind (asr_error_calculator evaluating)
                         (fun o => match o with Some _ => True
                                             | None => False end)
                         I None H)).
Defined.

(** Two draws above the sampling rate 0.5, and two draws on either side of
    it in evaluation mode. *)
Lemma forward_reads_draw_witness :
  pass trained 0.75 = pass trained 0.875 /\
  pass evaluating 0.25 = pass evaluating 0.75.
Proof.
  split.
  - exact (@forward_reads_draw dense ref_imports trained 0.75%float
             0.875%float speech speech_lengths text text_lengths
             (Some src_text) (Some src_text_lengths) (or_intror eq_refl)).
  - exact (@forward_reads_draw dense ref_imports evaluating 0.25%float
             0.75%float speech speech_lengths text text_lengths
             (Some src_text) (Some src_text_lengths) (or_introl eq_refl)).
Defined.

(** With [mtlalpha = 0.0] the sampling pass raises. *)
Lemma sampling_needs_ctc_witness :
  pass (instance 0.25 0.0 0.0 0.5 true true) 0.25
  = raise (AttributeError "ctc").
Proof.
  exact (proj2 (@sampling_needs_ctc dense ref_imports
                  (instance 0.25 0.0 0.0 0.5 true true) 0.25%float
                  speech speech_lengths text text_lengths
                  (Some src_text) (Some src_text_lengths)
                  plain_instance eq_refl eq_refl eq_refl)
           (2%Z, text, src_text, src_text_lengths)
           speech speech_lengths [@CallEncoder dense speech speech_lengths]
           eq_refl eq_refl).
Defined.

(** The default [src_token_list = []] holds no blank: the constructor of
    the ASR error calculator raises, and [__init__] with it. *)
Lemma init_builds_witness :
  new_model
    (mkKwargs 0 (StrList []) 0.25 0.0 0.0 0.0 (-1) 0.0 false true true true
       "<space>" "<blank>" true false)
  = raise (ValueError "sym_blank is not in list").
Proof.
  exact (proj1 (proj1 (proj2
           (@init_builds dense ref_imports 4%Z
              (StrList ["<blank>"; "x"; "y"; "<sos/eos>"]%string)
              None None None None ref_feats ref_feats None
              (ref_decoder 4) (ref_asr_decoder 4) ref_ctc
              (mkKwargs 0 (StrList []) 0.25 0.0 0.0 0.0 (-1) 0.0 false
                 true true true "<space>" "<blank>" true false)
              eq_refl eq_refl eq_refl) eq_refl) eq_refl)
           (ValueError "sym_blank is not in list") eq_refl).
Defined.

(** The path [0 1 1 0 2 0 0] decodes to [1 2]. *)
Lemma greedy_decode_alignment_witness :
  CtcSample.filter_blank
    (CtcSample.groupby_keys [0; 1; 1; 0; 2; 0; 0]%Z) = [1; 2]%Z.
Proof.
  refine (@greedy_decode_alignment 1
            [(1%Z, 1%nat, 0%nat); (2%Z, 0%nat, 1%nat)] _).
  repeat constructor; discriminate.
Defined.

Lemma sample_padded :
  CtcSample.sample [[1; 1; 2]; [0; 0; 0]]%Z src_text
  = ok ([[1; 2]; [2; -1]]%Z, [2; 1]%Z).
Proof. reflexivity. Defined.

(** The sampled batch [[1 2]; [2 -1]] without its padding. *)
Lemma padding_round_trip_witness :
  CtcSample.transcripts_spec 0 [[1; 1; 2]; [0; 0; 0]]%Z src_text
  = ok [[1; 2]; [2]]%Z.
Proof.
  refine (proj1 (@padding_round_trip [[1; 1; 2]; [0; 0; 0]]%Z src_text
                   [[1; 2]; [2; -1]]%Z [2; 1]%Z _ sample_padded)).
  repeat constructor; discriminate.
Defined.


(** The evaluation pass reports the value 0.0 of the reference calculator
    as BLEU, made a tensor. *)
Lemma evaluation_metrics_witness :
  exists bleu,
    dict_get (snd (fst (fst evaluated))) "bleu"
    = Some (gathered_metric bleu) /\
    bleu = Some 0.0%float.
Proof.
  destruct (@evaluation_metrics dense ref_imports evaluating 0.25%float
              speech speech_lengths text text_lengths
              (Some src_text) (Some src_text_lengths)
              (fst (fst (fst evaluated))) (snd (fst (fst evaluated)))
              (snd (fst evaluated)) (snd evaluated) eq_refl pass_evaluated)
    as (b & text' & src' & srcl & eo & eol & d_enc & ys_in & ys_out
        & dec_out & hs & flat & acc_asr & mt_out & mt_lens & ys_in' & ys_out'
        & dec_out' & flat' & acc & _ & _ & _ & _ & _ & _ & _ & _ & _ & _ & _
        & _ & _ & _ & _ & Hbleu).
  destruct (Hbleu (fun _ _ => ok (Some 0.0%float)) eq_refl)
    as (yh & bleu & _ & Hb & Hget).
  exists bleu. split; [exact Hget |].
  injection Hb as <-. reflexivity.
Defined.


(** The texts are not read when the statistics are collected. *)
Lemma collect_feats_stats_witness :
  collect_feats trained speech speech_lengths text text_lengths
    (Some src_text) (Some src_text_lengths) []
  = collect_feats trained speech speech_lengths [] [] None None [].
Proof.
  exact (proj1 (@collect_feats_stats dense trained speech speech_lengths
                  text text_lengths (Some src_text) (Some src_text_lengths)
                  [])
           [] [] None None).
Defined.

(** A batch without source text. *)
Lemma forward_input_checks_witness :
  run (forward ref_imports trained 0.75 speech speech_lengths text
         text_lengths None None)
  = raise (AssertionError "missing source text for asr sub-task of ST").
Proof.
  exact (proj1 (proj2 (proj2
           (@forward_input_checks dense ref_imports trained 0.75%float
              speech speech_lengths text text_lengths None None))
           2%Z eq_refl eq_refl eq_refl eq_refl) eq_refl).
Defined.

(** A blank path without a reference row. *)
Lemma sample_returns_witness :
  CtcSample.sample [[0; 0; 0]]%Z []
  = raise (IndexError "index out of range").
Proof.
  refine (proj2 (proj2 (@sample_returns [[0; 0; 0]]%Z []))
            0%nat [0; 0; 0]%Z eq_refl _ (le_n 0)).
  repeat constructor.
Defined.

End Runs.
